(** * The streaming translation pipeline of the OpenAI-to-Claude-CLI proxy

    A shallow embedding of the streaming module ([StreamingResponse] and
    [StreamingManager], in [src/unnamed/part_000], which the handlers
    require as [lib/streaming]), of the streaming generator
    [ClaudeProcess.executeStreaming] (in [src/lib/router.js]) and of the
    tool gate of [ChatHandler] (in [src/api/chat.js]), followed by the
    properties the specification states about them; and of what
    surrounds them: request validation and the response bodies
    ([OpenAIModels]), the prompt, the options and the cleaning of the
    output ([MessageAdapter], both in [src/lib/models.js]), the command
    line and the finished run ([ClaudeProcess]), the router and the
    server ([src/lib/router.js], [src/server.js]), the configuration
    ([Config], in [src/unnamed/part_000]) and the redaction of logged
    headers ([src/lib/logger.js]), with properties read off that code.

    JavaScript strings are sequences of UTF-16 code units, JSON values are
    a tree type, exceptions are an explicit result type, and the state of
    the HTTP response object is threaded explicitly.  Calls to the logger
    change nothing that is modelled here and are left out. *)

From Stdlib Require Import List Bool Arith NArith ZArith Lia String Ascii.
From Stdlib Require DecimalString DecimalPos.
Import ListNotations.

(* ================================================================== *)
(** * JavaScript values                                                 *)
(* ================================================================== *)

Module JS.

(** A JavaScript string: its UTF-16 code units, in order. *)
Definition jstring := list N.

(** A string literal of the source, code unit by code unit. *)
Definition js (s : string) : jstring :=
  map N_of_ascii (list_ascii_of_string s).

Definition jstring_eqb (a b : jstring) : bool :=
  if list_eq_dec N.eq_dec a b then true else false.

(** ECMAScript [WhiteSpace] and [LineTerminator] code points: what
    [String.prototype.trim] strips and what [\s] matches. *)
Definition is_space (c : N) : bool :=
  (N.eqb c 9 || N.eqb c 10 || N.eqb c 11 || N.eqb c 12 || N.eqb c 13
   || N.eqb c 32 || N.eqb c 160 || N.eqb c 5760
   || (N.leb 8192 c && N.leb c 8202)
   || N.eqb c 8232 || N.eqb c 8233 || N.eqb c 8239 || N.eqb c 8287
   || N.eqb c 12288 || N.eqb c 65279)%bool.

(** [LineTerminator]: the code units [.] does not match. *)
Definition is_line_terminator (c : N) : bool :=
  (N.eqb c 10 || N.eqb c 13 || N.eqb c 8232 || N.eqb c 8233)%bool.

Fixpoint trimStart (s : jstring) : jstring :=
  match s with
  | c :: s' => if is_space c then trimStart s' else s
  | [] => []
  end.

Definition trimEnd (s : jstring) : jstring := rev (trimStart (rev s)).

(** [s.trim()]. *)
Definition trim (s : jstring) : jstring := trimEnd (trimStart s).

(** ** JSON values

    The values [JSON.parse] builds.  A number is carried by the text that
    [Number.prototype.toString] yields for it (so both zeroes are ["0"],
    and an overflowing literal is ["Infinity"]; JSON has no [NaN]); an
    object by its own properties in enumeration order, each key once.
    [undefined] is the [None] of an [option json]. *)
#[warnings="-register-all"]
Inductive json :=
| JNull
| JBool (b : bool)
| JNum (repr : jstring)
| JStr (s : jstring)
| JArr (items : list json)
| JObj (fields : list (jstring * json)).

(** ** Exceptions *)
Inductive type_error :=
| NullProperty (prop : jstring)   (* reading a property of [null]        *)
| NotAFunction (callee : jstring) (* calling a value that is no function *)
| NotPrimitive.                   (* an object with no usable [toString] *)

Inductive js_error :=
| TypeError (t : type_error)
| Error (message : jstring).      (* [new Error(message)] *)

Inductive result (A : Type) :=
| Ok (a : A)
| Throw (e : js_error).
Arguments Ok {A} a.
Arguments Throw {A} e.

Definition bind {A B} (m : result A) (k : A -> result B) : result B :=
  match m with
  | Ok a => k a
  | Throw e => Throw e
  end.

Declare Scope js_scope.
Delimit Scope js_scope with js.
Notation "x <- m ;; k" := (bind m (fun x => k))
  (at level 61, m at next level, right associativity) : js_scope.
Open Scope js_scope.

(** ** What the engine supplies

    Built-ins of the JavaScript engine that the repository calls and does
    not define. *)
Record Platform := {
  (** [JSON.parse(text)]; [None] when it throws a [SyntaxError]. *)
  JSON_parse : jstring -> option json;
  (** whether [StringToNumber(s) > 0]. *)
  StringToNumber_positive : jstring -> bool;
  (** the [message] of an engine-raised [TypeError]. *)
  TypeError_message : type_error -> jstring
}.

(** [error.message]. *)
Definition message_of (P : Platform) (e : js_error) : jstring :=
  match e with
  | TypeError t => TypeError_message P t
  | Error m => m
  end.

(** ** Coercions and property access *)

(** [ToBoolean]. *)
Definition truthy (v : json) : bool :=
  match v with
  | JNull => false
  | JBool b => b
  | JNum r => negb (jstring_eqb r (js "0"))
  | JStr s => match s with [] => false | _ => true end
  | JArr _ | JObj _ => true
  end.

Definition truthy_opt (v : option json) : bool :=
  match v with
  | Some w => truthy w
  | None => false
  end.

Fixpoint assoc (k : jstring) (fields : list (jstring * json)) : option json :=
  match fields with
  | [] => None
  | (k', v) :: rest => if jstring_eqb k k' then Some v else assoc k rest
  end.

(** [v.k] for a property name [k] that no built-in prototype defines
    ([type], [subtype], [message], [content], [tool_calls], [text], [id],
    [name], [input]): own properties of an object, [undefined] on every other
    value, a [TypeError] on [null]. *)
Definition get (v : json) (k : string) : result (option json) :=
  match v with
  | JNull => Throw (TypeError (NullProperty (js k)))
  | JObj fields => Ok (assoc (js k) fields)
  | _ => Ok None
  end.

(** [x === 'lit'] for a property value [x]. *)
Definition is_str (x : option json) (lit : string) : bool :=
  match x with
  | Some (JStr s) => jstring_eqb s (js lit)
  | _ => false
  end.

Definition sequence {A} (l : list (option A)) : option (list A) :=
  fold_right (fun x acc =>
                match x, acc with
                | Some a, Some r => Some (a :: r)
                | _, _ => None
                end) (Some []) l.

Fixpoint join (sep : jstring) (parts : list jstring) : jstring :=
  match parts with
  | [] => []
  | [p] => p
  | p :: rest => p ++ sep ++ join sep rest
  end.

(** [ToString(v)], as string concatenation applies it; [None] stands for
    the [TypeError] of an object whose own [toString] property hides the
    inherited method.  An array is its elements joined by commas, [null]
    elements as empty strings; a plain object is ["[object Object]"]. *)
Fixpoint to_string (v : json) : option jstring :=
  match v with
  | JNull => Some (js "null")
  | JBool true => Some (js "true")
  | JBool false => Some (js "false")
  | JNum r => Some r
  | JStr s => Some s
  | JArr items =>
      option_map (join (js ","))
        (sequence (map (fun x => match x with
                                 | JNull => Some []
                                 | _ => to_string x
                                 end) items))
  | JObj fields =>
      match assoc (js "toString") fields with
      | Some _ => None
      | None => Some (js "[object Object]")
      end
  end.

Definition ToString (v : json) : result jstring :=
  match to_string v with
  | Some s => Ok s
  | None => Throw (TypeError NotPrimitive)
  end.

(** [w > 0] for a JSON value [w]. *)
Definition gt_zero (P : Platform) (w : json) : result bool :=
  match w with
  | JNull => Ok false
  | JBool b => Ok b
  | JNum r =>
      Ok (match r with
          | 45%N :: _ => false              (* a leading minus sign *)
          | _ => negb (jstring_eqb r (js "0"))
          end)
  | JStr s => Ok (StringToNumber_positive P s)
  | JArr _ | JObj _ =>
      s <- ToString w ;; Ok (StringToNumber_positive P s)
  end.

(** [v.length > 0] for a non-null value [v]. *)
Definition length_positive (P : Platform) (v : json) : result bool :=
  match v with
  | JStr s => Ok (match s with [] => false | _ => true end)
  | JArr items => Ok (match items with [] => false | _ => true end)
  | JObj fields =>
      match assoc (js "length") fields with
      | Some w => gt_zero P w
      | None => Ok false
      end
  | JNum _ | JBool _ => Ok false
  | JNull => Throw (TypeError (NullProperty (js "length")))
  end.

(** ** JSON.stringify, without indentation *)

Definition hex_digit (n : N) : N :=
  if N.ltb n 10 then 48 + n else 87 + n.

(** [\uXXXX], lower case. *)
Definition unicode_escape (c : N) : jstring :=
  js "\u" ++ [hex_digit (N.modulo (N.div c 4096) 16);
              hex_digit (N.modulo (N.div c 256) 16);
              hex_digit (N.modulo (N.div c 16) 16);
              hex_digit (N.modulo c 16)].

Definition is_high_surrogate (c : N) : bool := N.leb 55296 c && N.leb c 56319.
Definition is_low_surrogate (c : N) : bool := N.leb 56320 c && N.leb c 57343.

Definition quote_unit (c : N) : jstring :=
  if N.eqb c 8 then js "\b"
  else if N.eqb c 9 then js "\t"
  else if N.eqb c 10 then js "\n"
  else if N.eqb c 12 then js "\f"
  else if N.eqb c 13 then js "\r"
  else if N.eqb c 34 then [92; 34]%N
  else if N.eqb c 92 then [92; 92]%N
  else if N.ltb c 32 then unicode_escape c
  else if is_low_surrogate c then unicode_escape c
  else [c].

Fixpoint quote_units (s : jstring) : jstring :=
  match s with
  | [] => []
  | c :: s' =>
      if is_high_surrogate c then
        match s' with
        | d :: s'' =>
            if is_low_surrogate d then c :: d :: quote_units s''
            else unicode_escape c ++ quote_units s'
        | [] => unicode_escape c
        end
      else quote_unit c ++ quote_units s'
  end.

(** [QuoteJSONString]. *)
Definition quote (s : jstring) : jstring := [34%N] ++ quote_units s ++ [34%N].

Fixpoint stringify (v : json) : jstring :=
  match v with
  | JNull => js "null"
  | JBool true => js "true"
  | JBool false => js "false"
  | JNum r =>
      if jstring_eqb r (js "Infinity") || jstring_eqb r (js "-Infinity")
      then js "null" else r
  | JStr s => quote s
  | JArr items => js "[" ++ join (js ",") (map stringify items) ++ js "]"
  | JObj fields =>
      js "{"
      ++ join (js ",")
           ((fix members (l : list (jstring * json)) : list jstring :=
               match l with
               | [] => []
               | (k, w) :: rest => (quote k ++ js ":" ++ stringify w) :: members rest
               end) fields)
      ++ js "}"
  end.

End JS.
Import JS.

(* ================================================================== *)
(** * The regular expressions of the source                             *)
(* ================================================================== *)

Module Regex.

(** Character classes that occur in the source's patterns. *)
Inductive cclass :=
| Lit (c : N)                  (* a literal code unit            *)
| Dot                          (* [.] without the [s] flag       *)
| Space                        (* [\s]                           *)
| NotSpace                     (* [\S]                           *)
| Alt (a b : cclass).          (* a bracket class, [[ab]]        *)

Fixpoint cmatch (k : cclass) (c : N) : bool :=
  match k with
  | Lit d => N.eqb c d
  | Dot => negb (is_line_terminator c)
  | Space => is_space c
  | NotSpace => negb (is_space c)
  | Alt a b => cmatch a c || cmatch b c
  end.

(** The patterns are sequences of single characters and of starred
    classes, greedy ([k*]) or lazy ([k*?]). *)
Inductive atom :=
| One (k : cclass)
| Star (k : cclass)
| StarLazy (k : cclass).

Definition regex := list atom.

Definition chars (s : string) : regex := map (fun c => One (Lit c)) (js s).

(** Backtracking match of [r] at the head of [s]: the number of code
    units the first successful alternative consumes, in the engine's
    priority order (a greedy star tries one more repetition before the
    rest of the pattern, a lazy star the rest of the pattern first). *)
Fixpoint rmatch (r : regex) : jstring -> option nat :=
  match r with
  | [] => fun _ => Some 0
  | One k :: r' => fun s =>
      match s with
      | c :: s' => if cmatch k c then option_map S (rmatch r' s') else None
      | [] => None
      end
  | Star k :: r' =>
      fix star (s : jstring) : option nat :=
        match s with
        | c :: s' =>
            if cmatch k c then
              match star s' with
              | Some n => Some (S n)
              | None => rmatch r' s
              end
            else rmatch r' s
        | [] => rmatch r' s
        end
  | StarLazy k :: r' =>
      fix lazy (s : jstring) : option nat :=
        match rmatch r' s with
        | Some n => Some n
        | None =>
            match s with
            | c :: s' => if cmatch k c then option_map S (lazy s') else None
            | [] => None
            end
        end
  end.

(** [s.replace(/r/g, repl)]: scan left to right; at a match emit [repl]
    and resume after it, elsewhere copy the code unit.  [skip] counts the
    code units of the current match still to be passed over. *)
Fixpoint replace_go (r : regex) (repl : jstring) (skip : nat) (s : jstring)
  : jstring :=
  match s with
  | [] =>
      match skip, rmatch r [] with
      | O, Some _ => repl
      | _, _ => []
      end
  | c :: s' =>
      match skip with
      | S k => replace_go r repl k s'
      | O =>
          match rmatch r s with
          | Some (S n) => repl ++ replace_go r repl n s'
          | Some O => repl ++ c :: replace_go r repl 0 s'
          | None => c :: replace_go r repl 0 s'
          end
      end
  end.

Definition replaceAll (r : regex) (repl : jstring) (s : jstring) : jstring :=
  replace_go r repl 0 s.

(** Does [r] match somewhere in [s]? *)
Fixpoint matches_in (r : regex) (s : jstring) : bool :=
  match rmatch r s with
  | Some _ => true
  | None => match s with
            | _ :: s' => matches_in r s'
            | [] => false
            end
  end.

End Regex.
Import Regex.

(* ================================================================== *)
(** * StreamingManager.filterContent                                    *)
(* ================================================================== *)

Module Filter.

(** [/<function_calls>[\s\S]*?<\/antml:function_calls>/g] *)
Definition re_function_calls : regex :=
  chars "<function_calls>" ++ [StarLazy (Alt Space NotSpace)]
        ++ chars "</antml" ++ chars ":function_calls>".

(** [/<thinking>[\s\S]*?<\/antml:thinking>/g] *)
Definition re_thinking : regex :=
  chars "<thinking>" ++ [StarLazy (Alt Space NotSpace)]
        ++ chars "</antml" ++ chars ":thinking>".

(** [/\[Tool Use:.*?\]/g] *)
Definition re_tool_use : regex :=
  chars "[Tool Use:" ++ [StarLazy Dot] ++ chars "]".

(** [/\[File: .*?\]/g] *)
Definition re_file : regex :=
  chars "[File: " ++ [StarLazy Dot] ++ chars "]".

(** [/\n\s*\n\s*\n/g] *)
Definition re_blank_lines : regex :=
  [One (Lit 10); Star Space; One (Lit 10); Star Space; One (Lit 10)].

(** [filterContent(content)] on a string.  The first guard returns a
    falsy or non-string argument unchanged; the empty string is the only
    falsy string. *)
Definition filterContent (content : jstring) : jstring :=
  match content with
  | [] => content
  | _ =>
      let filtered := replaceAll re_function_calls [] content in
      let filtered := replaceAll re_thinking [] filtered in
      let filtered := replaceAll re_tool_use [] filtered in
      let filtered := replaceAll re_file [] filtered in
      trim (replaceAll re_blank_lines [10%N; 10%N] filtered)
  end.

End Filter.
Import Filter.

(* ================================================================== *)
(** * StreamingResponse: the server-sent-events session                 *)
(* ================================================================== *)

Module Sse.

(** The [delta] object handed to [writeChunk]: [{role, content}],
    [{content}], [{tool_calls}] or [{}]. *)
Inductive delta :=
| DRole (role content : jstring)
| DContent (content : jstring)
| DToolCalls (tool_calls : json)
| DEmpty.

(** What [res.write] is given.  [FChunk] is the line
    [data: <JSON of createStreamingChunk(request, delta, finishReason)>]
    (its [id] and [created], drawn from [crypto.randomBytes] and
    [Date.now], are not carried), [FError] the line of an
    [{error: {message, type, code}}] payload, [FDone] [data: [DONE]]. *)
Inductive frame :=
| FChunk (model : jstring) (d : delta) (finish_reason : option jstring)
| FError (message type code : jstring)
| FDone.

(** The Node response object [res]: the status and content type given to
    [writeHead], the frames written, the body given to [end], and, as the
    environment's part, which of the coming [write]/[end] calls throw
    ([true] first: the next call throws; none left: no call throws). *)
Record Transport := {
  head : option (Z * jstring);
  wire : list frame;
  body : option json;
  ended : bool;
  faults : list bool
}.

Definition fresh_res (faults : list bool) : Transport :=
  {| head := None; wire := []; body := None; ended := false; faults := faults |}.

Definition res_writeHead (t : Transport) (status : Z) (ctype : jstring)
  : Transport :=
  {| head := Some (status, ctype); wire := wire t; body := body t;
     ended := ended t; faults := faults t |}.

(** [res.write(frame)]: [false] when the call throws. *)
Definition res_write (t : Transport) (f : frame) : bool * Transport :=
  match faults t with
  | true :: rest =>
      (false, {| head := head t; wire := wire t; body := body t;
                 ended := ended t; faults := rest |})
  | _ =>
      (true, {| head := head t; wire := wire t ++ [f]; body := body t;
                ended := ended t; faults := tl (faults t) |})
  end.

(** [res.end(data)]. *)
Definition res_end (t : Transport) (data : option json) : bool * Transport :=
  match faults t with
  | true :: rest =>
      (false, {| head := head t; wire := wire t; body := body t;
                 ended := ended t; faults := rest |})
  | _ =>
      (true, {| head := head t; wire := wire t;
                body := match data with Some _ => data | None => body t end;
                ended := true; faults := tl (faults t) |})
  end.

Record StreamingResponse := {
  res : Transport;
  request_model : jstring;          (* [this.request.model] *)
  closed : bool;
  sentData : bool
}.

Definition with_res (st : StreamingResponse) (t : Transport) : StreamingResponse :=
  {| res := t; request_model := request_model st;
     closed := closed st; sentData := sentData st |}.

(** The constructor: [setupHeaders] sends the event-stream head,
    [setupCleanup] registers [on_close] for the [close] and [error]
    events of [res]. *)
Definition createStream (t : Transport) (model : jstring) : StreamingResponse :=
  {| res := res_writeHead t 200 (js "text/event-stream");
     request_model := model; closed := false; sentData := false |}.

(** The listeners of [setupCleanup]. *)
Definition on_close (st : StreamingResponse) : StreamingResponse :=
  {| res := res st; request_model := request_model st;
     closed := true; sentData := sentData st |}.

Definition isClosed (st : StreamingResponse) : bool := closed st.
Definition hasSentData (st : StreamingResponse) : bool := sentData st.

(** [write(data)], on the frame that [data] serialises to. *)
Definition write (st : StreamingResponse) (f : frame)
  : bool * StreamingResponse :=
  if closed st then (false, st)
  else
    match res_write (res st) f with
    | (true, t) =>
        (true, {| res := t; request_model := request_model st;
                  closed := closed st; sentData := true |})
    | (false, t) =>
        (false, {| res := t; request_model := request_model st;
                   closed := true; sentData := sentData st |})
    end.

(** [OpenAIModels.createStreamingChunk(request, delta, finishReason)]. *)
Definition createStreamingChunk (model : jstring) (d : delta)
           (finishReason : option jstring) : frame :=
  FChunk model d finishReason.

Definition writeChunk (st : StreamingResponse) (d : delta)
           (finishReason : option jstring) : bool * StreamingResponse :=
  write st (createStreamingChunk (request_model st) d finishReason).

(** [writeError(error)]; the errors raised in this program carry neither
    [type] nor [code], so the defaults apply. *)
Definition writeError (P : Platform) (st : StreamingResponse) (error : js_error)
  : bool * StreamingResponse :=
  write st (FError (message_of P error) (js "streaming_error") (js "error")).

(** [end()]. *)
Definition end_ (st : StreamingResponse) : StreamingResponse :=
  if closed st then st
  else
    match res_write (res st) FDone with
    | (true, t) =>
        match res_end t None with
        | (true, t') =>
            {| res := t'; request_model := request_model st;
               closed := true; sentData := sentData st |}
        | (false, t') => with_res st t'
        end
    | (false, t) => with_res st t
    end.

End Sse.
Import Sse.

(* ================================================================== *)
(** * StreamingManager: normalising the subprocess output              *)
(* ================================================================== *)

Module Manager.

(** The objects [parseClaudeChunk] returns, by their [type] field:
    ['system'], ['assistant_message'], ['tool_calls'], ['empty'],
    ['unknown'], ['error']. *)
Inductive parsed :=
| PSystem (data : json)
| PAssistant (content : json)
| PToolCalls (tool_calls : json)
| PEmpty
| PUnknown (data : json)
| PError (error : jstring).

(** One round of the loop of [extractContent], on the text gathered so
    far. *)
Definition extract_block (block : json) (extractedText : jstring)
  : result jstring :=
  match block with
  | JStr s => Ok (extractedText ++ s)
  | JArr _ | JObj _ =>
      text <- get block "text" ;;
      if truthy_opt text then
        t <- ToString (match text with Some w => w | None => JNull end) ;;
        Ok (extractedText ++ t)
      else
        type <- get block "type" ;;
        if is_str type "text" && truthy_opt text then
          t <- ToString (match text with Some w => w | None => JNull end) ;;
          Ok (extractedText ++ t)
        else
          content <- get block "content" ;;
          if truthy_opt content then
            c <- ToString (match content with Some w => w | None => JNull end) ;;
            Ok (extractedText ++ c)
          else Ok extractedText
  | _ => Ok extractedText
  end.

Fixpoint extract_loop (blocks : list json) (extractedText : jstring)
  : result jstring :=
  match blocks with
  | [] => Ok extractedText
  | block :: rest =>
      t <- extract_block block extractedText ;; extract_loop rest t
  end.

(** [extractContent(content)]. *)
Definition extractContent (content : json) : result jstring :=
  match content with
  | JStr s => Ok s
  | JArr blocks => extract_loop blocks []
  | _ => Ok []
  end.

(** [blocks.filter(block => block.type === 'tool_use')]. *)
Fixpoint filter_tool_use (blocks : list json) : result (list json) :=
  match blocks with
  | [] => Ok []
  | block :: rest =>
      type <- get block "type" ;;
      kept <- filter_tool_use rest ;;
      Ok (if is_str type "tool_use" then block :: kept else kept)
  end.

(** [blocks.some(block => block.type === 'tool_use')]. *)
Fixpoint some_tool_use (blocks : list json) : result bool :=
  match blocks with
  | [] => Ok false
  | block :: rest =>
      type <- get block "type" ;;
      if is_str type "tool_use" then Ok true else some_tool_use rest
  end.

(** What [Date.now()] and [Math.random().toString(36).substring(2, 11)]
    print as, for the [n]-th block converted. *)
Definition entropy := nat -> jstring * jstring.

Definition generated_id (ids : entropy) (n : nat) : jstring :=
  js "call_" ++ fst (ids n) ++ js "_" ++ snd (ids n).

(** The callback of [toolUseBlocks.map].  A [name] that is [undefined]
    leaves no member in the serialised object. *)
Definition convert_block (ids : entropy) (n : nat) (block : json) : result json :=
  id <- get block "id" ;;
  name <- get block "name" ;;
  input <- get block "input" ;;
  Ok (JObj
        [(js "id", match id with
                   | Some w => if truthy w then w else JStr (generated_id ids n)
                   | None => JStr (generated_id ids n)
                   end);
         (js "type", JStr (js "function"));
         (js "function",
          JObj (match name with
                | Some w => [(js "name", w)]
                | None => []
                end
                ++ [(js "arguments",
                     JStr (stringify (match input with
                                      | Some w => if truthy w then w else JObj []
                                      | None => JObj []
                                      end)))]))]).

Fixpoint convert_blocks (ids : entropy) (n : nat) (blocks : list json)
  : result (list json) :=
  match blocks with
  | [] => Ok []
  | block :: rest =>
      call <- convert_block ids n block ;;
      calls <- convert_blocks ids (S n) rest ;;
      Ok (call :: calls)
  end.

(** [parseToolCalls(chunk)]. *)
Definition parseToolCalls (P : Platform) (ids : entropy) (chunk : json)
  : result parsed :=
  tool_calls <- get chunk "tool_calls" ;;
  content <- get chunk "content" ;;
  toolCalls <-
    (if truthy_opt tool_calls then
       Ok (match tool_calls with Some w => w | None => JNull end)
     else
       match content with
       | Some (JArr blocks) =>
           toolUseBlocks <- filter_tool_use blocks ;;
           calls <- convert_blocks ids 0 toolUseBlocks ;;
           Ok (JArr calls)
       | _ => Ok (JArr [])
       end) ;;
  positive <- length_positive P toolCalls ;;
  if positive then Ok (PToolCalls toolCalls)
  else
    text <- extractContent (match content with
                            | Some w => if truthy w then w else chunk
                            | None => chunk
                            end) ;;
    Ok (PAssistant (JStr text)).

(** The tail of [normalizeClaudeChunk], from the comment
    "Check for tool calls first" on. *)
Definition normalize_tail (P : Platform) (ids : entropy) (chunk : json)
           (type : option json) : result parsed :=
  tool_calls <- get chunk "tool_calls" ;;
  content <- get chunk "content" ;;
  has_tool_use <-
    (if truthy_opt tool_calls then Ok true
     else
       match content with
       | Some (JArr blocks) => some_tool_use blocks
       | _ => Ok false
       end) ;;
  if has_tool_use then parseToolCalls P ids chunk
  else
    match content with
    | Some (JArr blocks) =>
        text <- extractContent (JArr blocks) ;;
        Ok (PAssistant (JStr text))
    | _ =>
        if is_str type "text" && truthy_opt content then
          Ok (PAssistant (match content with Some w => w | None => JNull end))
        else
          match chunk with
          | JStr _ => Ok (PAssistant chunk)
          | _ => Ok (PUnknown chunk)
          end
    end.

(** [normalizeClaudeChunk(chunk)]. *)
Definition normalizeClaudeChunk (P : Platform) (ids : entropy) (chunk : json)
  : result parsed :=
  type <- get chunk "type" ;;
  if is_str type "system" || is_str type "result" || is_str type "user" then
    Ok (PSystem chunk)
  else
    message <- get chunk "message" ;;
    if is_str type "assistant" && truthy_opt message then
      content <- get (match message with Some w => w | None => JNull end)
                     "content" ;;
      match content with
      | Some (JArr blocks) =>
          toolUseBlocks <- filter_tool_use blocks ;;
          match toolUseBlocks with
          | _ :: _ =>
              parseToolCalls P ids (JObj [(js "content", JArr blocks)])
          | [] =>
              textContent <- extractContent (JArr blocks) ;;
              match textContent with
              | _ :: _ => Ok (PAssistant (JStr textContent))
              | [] => normalize_tail P ids chunk type
              end
          end
      | _ => normalize_tail P ids chunk type
      end
    else normalize_tail P ids chunk type.

(** [parseClaudeChunk(chunk)].  For a string chunk the inner [try] covers
    [JSON.parse], the log line that reads [parsed.type], and the call of
    [normalizeClaudeChunk]: whatever they throw, the chunk is raw text. *)
Definition parseClaudeChunk (P : Platform) (ids : entropy) (chunk : json)
  : parsed :=
  match chunk with
  | JNull | JArr _ | JObj _ =>
      match normalizeClaudeChunk P ids chunk with
      | Ok p => p
      | Throw error => PError (message_of P error)
      end
  | JStr s =>
      match trim s with
      | [] => PEmpty
      | _ =>
          match JSON_parse P s with
          | Some parsed =>
              match (_ <- get parsed "type" ;;
                     _ <- get parsed "subtype" ;;
                     normalizeClaudeChunk P ids parsed) with
              | Ok p => p
              | Throw _ => PAssistant chunk
              end
          | None => PAssistant chunk
          end
      end
  | _ => PUnknown chunk
  end.

End Manager.
Import Manager.

(* ================================================================== *)
(** * StreamingManager.processClaudeStream                              *)
(* ================================================================== *)

Module Machine.

(** What the [for await] loop meets, in order: a chunk yielded by the
    Claude stream (with the entropy its parsing draws), an exception
    thrown by the stream, or a [close]/[error] event of the response
    delivered while the loop was waiting. *)
Inductive event :=
| Chunk (chunk : json) (ids : entropy)
| SourceError (e : js_error)
| ClientGone.

(** The locals of [processClaudeStream] and the session it drives.
    [issued] and [observed] are history variables: the arguments of every
    [stream.writeChunk] call and of every [contentCallback] call, in call
    order.  No decision reads them. *)
Record machine := {
  roleSent : bool;
  contentSent : bool;
  assistantContent : jstring;
  chunkCount : nat;
  stream : StreamingResponse;
  issued : list (delta * option jstring);
  observed : list jstring
}.

Definition start (st : StreamingResponse) : machine :=
  {| roleSent := false; contentSent := false; assistantContent := [];
     chunkCount := 0; stream := st; issued := []; observed := [] |}.

(** [stream.writeChunk(d, finishReason)]. *)
Definition emit (m : machine) (d : delta) (finishReason : option jstring)
  : machine :=
  {| roleSent := roleSent m; contentSent := contentSent m;
     assistantContent := assistantContent m; chunkCount := chunkCount m;
     stream := snd (writeChunk (stream m) d finishReason);
     issued := issued m ++ [(d, finishReason)];
     observed := observed m |}.

(** [if (contentCallback) contentCallback(text)]: the callback is given
    or not, and the strings it receives are recorded in order.  It is
    taken to return normally, as the only one the handlers pass does. *)
Definition notify (callback : bool) (m : machine) (text : jstring) : machine :=
  {| roleSent := roleSent m; contentSent := contentSent m;
     assistantContent := assistantContent m; chunkCount := chunkCount m;
     stream := stream m; issued := issued m;
     observed := if callback then observed m ++ [text] else observed m |}.

Definition set_roleSent (m : machine) : machine :=
  {| roleSent := true; contentSent := contentSent m;
     assistantContent := assistantContent m; chunkCount := chunkCount m;
     stream := stream m; issued := issued m; observed := observed m |}.

Definition set_contentSent (m : machine) : machine :=
  {| roleSent := roleSent m; contentSent := true;
     assistantContent := assistantContent m; chunkCount := chunkCount m;
     stream := stream m; issued := issued m; observed := observed m |}.

Definition set_assistantContent (m : machine) (text : jstring) : machine :=
  {| roleSent := roleSent m; contentSent := contentSent m;
     assistantContent := text; chunkCount := chunkCount m;
     stream := stream m; issued := issued m; observed := observed m |}.

Definition count_chunk (m : machine) : machine :=
  {| roleSent := roleSent m; contentSent := contentSent m;
     assistantContent := assistantContent m; chunkCount := S (chunkCount m);
     stream := stream m; issued := issued m; observed := observed m |}.

Definition with_stream (m : machine) (st : StreamingResponse) : machine :=
  {| roleSent := roleSent m; contentSent := contentSent m;
     assistantContent := assistantContent m; chunkCount := chunkCount m;
     stream := st; issued := issued m; observed := observed m |}.

Definition role_delta : delta := DRole (js "assistant") [].
Definition stop : option jstring := Some (js "stop").
Definition fallbackMessage : jstring :=
  js "I'm unable to provide a response at the moment.".
Definition no_response : jstring :=
  js "No response from Claude CLI - check configuration and authentication".

(** "Send role chunk if not sent yet". *)
Definition ensure_role (m : machine) : machine :=
  if roleSent m then m else set_roleSent (emit m role_delta None).

(** How one round of the loop leaves it. *)
Inductive control :=
| Next
| Break
| Raise (e : js_error).

(** The body of the loop for one chunk. *)
Definition iteration (P : Platform) (callback : bool)
           (chunk : json) (ids : entropy) (m : machine) : machine * control :=
  let m := count_chunk m in
  if isClosed (stream m) then (m, Break)
  else
    match parseClaudeChunk P ids chunk with
    | PAssistant content =>
        let m := ensure_role m in
        if truthy content then
          match content with
          | JStr s =>
              match trim s with
              | [] => (m, Next)
              | _ =>
                  let filteredContent := filterContent s in
                  match filteredContent with
                  | [] => (m, Next)
                  | _ =>
                      let m := emit m (DContent filteredContent) None in
                      let m := set_assistantContent m
                                 (assistantContent m ++ filteredContent) in
                      let m := set_contentSent m in
                      (notify callback m filteredContent, Next)
                  end
              end
          | _ =>
              (m, Raise (TypeError (NotAFunction (js "parsedChunk.content.trim"))))
          end
        else (m, Next)
    | PToolCalls tool_calls =>
        let m := ensure_role m in
        if truthy tool_calls then
          (set_contentSent (emit m (DToolCalls tool_calls) None), Next)
        else (m, Next)
    | PError error =>
        (m, Raise (Error (match error with
                          | [] => js "Claude stream error"
                          | _ => error
                          end)))
    | _ => (m, Next)
    end.

(** The [for await] loop. *)
Fixpoint loop (P : Platform) (callback : bool) (events : list event)
         (m : machine) : machine * control :=
  match events with
  | [] => (m, Next)
  | ClientGone :: rest => loop P callback rest (with_stream m (on_close (stream m)))
  | SourceError e :: _ => (m, Raise e)
  | Chunk chunk ids :: rest =>
      match iteration P callback chunk ids m with
      | (m', Next) => loop P callback rest m'
      | stopped => stopped
      end
  end.

(** From "Handle case where no content was sent" to the [return]. *)
Definition finish (callback : bool) (m : machine) : machine * result jstring :=
  match chunkCount m with
  | O => (m, Throw (Error no_response))
  | S _ =>
      let m :=
        if roleSent m && negb (contentSent m) then
          let m := emit m (DContent fallbackMessage) None in
          let m := set_assistantContent m fallbackMessage in
          notify callback m fallbackMessage
        else if negb (roleSent m) then
          set_roleSent (emit m role_delta None)
        else m in
      let m := if roleSent m then emit m DEmpty stop else m in
      (m, Ok (assistantContent m))
  end.

(** The [catch] block. *)
Definition rescue (P : Platform) (m : machine) (error : js_error)
  : machine * result jstring :=
  (if isClosed (stream m) then m
   else with_stream m (snd (writeError P (stream m) error)),
   Throw error).

(** [processClaudeStream(claudeStream, stream, contentCallback)]:
    [events] is what the loop meets, [callback] whether a
    [contentCallback] was passed. *)
Definition processClaudeStream (P : Platform) (callback : bool)
           (events : list event) (st : StreamingResponse)
  : machine * result jstring :=
  match loop P callback events (start st) with
  | (m, Raise e) => rescue P m e
  | (m, _) =>
      match finish callback m with
      | (m', Throw e) => rescue P m' e
      | done => done
      end
  end.

End Machine.
Import Machine.

(* ================================================================== *)
(** * ClaudeProcess.executeStreaming                                    *)
(* ================================================================== *)

Module Cli.

(** How the child process ends, as [waitForExit] sees it: the [close]
    event with an exit code or with [null] (killed by a signal), or the
    [error] event. *)
Inductive exit_status :=
| Exited (code : Z)
| Signalled
| ProcessError (message : jstring).

(** One run of the child: the fragments its standard output delivers,
    whether that stream then fails, how the process ends, and what
    standard error has delivered by then. *)
Record Subprocess := {
  stdout : list jstring;
  stdout_error : option jstring;
  exit : exit_status;
  stderr : jstring
}.

(** What the generator hands to its consumer.  [Uncaught] closes the
    sequence where an exception that no one catches ends the Node
    process: the consumer receives nothing more, not even an error. *)
Inductive item :=
| Yield (chunk : json)
| Fail (e : js_error)
| Uncaught (e : js_error).

Definition decimal (z : Z) : jstring := js (DecimalString.NilZero.string_of_int (Z.to_int z)).

(** [chunk.split('\n')]. *)
Fixpoint split_lines (s : jstring) : list jstring :=
  match s with
  | [] => [[]]
  | c :: s' =>
      if N.eqb c 10 then [] :: split_lines s'
      else match split_lines s' with
           | line :: rest => (c :: line) :: rest
           | [] => [[c]]
           end
  end.

(** [parseClaudeOutput(line)]. *)
Definition parseClaudeOutput (P : Platform) (line : jstring) : json :=
  match JSON_parse P line with
  | Some parsed => parsed
  | None => JObj [(js "type", JStr (js "text")); (js "content", JStr line)]
  end.

(** The chunks yielded for one fragment of standard output. *)
Definition yields_of (P : Platform) (fragment : jstring) : list item :=
  flat_map (fun line =>
              match trim line with
              | [] => []
              | trimmed => [Yield (parseClaudeOutput P trimmed)]
              end) (split_lines fragment).

(** [waitForExit()]. *)
Definition waitForExit (e : exit_status) : result Z :=
  match e with
  | Exited 0 => Ok 0%Z
  | Exited code => Throw (Error (js "Process exited with code " ++ decimal code))
  | Signalled => Throw (Error (js "Process exited with code null"))
  | ProcessError message => Throw (Error message)
  end.

Definition no_output : jstring :=
  js "No output from Claude CLI - check model name and authentication".

(** The [catch] block: every failure is rethrown with this message. *)
Definition streaming_error (errorBuffer message : jstring) : js_error :=
  Error (js "Claude CLI streaming error: " ++ message
         ++ match errorBuffer with
            | [] => []
            | _ => js ". Stderr: " ++ errorBuffer
            end).

(** The listener that [executeStreaming] registers for the [error]
    event of the child throws.  It runs inside the emitter, outside the
    [try] of the generator and before the listener of [waitForExit], so
    no one catches what it throws. *)
Definition on_error (e : exit_status) : list item :=
  match e with
  | ProcessError message =>
      [Uncaught (Error (js "Failed to start Claude CLI: " ++ message))]
  | _ => []
  end.

(** [executeStreaming(prompt, options)], as the sequence it yields
    followed by the exception it ends with, if any. *)
Definition executeStreaming (P : Platform) (p : Subprocess) : list item :=
  flat_map (yields_of P) (stdout p)
  ++ match stdout_error p with
     | Some message =>
         Fail (streaming_error (stderr p) message) :: on_error (exit p)
     | None =>
         match exit p with
         | ProcessError _ => on_error (exit p)
         | ending =>
             match waitForExit ending with
             | Throw e => [Fail (streaming_error (stderr p) (message_of P e))]
             | Ok _ =>
                 if (Nat.eqb (List.length (stdout p)) 0
                     && Nat.eqb (List.length (List.concat (stdout p))) 0)%bool
                 then [Fail (streaming_error (stderr p) no_output)]
                 else []
             end
         end
     end.

(** The part of an event trace that comes from the Claude stream. *)
Fixpoint source_of (events : list event) : list item :=
  match events with
  | [] => []
  | Chunk chunk _ :: rest => Yield chunk :: source_of rest
  | SourceError e :: rest => Fail e :: source_of rest
  | ClientGone :: rest => source_of rest
  end.

End Cli.
Import Cli.

(* ================================================================== *)
(** * ChatHandler                                                       *)
(* ================================================================== *)

Module Chat.

(** The validated request, as far as the handlers read it. *)
Record request := {
  model : jstring;
  stream_flag : bool;
  tools : option json;
  functions : option json
}.

(** The response object and the number of Claude CLI processes spawned. *)
Record exchange := {
  response : Transport;
  spawns : nat
}.

(** [OpenAIModels.createErrorResponse(message, type)]. *)
Definition createErrorResponse (message type : string) : json :=
  JObj [(js "error",
         JObj [(js "message", JStr (js message));
               (js "type", JStr (js type));
               (js "code", JStr (js type))])].

(** [sendJSON(res, statusCode, data)]; the source guards neither call,
    they are taken not to throw. *)
Definition sendJSON (x : exchange) (statusCode : Z) (data : json) : exchange :=
  let t := res_writeHead (response x) statusCode (js "application/json") in
  {| response := {| head := head t; wire := wire t; body := Some data;
                    ended := true; faults := faults t |};
     spawns := spawns x |}.

Definition sendError (x : exchange) (statusCode : Z) (message type : string)
  : exchange :=
  sendJSON x statusCode (createErrorResponse message type).

(** [field && field.length > 0]. *)
Definition given (P : Platform) (field : option json) : result bool :=
  match field with
  | Some w => if truthy w then length_positive P w else Ok false
  | None => Ok false
  end.

(** The condition of the first [if] of both handlers. *)
Definition tools_requested (P : Platform) (rq : request) : result bool :=
  t <- given P (tools rq) ;;
  if t then Ok true else given P (functions rq).

Definition not_supported : string := "Tool/function calling is not supported".

(** [handleStreamingRequest(request, req, res)]; [events] is what the
    Claude stream and the client do once the process is spawned.  The
    prompt construction between [createStream] and the spawn is left
    out. *)
Definition handleStreamingRequest (P : Platform) (rq : request)
           (events : list event) (x : exchange) : exchange * result unit :=
  match tools_requested P rq with
  | Throw e => (x, Throw e)
  | Ok true => (sendError x 400 not_supported "invalid_request_error", Ok tt)
  | Ok false =>
      let stream := createStream (response x) (model rq) in
      let x := {| response := response x; spawns := S (spawns x) |} in
      let (m, outcome) := processClaudeStream P true events stream in
      let stream := Machine.stream m in
      let stream :=
        match outcome with
        | Throw error =>
            if isClosed stream then stream else snd (writeError P stream error)
        | Ok _ => stream
        end in
      let stream := if isClosed stream then stream else end_ stream in
      ({| response := res stream; spawns := spawns x |}, Ok tt)
  end.

(** [handleNonStreamingRequest(request, req, res)]; [completion] is how
    [claudeCLI.completion] settles, [reply] stands for the construction of
    the response body from the output ([claudeResponseToOpenAI],
    [createUsageStats], [createChatCompletionResponse]). *)
Definition handleNonStreamingRequest (P : Platform) (rq : request)
           (completion : result jstring)
           (reply : jstring -> jstring -> result json)
           (x : exchange) : exchange * result unit :=
  match tools_requested P rq with
  | Throw e => (x, Throw e)
  | Ok true => (sendError x 400 not_supported "invalid_request_error", Ok tt)
  | Ok false =>
      let x := {| response := response x; spawns := S (spawns x) |} in
      match (output <- completion ;; reply (model rq) output) with
      | Ok data => (sendJSON x 200 data, Ok tt)
      | Throw e => (x, Throw e)
      end
  end.

(** [handle(req, res)] from the validated request on.  The exceptions
    that reach its [catch] here are plain errors, without [statusCode]. *)
Definition handle (P : Platform) (rq : request) (events : list event)
           (completion : result jstring)
           (reply : jstring -> jstring -> result json)
           (x : exchange) : exchange :=
  match (if stream_flag rq then handleStreamingRequest P rq events x
         else handleNonStreamingRequest P rq completion reply x) with
  | (x', Ok _) => x'
  | (x', Throw _) => sendError x' 500 "Internal server error" "internal_error"
  end.

End Chat.
Import Chat.

(* ================================================================== *)
(** * Vocabulary of the properties                                      *)
(* ================================================================== *)

Module Vocabulary.

(** None of the four removal patterns matches anywhere in [x]. *)
Definition no_markers (x : jstring) : Prop :=
  matches_in re_function_calls x = false
  /\ matches_in re_thinking x = false
  /\ matches_in re_tool_use x = false
  /\ matches_in re_file x = false.

(** Line feeds in the whitespace run that [s] starts with. *)
Fixpoint nls (s : jstring) : nat :=
  match s with
  | c :: s' =>
      if is_space c then (if N.eqb c 10 then 1 else 0) + nls s' else 0
  | [] => 0
  end.

(** The frame a [writeChunk] call puts on the wire. *)
Definition frame_of (model : jstring) (call : delta * option jstring) : frame :=
  createStreamingChunk model (fst call) (snd call).

(** The deltas among the frames of a wire. *)
Fixpoint deltas_of (w : list frame) : list (delta * option jstring) :=
  match w with
  | [] => []
  | FChunk _ d fr :: rest => (d, fr) :: deltas_of rest
  | _ :: rest => deltas_of rest
  end.

Definition is_role (call : delta * option jstring) : bool :=
  match fst call with
  | DRole _ _ => true
  | _ => false
  end.

Definition is_content (call : delta * option jstring) : bool :=
  match fst call with
  | DContent _ => true
  | _ => false
  end.

Definition is_tool_calls (call : delta * option jstring) : bool :=
  match fst call with
  | DToolCalls _ => true
  | _ => false
  end.

(** A terminal delta: a [finish_reason] is set. *)
Definition is_terminal (call : delta * option jstring) : bool :=
  match snd call with
  | Some _ => true
  | None => false
  end.

(** In [calls], a role announcement comes before every content or
    tool-call delta. *)
Definition role_first (calls : list (delta * option jstring)) : Prop :=
  forall before call after,
    calls = before ++ call :: after ->
    is_content call = true \/ is_tool_calls call = true ->
    In (role_delta, None) before.

(** The concatenation of the strings of the content deltas, in order. *)
Fixpoint contents (calls : list (delta * option jstring)) : jstring :=
  match calls with
  | [] => []
  | (DContent text, _) :: rest => text ++ contents rest
  | _ :: rest => contents rest
  end.

(** A content or tool-call delta, not terminal. *)
Definition payload (call : delta * option jstring) : Prop :=
  (is_content call = true \/ is_tool_calls call = true) /\ snd call = None.

(** The history a run may have issued: nothing, or the role announcement
    followed by deltas that announce no role. *)
Definition wf_history (h : list (delta * option jstring)) : Prop :=
  match h with
  | [] => True
  | call :: rest =>
      call = (role_delta, None) /\ Forall (fun c => is_role c = false) rest
  end.

(** How the flags, the accumulated text and the history of a machine
    inside the loop hang together. *)
Definition shaped (m : machine) : Prop :=
  match issued m with
  | [] => roleSent m = false /\ contentSent m = false /\ assistantContent m = []
  | call :: body =>
      call = (role_delta, None) /\ roleSent m = true /\ chunkCount m <> 0
      /\ Forall payload body
      /\ (contentSent m = false <-> body = [])
      /\ assistantContent m = contents body
  end.

(** The wire of session [st] holds, after what it held at first ([w0]),
    the frames of the first [k] calls of history [h]: all of them while
    the session is open. *)
Definition synced (w0 : list frame) (model : jstring)
           (st : StreamingResponse) (h : list (delta * option jstring)) : Prop :=
  request_model st = model
  /\ exists k, k <= List.length h
               /\ wire (res st) = w0 ++ map (frame_of model) (firstn k h)
               /\ (closed st = false -> k = List.length h).

Definition Inv (w0 : list frame) (model : jstring) (m : machine) : Prop :=
  shaped m /\ synced w0 model (stream m) (issued m).

(** The two rounds of the loop that issue a delta after the role. *)
Definition content_move (callback : bool) (text : jstring) (m : machine)
  : machine :=
  notify callback
    (set_contentSent
       (set_assistantContent (emit m (DContent text) None)
          (assistantContent m ++ text))) text.

Definition tool_move (tool_calls : json) (m : machine) : machine :=
  set_contentSent (emit m (DToolCalls tool_calls) None).

(** A session just created on a response that nothing was written to. *)
Definition fresh (faults : list bool) (model : jstring) : StreamingResponse :=
  createStream (fresh_res faults) model.

(** A session nobody disturbs: open, on a transport with no fault to
    come. *)
Definition quiet (st : StreamingResponse) : Prop :=
  closed st = false /\ faults (res st) = [].

(** An event that leaves the client nothing to read: a system, empty or
    unknown chunk, or a disconnect. *)
Definition bookkeeping (P : Platform) (ev : event) : Prop :=
  match ev with
  | Chunk chunk ids =>
      match parseClaudeChunk P ids chunk with
      | PSystem _ | PEmpty | PUnknown _ => True
      | _ => False
      end
  | SourceError _ => False
  | ClientGone => True
  end.

(** Nothing announced, nothing said. *)
Definition mute (m : machine) : Prop :=
  roleSent m = false /\ contentSent m = false
  /\ assistantContent m = [] /\ issued m = [].

(** A content delta carries a filtered string or the fallback message. *)
Definition filtered (call : delta * option jstring) : Prop :=
  match fst call with
  | DContent text => (exists s, text = filterContent s) \/ text = fallbackMessage
  | _ => True
  end.

(** A string that does not start with whitespace. *)
Definition starts_clean (s : jstring) : Prop :=
  match s with
  | c :: _ => is_space c = false
  | [] => True
  end.

(** The tails of the blank-line pattern. *)
Definition tailA : regex := [Star Space; One (Lit 10)].
Definition tailB : regex := Star Space :: One (Lit 10) :: tailA.

(** The replacement of the blank-line pattern: two line feeds. *)
Definition lf2 : jstring := [10%N; 10%N].

(** The exception a trace without chunks ends the loop with, if any. *)
Definition first_failure (items : list item) : option js_error :=
  match items with
  | Fail e :: _ => Some e
  | _ => None
  end.

(** ** Content extraction *)

(** What one block contributes, before it is converted to a string. *)
Definition selected (block : json) : option json :=
  match block with
  | JStr _ => Some block
  | JObj fields =>
      match assoc (js "text") fields with
      | Some t =>
          if truthy t then Some t
          else match assoc (js "content") fields with
               | Some c => if truthy c then Some c else None
               | None => None
               end
      | None =>
          match assoc (js "content") fields with
          | Some c => if truthy c then Some c else None
          | None => None
          end
      end
  | _ => None
  end.

Definition piece (block : json) : result jstring :=
  match selected block with
  | Some v => ToString v
  | None => Ok []
  end.

Fixpoint pieces (blocks : list json) : result (list jstring) :=
  match blocks with
  | [] => Ok []
  | block :: rest =>
      p <- piece block ;; ps <- pieces rest ;; Ok (p :: ps)
  end.

(** The extraction in the words of the specification: a bare string
    verbatim, else [text] when present, else [content], extracted
    recursively when it is itself a block list. *)
Fixpoint spec_piece (block : json) : result jstring :=
  match block with
  | JStr s => Ok s
  | JObj fields =>
      match assoc (js "text") fields with
      | Some t => ToString t
      | None =>
          (fix content_of (l : list (jstring * json)) : result jstring :=
             match l with
             | [] => Ok []
             | (k, v) :: rest =>
                 if jstring_eqb (js "content") k then
                   match v with
                   | JArr inner =>
                       (fix all (bs : list json) : result jstring :=
                          match bs with
                          | [] => Ok []
                          | b :: bs' =>
                              p <- spec_piece b ;; ps <- all bs' ;; Ok (p ++ ps)
                          end) inner
                   | _ => ToString v
                   end
                 else content_of rest
             end) fields
      end
  | _ => Ok []
  end.

Fixpoint spec_extractContent (blocks : list json) : result jstring :=
  match blocks with
  | [] => Ok []
  | b :: rest =>
      p <- spec_piece b ;; ps <- spec_extractContent rest ;; Ok (p ++ ps)
  end.

(** ** Tool calls *)

Definition member (k : string) (v : json) : jstring * json := (js k, v).

Definition str (s : string) : json := JStr (js s).

(** A tool-use block: an object whose [type] is ['tool_use']. *)
Definition is_tool_use (block : json) : bool :=
  match block with
  | JObj fields => is_str (assoc (js "type") fields) "tool_use"
  | _ => false
  end.

(** The OpenAI form of the [n]-th tool-use block, in the words of the
    specification: [{id: block.id or a generated id, type: 'function',
    function: {name: block.name, arguments: JSON of block.input or of
    the empty object}}]. *)
Definition openai_call (ids : entropy) (n : nat) (block : json) : json :=
  match block with
  | JObj fields =>
      JObj
        [member "id"
           (match assoc (js "id") fields with
            | Some id => if truthy id then id else JStr (generated_id ids n)
            | None => JStr (generated_id ids n)
            end);
         member "type" (str "function");
         member "function"
           (JObj
              (match assoc (js "name") fields with
               | Some name => [member "name" name]
               | None => []
               end
               ++ [member "arguments"
                     (JStr (stringify
                              (match assoc (js "input") fields with
                               | Some input =>
                                   if truthy input then input else JObj []
                               | None => JObj []
                               end)))]))]
  | _ => JNull
  end.

Fixpoint openai_calls (ids : entropy) (n : nat) (blocks : list json)
  : list json :=
  match blocks with
  | [] => []
  | block :: rest => openai_call ids n block :: openai_calls ids (S n) rest
  end.

End Vocabulary.
Import Vocabulary.

(* ================================================================== *)
(** * Concrete runs                                                     *)
(* ================================================================== *)

Module Examples.

(** An engine for closed examples: the messages V8 gives its
    [TypeError]s, a parser that accepts no text and a number conversion
    that finds nothing positive.  No example reaches the last two. *)
Definition engine : Platform :=
  {| JSON_parse := fun _ => None;
     StringToNumber_positive := fun _ => false;
     TypeError_message := fun t =>
       match t with
       | NullProperty prop =>
           js "Cannot read properties of null (reading '" ++ prop ++ js "')"
       | NotAFunction callee => callee ++ js " is not a function"
       | NotPrimitive => js "Cannot convert object to primitive value"
       end |}.

Definition no_entropy : entropy := fun _ => (js "0", js "0").

(** [{"type":"assistant","message":{"content":[{"type":"text","text":"Hi"}]}}] *)
Definition greeting : json :=
  JObj [member "type" (str "assistant");
        member "message"
          (JObj [member "content"
                   (JArr [JObj [member "type" (str "text");
                                member "text" (str "Hi")]])])].

(** An assistant message with some text and the tool-use block
    [{"type":"tool_use","id":"t1","name":"get_weather","input":{"city":"Paris"}}]. *)
Definition weather_blocks : list json :=
  [JObj [member "type" (str "text"); member "text" (str "Let me look.")];
   JObj [member "type" (str "tool_use");
         member "id" (str "t1");
         member "name" (str "get_weather");
         member "input" (JObj [member "city" (str "Paris")])]].

Definition weather_message : list (jstring * json) :=
  [member "content" (JArr weather_blocks)].

Definition weather_fields : list (jstring * json) :=
  [member "type" (str "assistant");
   member "message" (JObj weather_message)].

(** The same message with a [null] entry before the tool-use block. *)
Definition null_entry : json :=
  JObj [member "type" (str "assistant");
        member "message"
          (JObj [member "content"
                   (JArr [JNull;
                          JObj [member "type" (str "tool_use");
                                member "id" (str "t1");
                                member "name" (str "get_weather")]])])].

(** [{"type":"text","content":" "}]: an assistant message of one space. *)
Definition blank : json :=
  JObj [member "type" (str "text"); member "content" (str " ")].

(** A block whose [content] is itself a list. *)
Definition nested : list json :=
  [JObj [member "content" (JArr [str "a"; str "b"])]].

(** A child that prints nothing and exits with code 1, and what the loop
    meets then. *)
Definition crashed : Subprocess :=
  {| stdout := []; stdout_error := None; exit := Exited 1; stderr := [] |}.

Definition crash_events : list event :=
  [SourceError
     (Error (js "Claude CLI streaming error: Process exited with code 1"))].

(** A request that brings one function definition. *)
Definition with_functions : request :=
  {| model := js "any"; stream_flag := true; tools := None;
     functions := Some (JArr [JObj [member "name" (str "f")]]) |}.

(** The run on the greeting alone, and the loop on the blank message. *)
Definition greeting_run : machine * result jstring :=
  processClaudeStream engine true [Chunk greeting no_entropy]
    (fresh [] (js "any")).

Definition blank_loop : machine * control :=
  loop engine true [Chunk blank no_entropy] (start (fresh [] (js "any"))).

Definition untouched : exchange :=
  {| response := fresh_res []; spawns := 0 |}.

End Examples.
Import Examples.

(* ================================================================== *)
(** * Numbers                                                           *)
(* ================================================================== *)

Module Number.

(** What a numeral printed by [Number.prototype.toString] denotes:
    [(-1)^negative * digits * 10^exponent], or an infinity.  Comparing
    this value with an integer gives what comparing the double does, and
    it is an integer exactly when the double is one: the numeral is the
    shortest one that rounds to the double, rounding is monotone, and
    the integers compared with are doubles. *)
Inductive number :=
| Finite (negative : bool) (digits : N) (exponent : Z)
| Infinite (negative : bool).

Definition is_digit (c : N) : bool := (N.leb 48 c && N.leb c 57)%bool.

(** The run of decimal digits at the head of [s]: its value when read
    after [acc], its length, and what follows it. *)
Fixpoint read_digits (acc : N) (s : jstring) : N * nat * jstring :=
  match s with
  | c :: s' =>
      if is_digit c then
        let '(v, n, rest) := read_digits (10 * acc + (c - 48)) s' in
        (v, S n, rest)
      else (acc, 0, s)
  | [] => (acc, 0, [])
  end.

(** The exponent part, [e+d...] or [e-d...], if any. *)
Definition read_exponent (negative : bool) (digits : N) (scale : Z)
           (s : jstring) : option number :=
  match s with
  | [] => Some (Finite negative digits scale)
  | 101%N :: sign :: s' =>
      let '(x, n, rest) := read_digits 0 s' in
      match n, rest with
      | S _, [] =>
          if N.eqb sign 43 then
            Some (Finite negative digits (scale + Z.of_N x))
          else if N.eqb sign 45 then
            Some (Finite negative digits (scale - Z.of_N x))
          else None
      | _, _ => None
      end
  | _ => None
  end.

Definition read_unsigned (negative : bool) (s : jstring) : option number :=
  if jstring_eqb s (js "Infinity") then Some (Infinite negative)
  else
    let '(i, n, rest) := read_digits 0 s in
    match n with
    | O => None
    | S _ =>
        match rest with
        | 46%N :: fraction =>
            let '(m, k, rest') := read_digits i fraction in
            match k with
            | O => None
            | S _ => read_exponent negative m (- Z.of_nat k) rest'
            end
        | _ => read_exponent negative i 0 rest
        end
    end.

(** The number a [JNum] carries; [None] for a text that is no numeral,
    which behaves as [NaN] below. *)
Definition number_of (repr : jstring) : option number :=
  match repr with
  | 45%N :: s => read_unsigned true s
  | _ => read_unsigned false repr
  end.

(** A finite value as a fraction: numerator, and a denominator that is
    a power of ten. *)
Definition fraction (negative : bool) (digits : N) (exponent : Z) : Z * Z :=
  let m := if negative then (- Z.of_N digits)%Z else Z.of_N digits in
  if (0 <=? exponent)%Z then ((m * 10 ^ exponent)%Z, 1%Z)
  else (m, (10 ^ (- exponent))%Z).

(** [x < k] and [x > k] for an integer [k]. *)
Definition less (repr : jstring) (k : Z) : bool :=
  match number_of repr with
  | Some (Finite negative digits exponent) =>
      let (p, q) := fraction negative digits exponent in (p <? k * q)%Z
  | Some (Infinite negative) => negative
  | None => false
  end.

Definition greater (repr : jstring) (k : Z) : bool :=
  match number_of repr with
  | Some (Finite negative digits exponent) =>
      let (p, q) := fraction negative digits exponent in (k * q <? p)%Z
  | Some (Infinite negative) => negb negative
  | None => false
  end.

(** [Number.isInteger(x)]. *)
Definition isInteger (repr : jstring) : bool :=
  match number_of repr with
  | Some (Finite negative digits exponent) =>
      let (p, q) := fraction negative digits exponent in (p mod q =? 0)%Z
  | _ => false
  end.

End Number.

(* ================================================================== *)
(** * OpenAIModels: validating a chat completion request                *)
(* ================================================================== *)

Module Models.

(** [new ValidationError(message, field)].  Every construction in the
    program leaves [code] at ['validation_error']; [statusCode] is 422. *)
Record ValidationError := {
  message : jstring;
  field : option jstring
}.

(** What [validateMessage] throws: its own errors, or a [TypeError] of
    the engine. *)
Inductive thrown :=
| Validation (e : ValidationError)
| Engine (e : js_error).

(** [error.message]. *)
Definition thrown_message (P : Platform) (error : thrown) : jstring :=
  match error with
  | Validation e => message e
  | Engine e => message_of P e
  end.

Definition invalid {A} (text where_ : jstring) : thrown + A :=
  inl (Validation {| message := text; field := Some where_ |}).

(** A validated message, [{role, content}], both strings. *)
Record Message := {
  role : jstring;
  content : jstring
}.

Definition validRoles : list jstring := [js "system"; js "user"; js "assistant"].

(** [list.includes(x)]. *)
Definition includes (list : list jstring) (x : jstring) : bool :=
  existsb (jstring_eqb x) list.

(** [typeof v === 'object'] and [typeof x === 'string']. *)
Definition is_object (v : json) : bool :=
  match v with
  | JNull | JArr _ | JObj _ => true
  | _ => false
  end.

Definition is_string (x : option json) : bool :=
  match x with
  | Some (JStr _) => true
  | _ => false
  end.

Definition string_of (x : option json) : jstring :=
  match x with
  | Some (JStr s) => s
  | _ => []
  end.

(** [v.k] on a value [v] that is not [null]. *)
Definition prop (v : json) (k : string) : option json :=
  match v with
  | JObj fields => assoc (js k) fields
  | _ => None
  end.

(** [items.filter(item => item.type === 'text')]. *)
Fixpoint text_items (items : list json) : result (list json) :=
  match items with
  | [] => Ok []
  | item :: rest =>
      type <- get item "type" ;;
      kept <- text_items rest ;;
      Ok (if is_str type "text" then item :: kept else kept)
  end.

(** [items.map(item => item.text)]. *)
Fixpoint texts (items : list json) : result (list (option json)) :=
  match items with
  | [] => Ok []
  | item :: rest =>
      text <- get item "text" ;;
      others <- texts rest ;;
      Ok (text :: others)
  end.

(** What [Array.prototype.join] makes of one element. *)
Definition join_element (x : option json) : result jstring :=
  match x with
  | None | Some JNull => Ok []
  | Some v => ToString v
  end.

Fixpoint join_elements (l : list (option json)) : result (list jstring) :=
  match l with
  | [] => Ok []
  | x :: rest =>
      s <- join_element x ;;
      others <- join_elements rest ;;
      Ok (s :: others)
  end.

(** The text of a multimodal [content]: its text blocks, joined by line
    feeds. *)
Definition textContent (items : list json) : result jstring :=
  kept <- text_items items ;;
  parts <- texts kept ;;
  strings <- join_elements parts ;;
  Ok (join [10%N] strings).

(** [validateMessage(message)]. *)
Definition validateMessage (message : json) : thrown + Message :=
  if negb (truthy message) || negb (is_object message) then
    invalid (js "Message must be an object") (js "message")
  else
    let role := prop message "role" in
    if negb (truthy_opt role) || negb (is_string role) then
      invalid (js "Message role is required and must be a string")
              (js "message.role")
    else if negb (includes validRoles (string_of role)) then
      invalid (js "Message role must be one of: " ++ join (js ", ") validRoles)
              (js "message.role")
    else
      let content := prop message "content" in
      if negb (truthy_opt content) then
        invalid (js "Message content is required") (js "message.content")
      else
        match content with
        | Some (JStr text) =>
            inr {| role := string_of role; content := text |}
        | Some (JArr items) =>
            match textContent items with
            | Throw e => inl (Engine e)
            | Ok [] =>
                invalid (js "Message must contain at least one text content block")
                        (js "message.content")
            | Ok text => inr {| role := string_of role; content := text |}
            end
        | _ =>
            invalid (js "Message content must be a string or array")
                    (js "message.content")
        end.

(** The validated request.  [tools], [functions] and the sampling
    parameters are members only when the body brought them; the numbers
    are carried by their text, as in [JNum]. *)
Record ChatCompletionRequest := {
  model : jstring;
  messages : list Message;
  stream : bool;
  enable_tools : bool;
  tools : option json;
  functions : option json;
  temperature : option jstring;
  max_tokens : option jstring;
  top_p : option jstring;
  n : option jstring;
  stop : option (list json)
}.

Definition fail {A} (text : jstring) (where_ : option jstring)
  : ValidationError + A :=
  inl {| message := text; field := where_ |}.

(** [body.messages.map((message, index) => ...)], from [index] on. *)
Fixpoint validateMessages (P : Platform) (index : nat) (items : list json)
  : ValidationError + list Message :=
  match items with
  | [] => inr []
  | item :: rest =>
      match validateMessage item with
      | inl error =>
          fail (js "Invalid message at index " ++ decimal (Z.of_nat index)
                ++ js ": " ++ thrown_message P error)
               (Some (js "messages[" ++ decimal (Z.of_nat index) ++ js "]"))
      | inr validated =>
          match validateMessages P (S index) rest with
          | inl e => inl e
          | inr others => inr (validated :: others)
          end
      end
  end.

(** [if (x) validated.x = x]. *)
Definition passed (x : option json) : option json :=
  if truthy_opt x then x else None.

(** [x < lo || x > hi], [!Number.isInteger(x) || x < 1] and
    [!Number.isInteger(x) || x < 1 || x > 1], on a number. *)
Definition outside (lo hi : Z) (repr : jstring) : bool :=
  Number.less repr lo || Number.greater repr hi.

Definition not_positive_integer (repr : jstring) : bool :=
  negb (Number.isInteger repr) || Number.less repr 1.

Definition not_one (repr : jstring) : bool :=
  negb (Number.isInteger repr) || Number.less repr 1 || Number.greater repr 1.

(** [if (x !== undefined) { if (...) throw ...; validated.x = x }] for a
    check that rejects what is not a number ([typeof x !== 'number'], or
    [Number.isInteger] being false of it) and the numbers that are [bad]. *)
Definition checked (x : option json) (bad : jstring -> bool)
           (text where_ : string) : ValidationError + option jstring :=
  match x with
  | None => inr None
  | Some (JNum repr) =>
      if bad repr then fail (js text) (Some (js where_)) else inr (Some repr)
  | Some _ => fail (js text) (Some (js where_))
  end.

(** The [stop] parameter: a string becomes a list of one. *)
Definition checked_stop (x : option json) : ValidationError + option (list json) :=
  match x with
  | None => inr None
  | Some (JStr s) => inr (Some [JStr s])
  | Some (JArr items) =>
      if Nat.ltb 4 (List.length items) then
        fail (js "stop array cannot contain more than 4 elements")
             (Some (js "stop"))
      else inr (Some items)
  | Some _ =>
      fail (js "stop must be a string or array of strings") (Some (js "stop"))
  end.

(** [validateChatCompletionRequest(body)]. *)
Definition validateChatCompletionRequest (P : Platform) (body : json)
  : ValidationError + ChatCompletionRequest :=
  if negb (truthy body) || negb (is_object body) then
    fail (js "Request body must be an object") None
  else if negb (truthy_opt (prop body "model"))
          || negb (is_string (prop body "model")) then
    fail (js "Model is required and must be a string") (Some (js "model"))
  else
    match prop body "messages" with
    | Some (JArr []) =>
        fail (js "Messages array cannot be empty") (Some (js "messages"))
    | Some (JArr items) =>
        match validateMessages P 0 items with
        | inl e => inl e
        | inr validatedMessages =>
            match checked (prop body "temperature") (outside 0 2)
                    "Temperature must be a number between 0 and 2"
                    "temperature" with
            | inl e => inl e
            | inr temperature =>
            match checked (prop body "max_tokens") not_positive_integer
                    "max_tokens must be a positive integer" "max_tokens" with
            | inl e => inl e
            | inr max_tokens =>
            match checked (prop body "top_p") (outside 0 1)
                    "top_p must be a number between 0 and 1" "top_p" with
            | inl e => inl e
            | inr top_p =>
            match checked (prop body "n") not_one
                    "n must be 1 (multiple responses not supported)" "n" with
            | inl e => inl e
            | inr n =>
            match checked_stop (prop body "stop") with
            | inl e => inl e
            | inr stop =>
                inr {| model := string_of (prop body "model");
                       messages := validatedMessages;
                       stream := truthy_opt (prop body "stream");
                       enable_tools := truthy_opt (prop body "enable_tools");
                       tools := passed (prop body "tools");
                       functions := passed (prop body "functions");
                       temperature := temperature;
                       max_tokens := max_tokens;
                       top_p := top_p;
                       n := n;
                       stop := stop |}
            end end end end end
        end
    | _ =>
        fail (js "Messages is required and must be an array")
             (Some (js "messages"))
    end.

(** ** Responses *)

(** [createErrorResponse(message, type, code)]. *)
Definition createErrorResponse (text type : jstring) (code : option jstring)
  : json :=
  JObj [(js "error",
         JObj [(js "message", JStr text);
               (js "type", JStr type);
               (js "code", JStr (match code with
                                 | Some ((_ :: _) as c) => c
                                 | _ => type
                                 end))])].

(** Token counts, as [createUsageStats] returns them. *)
Record Usage := {
  prompt_tokens : nat;
  completion_tokens : nat;
  total_tokens : nat
}.

Definition count (k : nat) : json := JNum (decimal (Z.of_nat k)).

(** [createChatCompletionResponse(request, content, usage, toolCalls)];
    [hex] is what [crypto.randomBytes(16).toString('hex')] gives and
    [timestamp] is [Math.floor(Date.now() / 1000)].  A count that is
    missing from [usage] reads as 0, as one that is 0 does. *)
Definition createChatCompletionResponse (hex : jstring) (timestamp : Z)
           (request_model : jstring) (answer : json) (usage : Usage)
           (toolCalls : option json) : json :=
  JObj [(js "id", JStr (js "chatcmpl-" ++ hex));
        (js "object", JStr (js "chat.completion"));
        (js "created", JNum (decimal timestamp));
        (js "model", JStr request_model);
        (js "choices",
         JArr [JObj [(js "index", JNum (js "0"));
                     (js "message",
                      JObj ([(js "role", JStr (js "assistant"));
                             (js "content", answer)]
                            ++ match toolCalls with
                               | Some (JArr (call :: calls)) =>
                                   [(js "tool_calls", JArr (call :: calls))]
                               | _ => []
                               end));
                     (js "finish_reason",
                      JStr (if truthy_opt toolCalls then js "tool_calls"
                            else js "stop"))]]);
        (js "usage",
         JObj [(js "prompt_tokens", count (prompt_tokens usage));
               (js "completion_tokens", count (completion_tokens usage));
               (js "total_tokens",
                count (prompt_tokens usage + completion_tokens usage))])].

(** [createHealthResponse()]; [iso] is [new Date().toISOString()]. *)
Definition createHealthResponse (iso : jstring) : json :=
  JObj [(js "status", JStr (js "healthy"));
        (js "service", JStr (js "claude-openai-wrapper"));
        (js "timestamp", JStr iso)].

End Models.

(* ================================================================== *)
(** * MessageAdapter and ClaudeCLI: prompts, options, cleaning          *)
(* ================================================================== *)

Module Adapter.

Import Models.

(** [{systemPrompt, prompt}]; [systemPrompt] is [null] or a string. *)
Record Prompt := {
  systemPrompt : option jstring;
  prompt : jstring
}.

(** [messages[messages.length - 1]]. *)
Definition lastMessage (messages : list Message) : option Message :=
  nth_error messages (List.length messages - 1).

Definition not_user (m : option Message) : bool :=
  match m with
  | Some message => negb (jstring_eqb (role message) (js "user"))
  | None => false
  end.

(** From the two accumulated strings to the result, common to both
    prompt builders. *)
Definition closing (messages : list Message)
           (system conversation : jstring) : Prompt :=
  let conversation :=
    if not_user (lastMessage messages) then
      conversation ++ js "Human: Please continue." ++ [10%N; 10%N]
    else conversation in
  {| systemPrompt := match trim system with
                     | [] => None
                     | trimmed => Some trimmed
                     end;
     prompt := trim conversation |}.

(** The loop of [MessageAdapter.messagesToClaudePrompt]: a [switch] on
    the role, whose default case only logs. *)
Fixpoint collect (messages : list Message) (system conversation : jstring)
  : jstring * jstring :=
  match messages with
  | [] => (system, conversation)
  | message :: rest =>
      if jstring_eqb (role message) (js "system") then
        collect rest (system ++ content message ++ [10%N]) conversation
      else if jstring_eqb (role message) (js "user") then
        collect rest system
          (conversation ++ js "Human: " ++ content message ++ [10%N; 10%N])
      else if jstring_eqb (role message) (js "assistant") then
        collect rest system
          (conversation ++ js "Assistant: " ++ content message ++ [10%N; 10%N])
      else collect rest system conversation
  end.

(** [messagesToClaudePrompt(messages, hasTools, tools)] with [hasTools]
    false, as both handlers call it: the tool instructions are skipped. *)
Definition messagesToClaudePrompt (messages : list Message) : Prompt :=
  let (system, conversation) := collect messages [] [] in
  closing messages system conversation.

(** [ClaudeCLI.messagesToPrompt(messages)]: the same loop as a chain of
    [if]s without a last [else]. *)
Fixpoint gather (messages : list Message) (system conversation : jstring)
  : jstring * jstring :=
  match messages with
  | [] => (system, conversation)
  | message :: rest =>
      let (system, conversation) :=
        if jstring_eqb (role message) (js "system") then
          (system ++ content message ++ [10%N], conversation)
        else if jstring_eqb (role message) (js "user") then
          (system,
           conversation ++ js "Human: " ++ content message ++ [10%N; 10%N])
        else if jstring_eqb (role message) (js "assistant") then
          (system,
           conversation ++ js "Assistant: " ++ content message ++ [10%N; 10%N])
        else (system, conversation) in
      gather rest system conversation
  end.

Definition messagesToPrompt (messages : list Message) : Prompt :=
  let (system, conversation) := gather messages [] [] in
  closing messages system conversation.

(** ** Options for the Claude CLI *)

(** The options object, with every member that [buildClaudeArgs] reads
    or [openAIStreamToClaudeOptions] writes; numbers are carried by their
    text.  ([cwd] and [env], which go to [spawn], are left out.) *)
Record ClaudeOptions := {
  stream : bool;
  model : option jstring;
  maxTokens : option jstring;
  temperature : option jstring;
  topP : option jstring;
  stopSequences : option (list json);
  systemPrompt_ : option jstring;
  maxTurns : option jstring;
  allowedTools : option (list jstring);
  disallowedTools : option (list jstring);
  permissionMode : option jstring
}.

(** [mapModelName(modelName)]: the name is logged, never passed on. *)
Definition mapModelName (modelName : jstring) : option jstring := None.

(** [Math.max(0, Math.min(1, t))]. *)
Definition clamp (repr : jstring) : jstring :=
  if Number.greater repr 1 then js "1"
  else if Number.less repr 0 then js "0"
  else repr.

(** [request.tools.map(tool => tool.name)], for the log. *)
Fixpoint toolNames (items : list json) : result (list (option json)) :=
  match items with
  | [] => Ok []
  | tool :: rest =>
      name <- get tool "name" ;;
      names <- toolNames rest ;;
      Ok (name :: names)
  end.

(** [openAIStreamToClaudeOptions(request)]. *)
Definition openAIStreamToClaudeOptions (P : Platform)
           (request : ChatCompletionRequest) : result ClaudeOptions :=
  let options :=
    {| stream := Models.stream request;
       model := match mapModelName (Models.model request) with
                | Some ((_ :: _) as mapped) => Some mapped
                | _ => None
                end;
       maxTokens := match max_tokens request with
                    | Some repr =>
                        if truthy (JNum repr) then Some repr else None
                    | None => None
                    end;
       temperature := option_map clamp (Models.temperature request);
       topP := top_p request;
       stopSequences := stop request;
       systemPrompt_ := None;
       maxTurns := None;
       allowedTools := None;
       disallowedTools := None;
       permissionMode := None |} in
  named <- given P (tools request) ;;
  if named then
    match tools request with
    | Some (JArr items) => _ <- toolNames items ;; Ok options
    | _ => Throw (TypeError (NotAFunction (js "request.tools.map")))
    end
  else Ok options.

(** [claudeOptions.systemPrompt = systemPrompt; claudeOptions.stream = s]. *)
Definition prepared (options : ClaudeOptions) (system : option jstring)
           (streaming : bool) : ClaudeOptions :=
  {| stream := streaming;
     model := model options;
     maxTokens := maxTokens options;
     temperature := temperature options;
     topP := topP options;
     stopSequences := stopSequences options;
     systemPrompt_ := system;
     maxTurns := maxTurns options;
     allowedTools := allowedTools options;
     disallowedTools := disallowedTools options;
     permissionMode := permissionMode options |}.

(** ** Cleaning the output of a finished run *)

(** [s.replace(/^r/gm, repl)]: as [replace_go], with a match tried only
    where a line starts, at the head of the string and after a line
    terminator. *)
Fixpoint replace_lines (r : regex) (repl : jstring) (skip : nat)
         (line_start : bool) (s : jstring) : jstring :=
  match s with
  | [] =>
      match skip, line_start, rmatch r [] with
      | O, true, Some _ => repl
      | _, _, _ => []
      end
  | c :: s' =>
      let next := is_line_terminator c in
      match skip with
      | S k => replace_lines r repl k next s'
      | O =>
          if line_start then
            match rmatch r s with
            | Some (S n) => repl ++ replace_lines r repl n next s'
            | Some O => repl ++ c :: replace_lines r repl 0 next s'
            | None => c :: replace_lines r repl 0 next s'
            end
          else c :: replace_lines r repl 0 next s'
      end
  end.

(** [/\[Command: .*?\]/g] *)
Definition re_command : regex :=
  chars "[Command: " ++ [StarLazy Dot] ++ chars "]".

(** [/^Assistant:\s*/gm] and [/^Human:\s*/gm], without the anchor. *)
Definition re_assistant : regex := chars "Assistant:" ++ [Star Space].
Definition re_human : regex := chars "Human:" ++ [Star Space].

(** [filterAndCleanContent(content)] on a string; the guard returns the
    empty string for the empty string. *)
Definition filterAndCleanContent (text : jstring) : jstring :=
  match text with
  | [] => []
  | _ =>
      let filtered := replaceAll re_function_calls [] text in
      let filtered := replaceAll re_thinking [] filtered in
      let filtered := replaceAll re_tool_use [] filtered in
      let filtered := replaceAll re_file [] filtered in
      let filtered := replaceAll re_command [] filtered in
      let filtered := replace_lines re_assistant [] 0 true filtered in
      let filtered := replace_lines re_human [] 0 true filtered in
      let filtered := replaceAll re_blank_lines [10%N; 10%N] filtered in
      trim filtered
  end.

(** [parseClaudeOutput(output)] on a string, which is what
    [ClaudeProcess.execute] resolves its [output] with; the branches for
    other types are not reached. *)
Definition parseClaudeOutput (output : jstring) : jstring :=
  match output with
  | [] => []
  | _ => filterAndCleanContent output
  end.

(** The message [claudeResponseToOpenAI] returns: [{role: 'assistant',
    content}] with [tool_calls] when tool calls were recognised. *)
Record AssistantMessage := {
  answer : json;
  tool_calls : option json
}.

(** [claudeResponseToOpenAI(claudeOutput, requestModel, hasTools)]; the
    [try] covers [JSON.parse] and the reading of [parsed.tool_calls]. *)
Definition claudeResponseToOpenAI (P : Platform) (claudeOutput : jstring)
           (hasTools : bool) : AssistantMessage :=
  let cleanedContent := parseClaudeOutput claudeOutput in
  let plain := {| answer := JStr cleanedContent; tool_calls := None |} in
  if hasTools then
    match JSON_parse P cleanedContent with
    | Some parsed =>
        match get parsed "tool_calls" with
        | Ok (Some (JArr calls)) =>
            {| answer := match prop parsed "content" with
                         | Some w => if truthy w then w else JNull
                         | None => JNull
                         end;
               tool_calls := Some (JArr calls) |}
        | _ => plain
        end
    | None => plain
    end
  else plain.

(** [estimateTokens(text)]. *)
Definition estimateTokens (text : json) : nat :=
  match text with
  | JStr (c :: s) => Nat.max 1 ((List.length (c :: s) + 3) / 4)
  | _ => 0
  end.

(** [createUsageStats(prompt, completion)]. *)
Definition createUsageStats (prompt completion : json) : Usage :=
  {| prompt_tokens := estimateTokens prompt;
     completion_tokens := estimateTokens completion;
     total_tokens := estimateTokens prompt + estimateTokens completion |}.

End Adapter.

(* ================================================================== *)
(** * ClaudeProcess: the command line and the finished run              *)
(* ================================================================== *)

Module Process.

Import Adapter.

(** What the file system does for [createSystemPromptFile]: the name of
    the temporary file, and the error [writeFileSync] throws, if any. *)
Record TempFile := {
  tempFile : jstring;
  writeFileSync : option js_error
}.

(** [createSystemPromptFile(systemPrompt)]. *)
Definition createSystemPromptFile (P : Platform) (fs : TempFile)
  : result jstring :=
  match writeFileSync fs with
  | None => Ok (tempFile fs)
  | Some error =>
      Throw (Error (js "Failed to create system prompt file: "
                    ++ message_of P error))
  end.

Definition nonempty {A} (l : option (list A)) : bool :=
  match l with
  | Some (_ :: _) => true
  | _ => false
  end.

Definition text_if {A} (x : option A) (f : A -> list jstring) : list jstring :=
  match x with
  | Some a => f a
  | None => []
  end.

Definition truthy_string (x : option jstring) : option jstring :=
  match x with
  | Some (_ :: _) => x
  | _ => None
  end.

(** [buildClaudeArgs(prompt, options)]: the arguments, and the file it
    stored in [options.systemPromptFile], if it made one.  The prompt is
    not among the arguments; it goes to the standard input. *)
Definition buildClaudeArgs (P : Platform) (fs : TempFile)
           (options : ClaudeOptions)
  : result (list jstring * option jstring) :=
  systemPromptFile <-
    match truthy_string (systemPrompt_ options) with
    | Some _ => file <- createSystemPromptFile P fs ;; Ok (Some file)
    | None => Ok None
    end ;;
  Ok (text_if (truthy_string (model options))
        (fun m => [js "--model"; m])
      ++ text_if systemPromptFile
           (fun file => [js "--system-prompt-file"; file])
      ++ text_if (maxTurns options)
           (fun turns => if truthy (JNum turns)
                         then [js "--max-turns"; turns] else [])
      ++ [js "--print"]
      ++ (if stream options
          then [js "--output-format"; js "stream-json"; js "--verbose"]
          else [])
      ++ (if nonempty (allowedTools options)
          then text_if (allowedTools options)
                 (fun l => [js "--allowedTools"; join (js ",") l])
          else [])
      ++ (if nonempty (disallowedTools options)
          then text_if (disallowedTools options)
                 (fun l => [js "--disallowedTools"; join (js ",") l])
          else [])
      ++ text_if (truthy_string (permissionMode options))
           (fun mode => [js "--permission-mode"; mode]),
      systemPromptFile).

(** What the child is started with. *)
Record Invocation := {
  args : list jstring;
  stdin : option jstring
}.

(** [if (prompt) { stdin.write(prompt); stdin.end() }]. *)
Definition written (prompt : jstring) : option jstring :=
  match prompt with
  | [] => None
  | _ => Some prompt
  end.

(** [execute(prompt, options)], once the child runs: [out] is what its
    standard output delivers.  It resolves with the buffer when the
    child closes with code 0 and rejects otherwise. *)
Definition execute (out : list jstring) (ending : exit_status)
  : result jstring :=
  let buffer := List.concat out in
  match ending with
  | Exited 0 => Ok buffer
  | Exited code =>
      Throw (Error (js "Claude CLI exited with code " ++ decimal code
                    ++ js ". Output: " ++ buffer))
  | Signalled =>
      Throw (Error (js "Claude CLI exited with code null. Output: " ++ buffer))
  | ProcessError text =>
      Throw (Error (js "Failed to start Claude CLI: " ++ text))
  end.

End Process.

(* ================================================================== *)
(** * ChatHandler, from the request body on                             *)
(* ================================================================== *)

Module ChatHandler.

Import Models Adapter Process.

(** What the environment contributes to one request: the temporary
    file, the output of the child of a non-streaming request, how the
    child ends ([ProcessError] when it cannot be started, in either
    mode), what the loop of a streaming request meets once the child
    runs, and the random bytes and the clock that identify the
    response. *)
Record World := {
  files : TempFile;
  child_stdout : list jstring;
  child_exit : exit_status;
  loop_events : list event;
  randomBytes : jstring;
  seconds : Z;
  isoTime : jstring
}.

(** The part of a validated request that the tool gate reads. *)
Definition gate_view (request : ChatCompletionRequest) : Chat.request :=
  {| Chat.model := Models.model request;
     Chat.stream_flag := Models.stream request;
     Chat.tools := Models.tools request;
     Chat.functions := Models.functions request |}.

(** [sendError(res, statusCode, message, type)]. *)
Definition sendError (x : exchange) (statusCode : Z) (text type : jstring)
  : exchange :=
  sendJSON x statusCode (createErrorResponse text type None).

Definition launched (x : exchange) : exchange :=
  {| response := response x; spawns := S (spawns x) |}.

(** Whether the child can be started: it cannot when it emits [error]. *)
Definition starts (w : World) : bool :=
  match child_exit w with
  | ProcessError _ => false
  | _ => true
  end.

(** How [handleStreamingRequest] ends: it returns or throws, or the Node
    process ends under it on an exception that no one catches. *)
Inductive ending :=
| Returned (r : result unit)
| ServerDown.

(** The call [claudeCLI.completion(prompt, claudeOptions)]: the
    arguments are built, the child is spawned and the prompt written to
    it, and the promise settles when the child ends. *)
Definition completion (P : Platform) (w : World) (prompt : jstring)
           (options : ClaudeOptions) (x : exchange)
  : exchange * result (Invocation * jstring) :=
  match buildClaudeArgs P (files w) options with
  | Throw e => (x, Throw e)
  | Ok (arguments, _) =>
      let call := {| args := arguments; stdin := written prompt |} in
      (launched x,
       output <- execute (child_stdout w) (child_exit w) ;; Ok (call, output))
  end.

(** [handleNonStreamingRequest(request, req, res)]. *)
Definition handleNonStreamingRequest (P : Platform) (w : World)
           (request : ChatCompletionRequest) (x : exchange)
  : exchange * result unit :=
  match tools_requested P (gate_view request) with
  | Throw e => (x, Throw e)
  | Ok true =>
      (sendError x 400 (js not_supported) (js "invalid_request_error"), Ok tt)
  | Ok false =>
      let hasTools := false in
      let built := messagesToClaudePrompt (messages request) in
      match openAIStreamToClaudeOptions P request with
      | Throw e => (x, Throw e)
      | Ok claudeOptions =>
          let claudeOptions :=
            prepared claudeOptions (systemPrompt built) false in
          match completion P w (prompt built) claudeOptions x with
          | (x, Throw e) => (x, Throw e)
          | (x, Ok (_, output)) =>
              let assistantMessage :=
                claudeResponseToOpenAI P output hasTools in
              let usage :=
                createUsageStats (JStr (prompt built))
                  (if truthy (answer assistantMessage)
                   then answer assistantMessage else JStr []) in
              (sendJSON x 200
                 (createChatCompletionResponse (randomBytes w) (seconds w)
                    (Models.model request) (answer assistantMessage) usage
                    (tool_calls assistantMessage)),
               Ok tt)
          end
      end
  end.

(** [handleStreamingRequest(request, req, res)].  The generator that
    [streamingCompletion] returns runs when the loop of
    [processClaudeStream] first asks it for a chunk: it builds the
    arguments, which may throw, and then spawns the child.  When the
    child cannot be started, the [error] listener of [executeStreaming]
    throws where no one catches it: the Node process ends with the
    response as [createStream] left it, and neither [catch] nor
    [finally] runs. *)
Definition handleStreamingRequest (P : Platform) (w : World)
           (request : ChatCompletionRequest) (x : exchange)
  : exchange * ending :=
  match tools_requested P (gate_view request) with
  | Throw e => (x, Returned (Throw e))
  | Ok true =>
      (sendError x 400 (js not_supported) (js "invalid_request_error"),
       Returned (Ok tt))
  | Ok false =>
      let stream := createStream (response x) (Models.model request) in
      let built := messagesToClaudePrompt (messages request) in
      let '(x, stream, outcome) :=
        match openAIStreamToClaudeOptions P request with
        | Throw e => (x, stream, Some (Throw e))
        | Ok claudeOptions =>
            let claudeOptions :=
              prepared claudeOptions (systemPrompt built) true in
            match buildClaudeArgs P (files w) claudeOptions with
            | Throw e =>
                let (m, outcome) :=
                  processClaudeStream P true [SourceError e] stream in
                (x, Machine.stream m, Some outcome)
            | Ok _ =>
                if starts w then
                  let (m, outcome) :=
                    processClaudeStream P true (loop_events w) stream in
                  (launched x, Machine.stream m, Some outcome)
                else (launched x, stream, None)
            end
        end in
      match outcome with
      | None => ({| response := res stream; spawns := spawns x |}, ServerDown)
      | Some outcome =>
          let stream :=
            match outcome with
            | Throw error =>
                if isClosed stream then stream
                else snd (writeError P stream error)
            | Ok _ => stream
            end in
          let stream := if isClosed stream then stream else end_ stream in
          ({| response := res stream; spawns := spawns x |}, Returned (Ok tt))
      end
  end.

(** The [catch] block of [handle].  No error raised in this program
    carries a [statusCode] of its own. *)
Definition caught (x : exchange) (r : result unit) : exchange :=
  match r with
  | Ok _ => x
  | Throw _ =>
      sendError x 500 (js "Internal server error") (js "internal_error")
  end.

(** [handle(req, res)]; [body] is [req.body].  The result is the
    exchange as [handle] leaves it, or as it is when the Node process
    ends. *)
Definition handle (P : Platform) (w : World) (body : option json)
           (x : exchange) : exchange :=
  match match body with
        | Some b => validateChatCompletionRequest P b
        | None => fail (js "Request body must be an object") None
        end with
  | inl error => sendError x 422 (message error) (js "validation_error")
  | inr validatedRequest =>
      if Models.stream validatedRequest then
        match handleStreamingRequest P w validatedRequest x with
        | (x', Returned r) => caught x' r
        | (x', ServerDown) => x'
        end
      else
        let (x', r) := handleNonStreamingRequest P w validatedRequest x in
        caught x' r
  end.

End ChatHandler.

(* ================================================================== *)
(** * The server: routing a request                                     *)
(* ================================================================== *)

Module Server.

Import Models ChatHandler.

(** The three handlers that [setupRoutes] registers. *)
Inductive endpoint :=
| ChatCompletions
| ModelsList
| Health.

(** [pathToPattern(path)] for a path without parameter or pattern
    syntax, as the three registered paths are: the pattern is the path,
    anchored at both ends. *)
Definition pathToPattern (path : string) : regex := chars path.

(** [pathname.match(pattern)] for such a pattern. *)
Definition matched (pattern : regex) (pathname : jstring) : bool :=
  match rmatch pattern pathname with
  | Some n => Nat.eqb n (List.length pathname)
  | None => false
  end.

(** The tables of the router once [setupRoutes] has run, each in
    insertion order. *)
Definition routes : list (jstring * list (regex * endpoint)) :=
  [(js "GET", [(pathToPattern "/v1/models", ModelsList);
               (pathToPattern "/health", Health)]);
   (js "POST", [(pathToPattern "/v1/chat/completions", ChatCompletions)]);
   (js "PUT", []);
   (js "DELETE", []);
   (js "PATCH", [])].

Fixpoint table_of (method : jstring)
         (tables : list (jstring * list (regex * endpoint)))
  : option (list (regex * endpoint)) :=
  match tables with
  | [] => None
  | (m, table) :: rest =>
      if jstring_eqb method m then Some table else table_of method rest
  end.

Fixpoint first_match (table : list (regex * endpoint)) (pathname : jstring)
  : option endpoint :=
  match table with
  | [] => None
  | (pattern, handler) :: rest =>
      if matched pattern pathname then Some handler
      else first_match rest pathname
  end.

(** [route(req, res)], up to the call of the handler: [None] is
    [{handled: false}]. *)
Definition route (method pathname : jstring) : option endpoint :=
  match table_of method routes with
  | None => None
  | Some table => first_match table pathname
  end.

(** [parseRequestBody(req)] on the text received. *)
Definition parseRequestBody (P : Platform) (text : jstring) : result json :=
  match text with
  | [] => Ok (JObj [])
  | _ =>
      match JSON_parse P text with
      | Some parsed => Ok parsed
      | None => Throw (Error (js "Invalid JSON in request body"))
      end
  end.

(** The server's own [sendError(res, statusCode, message, type)]: the
    code is the status. *)
Definition sendError (x : exchange) (statusCode : Z) (text type : jstring)
  : exchange :=
  sendJSON x statusCode
    (JObj [(js "error",
            JObj [(js "message", JStr text);
                  (js "type", JStr type);
                  (js "code", JStr (decimal statusCode))])]).

(** [ModelsHandler.handle]: the one model that [discoverActualModels]
    returns. *)
Definition modelsResponse (seconds : Z) : json :=
  JObj [(js "object", JStr (js "list"));
        (js "data",
         JArr (map (fun id =>
                      JObj [(js "id", JStr id);
                            (js "object", JStr (js "model"));
                            (js "created", JNum (decimal seconds));
                            (js "owned_by", JStr (js "claude"))])
                   [js "any"]))].

(** [handleRequest(req, res)]: [method] is [req.method], one of the
    methods that Node's parser accepts, [pathname] what [url.parse] finds
    in [req.url], [text] the body received.  The CORS headers and the log
    calls are left out.  For [OPTIONS] the head is written without a
    content type, which is left empty here. *)
Definition handleRequest (P : Platform) (w : World)
           (method pathname text : jstring) (x : exchange) : exchange :=
  if jstring_eqb method (js "OPTIONS") then
    {| response := {| head := Some (200%Z, []); wire := wire (response x);
                      body := body (response x); ended := true;
                      faults := faults (response x) |};
       spawns := spawns x |}
  else
    match (if includes [js "POST"; js "PUT"; js "PATCH"] method
           then body <- parseRequestBody P text ;; Ok (Some body)
           else Ok None) with
    | Throw _ =>
        sendError x 500 (js "Internal Server Error") (js "internal_error")
    | Ok body =>
        match route method pathname with
        | Some ChatCompletions => handle P w body x
        | Some ModelsList => sendJSON x 200 (modelsResponse (seconds w))
        | Some Health => sendJSON x 200 (createHealthResponse (isoTime w))
        | None => sendError x 404 (js "Not Found") (js "not_found")
        end
    end.

End Server.

(* ================================================================== *)
(** * Config and Logger                                                 *)
(* ================================================================== *)

Module Config.

(** [s.split(sep)] for a separator of one code unit. *)
Fixpoint split (sep : N) (s : jstring) : list jstring :=
  match s with
  | [] => [[]]
  | c :: s' =>
      if N.eqb c sep then [] :: split sep s'
      else match split sep s' with
           | piece :: rest => (c :: piece) :: rest
           | [] => [[c]]
           end
  end.

(** [s.startsWith('#')]. *)
Definition is_comment (s : jstring) : bool :=
  match s with
  | c :: _ => N.eqb c 35
  | [] => false
  end.

(** What one line of the [.env] file assigns, if anything. *)
Definition assignment (line : jstring) : option (jstring * jstring) :=
  match trim line with
  | [] => None
  | trimmedLine =>
      if is_comment trimmedLine then None
      else
        match firstn 2 (split 61 trimmedLine) with
        | ((_ :: _) as key) :: value :: _ => Some (trim key, trim value)
        | _ => None
        end
  end.

(** The environment: the variables set, the latest assignment first. *)
Definition Env := list (jstring * jstring).

Fixpoint getenv (name : jstring) (env : Env) : option jstring :=
  match env with
  | [] => None
  | (k, v) :: rest => if jstring_eqb name k then Some v else getenv name rest
  end.

(** [loadEnv()]: [envContent] is the text of the [.env] file, if there
    is one. *)
Definition loadEnv (envContent : option jstring) (env : Env) : Env :=
  match envContent with
  | None => env
  | Some text =>
      fold_left (fun env line =>
                   match assignment line with
                   | Some binding => binding :: env
                   | None => env
                   end) (split 10 text) env
  end.

(** [parseInt(s, 10)]: leading white space, a sign, then the longest
    run of digits; [None] is [NaN].  [Some z] says that the digits
    denote the integer [z].  The engine returns the double nearest to
    [z], which is [z] itself up to 2^53 in magnitude and lies on the
    same side of 1 and of 65535 as [z] beyond that. *)
Definition parseInt (s : jstring) : option Z :=
  let s := trimStart s in
  let (negative, s) :=
    match s with
    | 45%N :: s' => (true, s')
    | 43%N :: s' => (false, s')
    | _ => (false, s)
    end in
  match Number.read_digits 0 s with
  | (_, O, _) => None
  | (v, S _, _) => Some (if negative then - Z.of_N v else Z.of_N v)%Z
  end.

(** The members of the configuration that depend on the environment. *)
Record Settings := {
  port : option Z;
  debugMode : bool;
  fileLogging : bool
}.

Definition is_true (x : option jstring) : bool :=
  match x with
  | Some s => jstring_eqb s (js "true")
  | None => false
  end.

(** [validateConfig()]: [Some p] says that it throws
    [Invalid port: ... Must be between 1 and 65535.] for a [PORT] that
    denotes the integer [p]; the message shows the double nearest to
    [p] as the engine prints it. *)
Definition validateConfig (c : Settings) : option Z :=
  match port c with
  | Some p => if ((p <? 1) || (65535 <? p))%Z then Some p else None
  | None => None
  end.

(** [loadConfig()]. *)
Definition loadConfig (env : Env) : Z + Settings :=
  let c :=
    {| port := parseInt (match getenv (js "PORT") env with
                         | Some ((_ :: _) as p) => p
                         | _ => js "8000"
                         end);
       debugMode := is_true (getenv (js "DEBUG") env);
       fileLogging := is_true (getenv (js "FILE_LOGGING") env) |} in
  match validateConfig c with
  | Some p => inl p
  | None => inr c
  end.

(** [new Config()]. *)
Definition create (envContent : option jstring) (env : Env) : Z + Settings :=
  loadConfig (loadEnv envContent env).

End Config.

Module Logger.

(** [sanitizeHeaders(headers)]: a copy in which a truthy
    [authorization] or [cookie] is replaced. *)
Definition redacted : json := JStr (js "[REDACTED]").

Definition sanitizeHeaders (headers : list (jstring * json))
  : list (jstring * json) :=
  map (fun h : jstring * json =>
         if (jstring_eqb (fst h) (js "authorization")
             || jstring_eqb (fst h) (js "cookie")) && truthy (snd h)
         then (fst h, redacted) else h) headers.

End Logger.

(* ================================================================== *)
(** * Vocabulary of the further properties                              *)
(* ================================================================== *)

Module Wording.

(** ** Validated requests *)

(** A validated message and a validated request as the objects they
    are, members in the order the source assigns them. *)
Definition message_object (m : Models.Message) : json :=
  JObj [member "role" (JStr (Models.role m));
        member "content" (JStr (Models.content m))].

Definition optional (k : string) (x : option json) : list (jstring * json) :=
  match x with
  | Some w => [member k w]
  | None => []
  end.

Definition numeric (k : string) (x : option jstring) : list (jstring * json) :=
  optional k (option_map JNum x).

Definition request_object (v : Models.ChatCompletionRequest) : json :=
  JObj ([member "model" (JStr (Models.model v));
         member "messages" (JArr (map message_object (Models.messages v)));
         member "stream" (JBool (Models.stream v));
         member "enable_tools" (JBool (Models.enable_tools v))]
        ++ optional "tools" (Models.tools v)
        ++ optional "functions" (Models.functions v)
        ++ numeric "temperature" (Models.temperature v)
        ++ numeric "max_tokens" (Models.max_tokens v)
        ++ numeric "top_p" (Models.top_p v)
        ++ numeric "n" (Models.n v)
        ++ optional "stop" (option_map JArr (Models.stop v))).

(** A number that is neither below [lo] nor above [hi]. *)
Definition within (lo hi : Z) (repr : jstring) : Prop :=
  Number.less repr lo = false /\ Number.greater repr hi = false.

(** An integer that is not below [lo]. *)
Definition integer_from (lo : Z) (repr : jstring) : Prop :=
  Number.isInteger repr = true /\ Number.less repr lo = false.

Definition whenever {A} (x : option A) (Q : A -> Prop) : Prop :=
  forall w, x = Some w -> Q w.

(** A message a model can be prompted with. *)
Definition sound_message (m : Models.Message) : Prop :=
  In (Models.role m) Models.validRoles /\ Models.content m <> [].

(** What every accepted request satisfies. *)
Definition sound (v : Models.ChatCompletionRequest) : Prop :=
  Models.model v <> []
  /\ Models.messages v <> []
  /\ Forall sound_message (Models.messages v)
  /\ whenever (Models.tools v) (fun w => truthy w = true)
  /\ whenever (Models.functions v) (fun w => truthy w = true)
  /\ whenever (Models.temperature v) (within 0 2)
  /\ whenever (Models.max_tokens v) (integer_from 1)
  /\ whenever (Models.top_p v) (within 0 1)
  /\ whenever (Models.n v) (fun repr => integer_from 1 repr /\ within 1 1 repr)
  /\ (forall items, Models.stop v = Some items -> List.length items <= 4).

(** A message that [validateMessage] accepts. *)
Definition acceptable (item : json) : Prop :=
  exists m, Models.validateMessage item = inr m.

(** ** Multimodal content *)

(** A part of a multimodal content: a text block, or an object of
    another type, an image for one. *)
Inductive part :=
| TextPart (text : jstring)
| OtherPart (fields : list (jstring * json)).

Definition part_object (p : part) : json :=
  match p with
  | TextPart text => JObj [member "type" (str "text"); member "text" (JStr text)]
  | OtherPart fields => JObj fields
  end.

Definition not_text (p : part) : Prop :=
  match p with
  | TextPart _ => True
  | OtherPart fields => is_str (assoc (js "type") fields) "text" = false
  end.

Fixpoint text_parts (parts : list part) : list jstring :=
  match parts with
  | [] => []
  | TextPart text :: rest => text :: text_parts rest
  | OtherPart _ :: rest => text_parts rest
  end.

(** ** Prompts *)

Definition is_system (m : Models.Message) : bool :=
  jstring_eqb (Models.role m) (js "system").

(** What a message adds to the conversation prompt, and to the system
    prompt. *)
Definition turn (m : Models.Message) : jstring :=
  if jstring_eqb (Models.role m) (js "user") then
    js "Human: " ++ Models.content m ++ [10%N; 10%N]
  else if jstring_eqb (Models.role m) (js "assistant") then
    js "Assistant: " ++ Models.content m ++ [10%N; 10%N]
  else [].

Definition system_line (m : Models.Message) : jstring :=
  Models.content m ++ [10%N].

Definition user (text : jstring) : Models.Message :=
  {| Models.role := js "user"; Models.content := text |}.

Definition assistant (text : jstring) : Models.Message :=
  {| Models.role := js "assistant"; Models.content := text |}.

(** ** Responses *)

(** The body of a plain chat completion: one choice, the assistant's
    text, [finish_reason] ['stop'], and the three token counts. *)
Definition chat_completion (id : jstring) (created : Z) (model text : jstring)
           (prompt_tokens completion_tokens : nat) : json :=
  JObj [member "id" (JStr id);
        member "object" (str "chat.completion");
        member "created" (JNum (decimal created));
        member "model" (JStr model);
        member "choices"
          (JArr [JObj [member "index" (JNum (js "0"));
                       member "message"
                         (JObj [member "role" (str "assistant");
                                member "content" (JStr text)]);
                       member "finish_reason" (str "stop")]]);
        member "usage"
          (JObj [member "prompt_tokens"
                   (JNum (decimal (Z.of_nat prompt_tokens)));
                 member "completion_tokens"
                   (JNum (decimal (Z.of_nat completion_tokens)));
                 member "total_tokens"
                   (JNum (decimal (Z.of_nat
                                     (prompt_tokens + completion_tokens))))])].

(** [ceil(length / 4)]. *)
Definition quarter (text : jstring) : nat := (List.length text + 3) / 4.

(** The error body of the chat handler. *)
Definition error_body (text type : string) : json :=
  JObj [member "error"
          (JObj [member "message" (str text);
                 member "type" (str type);
                 member "code" (str type)])].

(** A response that has been answered with [status] and a JSON body. *)
Definition answered (x : exchange) (status : Z) (data : json) : Prop :=
  head (response x) = Some (status, js "application/json")
  /\ body (response x) = Some data
  /\ ended (response x) = true.

(** The error body of the server itself: the code is the status. *)
Definition server_error_body (status : Z) (text type : string) : json :=
  JObj [member "error"
          (JObj [member "message" (str text);
                 member "type" (str type);
                 member "code" (JStr (decimal status))])].

(** ** The [.env] file *)

(** The text before the first [=] of [s], or all of it. *)
Fixpoint before_equals (s : jstring) : jstring :=
  match s with
  | [] => []
  | c :: s' => if N.eqb c 61 then [] else c :: before_equals s'
  end.

(** The value that the last line assigning [name] gives it. *)
Fixpoint assigned (name : jstring) (lines : list jstring) : option jstring :=
  match lines with
  | [] => None
  | line :: rest =>
      match assigned name rest with
      | Some value => Some value
      | None =>
          match Config.assignment line with
          | Some (k, value) => if jstring_eqb name k then Some value else None
          | None => None
          end
      end
  end.

(** The value of a run of decimal digits read after [acc]. *)
Fixpoint digits_value (d : Decimal.uint) (acc : N) : N :=
  match d with
  | Decimal.Nil => acc
  | Decimal.D0 l => digits_value l (10 * acc + 0)
  | Decimal.D1 l => digits_value l (10 * acc + 1)
  | Decimal.D2 l => digits_value l (10 * acc + 2)
  | Decimal.D3 l => digits_value l (10 * acc + 3)
  | Decimal.D4 l => digits_value l (10 * acc + 4)
  | Decimal.D5 l => digits_value l (10 * acc + 5)
  | Decimal.D6 l => digits_value l (10 * acc + 6)
  | Decimal.D7 l => digits_value l (10 * acc + 7)
  | Decimal.D8 l => digits_value l (10 * acc + 8)
  | Decimal.D9 l => digits_value l (10 * acc + 9)
  end.

(** ** One assistant message of one text block *)

(** [{"type":"assistant","message":{"content":[{"type":"text","text":s}]}}] *)
Definition text_message (s : jstring) : json :=
  JObj [member "type" (str "assistant");
        member "message"
          (JObj [member "content"
                   (JArr [JObj [member "type" (str "text");
                                member "text" (JStr s)]])])].

(** The error event of a failed stream. *)
Definition error_frame (P : Platform) (e : js_error) : frame :=
  FError (message_of P e) (js "streaming_error") (js "error").

End Wording.

(* ================================================================== *)
(** * Sample requests                                                   *)
(* ================================================================== *)

Module Samples.

Definition hi : json :=
  JObj [member "role" (str "user"); member "content" (str "Hi")].

(** [{"model":"any","messages":[{"role":"user","content":"Hi"}],
    "temperature":0.7,"stop":"END"}] and what validation makes of it. *)
Definition hello : json :=
  JObj [member "model" (str "any");
        member "messages" (JArr [hi]);
        member "temperature" (JNum (js "0.7"));
        member "stop" (str "END")].

Definition hello_request : Models.ChatCompletionRequest :=
  {| Models.model := js "any";
     Models.messages := [Wording.user (js "Hi")];
     Models.stream := false;
     Models.enable_tools := false;
     Models.tools := None;
     Models.functions := None;
     Models.temperature := Some (js "0.7");
     Models.max_tokens := None;
     Models.top_p := None;
     Models.n := None;
     Models.stop := Some [str "END"] |}.

(** The options [openAIStreamToClaudeOptions] derives from it. *)
Definition hello_options : Adapter.ClaudeOptions :=
  {| Adapter.stream := false;
     Adapter.model := None;
     Adapter.maxTokens := None;
     Adapter.temperature := Some (js "0.7");
     Adapter.topP := None;
     Adapter.stopSequences := Some [str "END"];
     Adapter.systemPrompt_ := None;
     Adapter.maxTurns := None;
     Adapter.allowedTools := None;
     Adapter.disallowedTools := None;
     Adapter.permissionMode := None |}.

(** A streaming request, validated. *)
Definition hello_stream_request : Models.ChatCompletionRequest :=
  {| Models.model := js "any";
     Models.messages := [Wording.user (js "Hi")];
     Models.stream := true;
     Models.enable_tools := false;
     Models.tools := None;
     Models.functions := None;
     Models.temperature := None;
     Models.max_tokens := None;
     Models.top_p := None;
     Models.n := None;
     Models.stop := None |}.

(** A request that brings one tool. *)
Definition hello_tools : json :=
  JObj [member "model" (str "any");
        member "messages" (JArr [hi]);
        member "tools" (JArr [JObj [member "type" (str "function")]])].

(** A request whose second message is [null]. *)
Definition second_is_null : list (jstring * json) :=
  [member "model" (str "any");
   member "messages" (JArr [hi; JNull]);
   member "temperature" (JNum (js "7"))].

(** A world in which the child prints [Assistant: Hello] and a marker,
    and exits with code 0; and one in which it exits with code 1 and the
    stream fails. *)
Definition fine : ChatHandler.World :=
  {| ChatHandler.files :=
       {| Process.tempFile := js "/tmp/claude-system-prompt.txt";
          Process.writeFileSync := None |};
     ChatHandler.child_stdout := [js "Assistant: Hello "; js "[File: a]there"];
     ChatHandler.child_exit := Exited 0;
     ChatHandler.loop_events := [Chunk greeting no_entropy];
     ChatHandler.randomBytes := js "00112233445566778899aabbccddeeff";
     ChatHandler.seconds := 1700000000;
     ChatHandler.isoTime := js "2023-11-14T22:13:20.000Z" |}.

Definition broken : js_error :=
  Error (js "Claude CLI streaming error: Process exited with code 1").

Definition failing : ChatHandler.World :=
  {| ChatHandler.files := ChatHandler.files fine;
     ChatHandler.child_stdout := [js "partial"];
     ChatHandler.child_exit := Exited 1;
     ChatHandler.loop_events := [SourceError broken];
     ChatHandler.randomBytes := ChatHandler.randomBytes fine;
     ChatHandler.seconds := ChatHandler.seconds fine;
     ChatHandler.isoTime := ChatHandler.isoTime fine |}.

(** A world in which the command [claude] is not installed. *)
Definition absent : ChatHandler.World :=
  {| ChatHandler.files := ChatHandler.files fine;
     ChatHandler.child_stdout := [];
     ChatHandler.child_exit := ProcessError (js "spawn claude ENOENT");
     ChatHandler.loop_events := [];
     ChatHandler.randomBytes := ChatHandler.randomBytes fine;
     ChatHandler.seconds := ChatHandler.seconds fine;
     ChatHandler.isoTime := ChatHandler.isoTime fine |}.

End Samples.

(* ================================================================== *)
(** * The content filter                                                *)
(* ================================================================== *)

Section Matcher.

Variables (r : regex) (repl : jstring).

Lemma rmatch_one_cons k r' c s' :
  rmatch (One k :: r') (c :: s')
  = if cmatch k c then option_map S (rmatch r' s') else None.
Proof. reflexivity. Qed.

Lemma rmatch_star_cons k r' c s' :
  rmatch (Star k :: r') (c :: s')
  = if cmatch k c then
      match rmatch (Star k :: r') s' with
      | Some n => Some (S n)
      | None => rmatch r' (c :: s')
      end
    else rmatch r' (c :: s').
Proof. reflexivity. Qed.

(** Where the pattern matches nowhere, the replacement changes
    nothing. *)
Lemma replace_no_match s :
  matches_in r s = false -> replaceAll r repl s = s.
Proof.
  unfold replaceAll.
  induction s as [|c s IH]; simpl.
  - destruct (rmatch r []); [discriminate | reflexivity].
  - destruct (rmatch r (c :: s)); [discriminate |].
    intros H. now rewrite IH.
Qed.

(** Passing over [n] code units is dropping them, for a pattern that
    does not match the empty string. *)
Lemma replace_skip :
  rmatch r [] = None ->
  forall n s, replace_go r repl n s = replace_go r repl 0 (skipn n s).
Proof.
  intros Hnil n. induction n as [|n IH]; intros s.
  - reflexivity.
  - destruct s as [|c s]; simpl.
    + now rewrite Hnil.
    + apply IH.
Qed.

Lemma matches_in_suffix w t :
  matches_in r (w ++ t) = false -> matches_in r t = false.
Proof.
  induction w as [|c w IH]; [trivial|].
  cbn [app matches_in].
  destruct (rmatch r (c :: w ++ t)); [discriminate | exact IH].
Qed.

End Matcher.

(** ** The blank-line pattern, by the line feeds of a whitespace run *)

Lemma space_not_lf c : is_space c = false -> N.eqb c 10 = false.
Proof.
  intros H. destruct (N.eqb c 10) eqn:E; [|reflexivity].
  apply N.eqb_eq in E. subst. discriminate.
Qed.

Lemma tailA_spec s :
  match rmatch tailA s with
  | Some n => 1 <= nls s /\ nls (skipn n s) = 0
  | None => nls s = 0
  end.
Proof.
  induction s as [|c s IH].
  - reflexivity.
  - unfold tailA in *. rewrite rmatch_star_cons.
    cbn [cmatch nls].
    destruct (is_space c) eqn:Hsp.
    + destruct (rmatch [Star Space; One (Lit 10)] s) as [n|].
      * cbn [skipn]. split; [lia | tauto].
      * rewrite rmatch_one_cons. cbn [cmatch rmatch option_map].
        destruct (N.eqb c 10); cbn [skipn].
        -- split; [lia | assumption].
        -- assumption.
    + rewrite rmatch_one_cons. cbn [cmatch].
      rewrite (space_not_lf _ Hsp). reflexivity.
Qed.

Lemma tailB_spec s :
  match rmatch tailB s with
  | Some n => 2 <= nls s /\ nls (skipn n s) = 0
  | None => nls s <= 1
  end.
Proof.
  induction s as [|c s IH].
  - cbn. lia.
  - unfold tailB in *. rewrite rmatch_star_cons.
    cbn [cmatch nls].
    destruct (is_space c) eqn:Hsp.
    + destruct (rmatch (Star Space :: One (Lit 10) :: tailA) s) as [n|].
      * cbn [skipn]. split; [lia | tauto].
      * rewrite rmatch_one_cons. cbn [cmatch].
        pose proof (tailA_spec s) as HA.
        destruct (N.eqb c 10).
        -- destruct (rmatch tailA s) as [n|]; cbn [option_map skipn].
           ++ split; [lia | tauto].
           ++ lia.
        -- lia.
    + rewrite rmatch_one_cons. cbn [cmatch].
      rewrite (space_not_lf _ Hsp). lia.
Qed.

(** The pattern matches at [c :: s] exactly when [c] is a line feed and
    the whitespace after it holds two more; the match then ends at the
    last line feed of the run. *)
Lemma blank_spec c s :
  match rmatch re_blank_lines (c :: s) with
  | Some n => c = 10%N /\ 2 <= nls s
              /\ exists k, n = S k /\ nls (skipn k s) = 0
  | None => c <> 10%N \/ nls s <= 1
  end.
Proof.
  change re_blank_lines with (One (Lit 10) :: tailB).
  rewrite rmatch_one_cons. cbn [cmatch].
  destruct (N.eqb c 10) eqn:E.
  - apply N.eqb_eq in E. pose proof (tailB_spec s) as HB.
    destruct (rmatch tailB s) as [n|]; cbn [option_map].
    + repeat split; try tauto. exists n. tauto.
    + now right.
  - apply N.eqb_neq in E. now left.
Qed.

Lemma blank_nil : rmatch re_blank_lines [] = None.
Proof. reflexivity. Qed.

(** After the collapse no whitespace run holds three line feeds: the
    pattern matches nowhere in the result. *)
Lemma collapse_settles len :
  forall s, List.length s <= len ->
    matches_in re_blank_lines (replaceAll re_blank_lines lf2 s) = false
    /\ nls (replaceAll re_blank_lines lf2 s) = Nat.min (nls s) 2.
Proof.
  unfold replaceAll.
  induction len as [|len IH]; intros s Hlen.
  - destruct s; [|simpl in Hlen; lia]. split; reflexivity.
  - destruct s as [|c s]; [split; reflexivity|].
    simpl in Hlen.
    cbn [replace_go].
    pose proof (blank_spec c s) as Hm.
    destruct (rmatch re_blank_lines (c :: s)) as [n|].
    + destruct Hm as (Hc & Hnl & k & -> & Hk).
      rewrite (replace_skip _ _ blank_nil).
      assert (Hle : List.length (skipn k s) <= len)
        by (rewrite length_skipn; lia).
      destruct (IH _ Hle) as [Hsafe Hn].
      rewrite Hk in Hn. change (Nat.min 0 2) with 0 in Hn.
      set (o := replace_go re_blank_lines lf2 0 (skipn k s)) in *.
      change (lf2 ++ o) with (10%N :: 10%N :: o).
      split.
      * cbn [matches_in].
        pose proof (blank_spec 10 (10%N :: o)) as H1.
        destruct (rmatch re_blank_lines (10%N :: 10%N :: o)).
        { destruct H1 as (_ & H1 & _). cbn [nls] in H1.
          change (is_space 10) with true in H1.
          change (N.eqb 10 10) with true in H1. cbv iota in H1. lia. }
        pose proof (blank_spec 10 o) as H2.
        destruct (rmatch re_blank_lines (10%N :: o)).
        { destruct H2 as (_ & H2 & _). lia. }
        exact Hsafe.
      * subst c. cbn [nls].
        change (is_space 10) with true.
        change (N.eqb 10 10) with true. cbv iota. lia.
    + assert (Hle : List.length s <= len) by lia.
      destruct (IH _ Hle) as [Hsafe Hn].
      set (o := replace_go re_blank_lines lf2 0 s) in *.
      split.
      * cbn [matches_in].
        pose proof (blank_spec c o) as H1.
        destruct (rmatch re_blank_lines (c :: o)); [|exact Hsafe].
        destruct H1 as (Hc & H1 & _).
        destruct Hm as [Hm | Hm]; [contradiction|]. lia.
      * cbn [nls]. rewrite Hn.
        destruct (is_space c); [|reflexivity].
        destruct (N.eqb c 10) eqn:E.
        -- apply N.eqb_eq in E.
           destruct Hm as [Hm | Hm]; [contradiction|]. lia.
        -- lia.
Qed.

(** ** Trimming *)

Lemma trimStart_suffix s : exists w, s = w ++ trimStart s.
Proof.
  induction s as [|c s [w IH]].
  - now exists [].
  - cbn [trimStart]. destruct (is_space c).
    + exists (c :: w). cbn. now f_equal.
    + now exists [].
Qed.

Lemma trimEnd_prefix s : exists w, s = trimEnd s ++ w.
Proof.
  unfold trimEnd.
  destruct (trimStart_suffix (rev s)) as [w Hw].
  exists (rev w).
  rewrite <- rev_app_distr, <- Hw. symmetry. apply rev_involutive.
Qed.

Lemma nls_app_le u w : nls u <= nls (u ++ w).
Proof.
  induction u as [|c u IH]; cbn [app nls]; [lia|].
  destruct (is_space c); lia.
Qed.

Lemma blank_matches_in_prefix u w :
  matches_in re_blank_lines (u ++ w) = false ->
  matches_in re_blank_lines u = false.
Proof.
  induction u as [|c u IH]; [reflexivity|].
  cbn [app matches_in].
  pose proof (blank_spec c (u ++ w)) as H1.
  pose proof (blank_spec c u) as H2.
  pose proof (nls_app_le u w) as Hle.
  destruct (rmatch re_blank_lines (c :: u ++ w)); [discriminate|].
  destruct (rmatch re_blank_lines (c :: u)).
  - exfalso. destruct H2 as (Hc & H2 & _).
    destruct H1 as [H1 | H1]; [auto | lia].
  - exact IH.
Qed.

Lemma trimStart_clean s : starts_clean (trimStart s).
Proof.
  induction s as [|c s IH]; cbn [trimStart]; [exact I|].
  destruct (is_space c) eqn:E; [exact IH | exact E].
Qed.

Lemma trimStart_id s : starts_clean s -> trimStart s = s.
Proof.
  destruct s as [|c s]; cbn; [trivial|]. now intros ->.
Qed.

Lemma trimEnd_clean s : starts_clean s -> starts_clean (trimEnd s).
Proof.
  intros H. destruct (trimEnd_prefix s) as [w Hw].
  destruct (trimEnd s) as [|c t]; [exact I|].
  rewrite Hw in H. exact H.
Qed.

Lemma trim_idempotent s : trim (trim s) = trim s.
Proof.
  unfold trim.
  rewrite (trimStart_id (trimEnd (trimStart s)))
    by apply trimEnd_clean, trimStart_clean.
  unfold trimEnd at 1 2.
  rewrite rev_involutive.
  rewrite (trimStart_id (trimStart _)) by apply trimStart_clean.
  reflexivity.
Qed.

Lemma trim_keeps_settled s :
  matches_in re_blank_lines s = false ->
  matches_in re_blank_lines (trim s) = false.
Proof.
  intros H. unfold trim.
  destruct (trimStart_suffix s) as [w Hw].
  rewrite Hw in H. apply matches_in_suffix in H.
  destruct (trimEnd_prefix (trimStart s)) as [v Hv].
  rewrite Hv in H. now apply blank_matches_in_prefix in H.
Qed.

(** ** filterContent *)

(** What [filterContent] returns has no blank-line run left and no
    whitespace around it. *)
Lemma filterContent_settled x :
  matches_in re_blank_lines (filterContent x) = false
  /\ trim (filterContent x) = filterContent x.
Proof.
  destruct x as [|c x]; [split; reflexivity|].
  cbn [filterContent]. split.
  - apply trim_keeps_settled.
    eapply proj1, (collapse_settles _ _ (le_n _)).
  - apply trim_idempotent.
Qed.

Lemma filterContent_clean x :
  no_markers x ->
  matches_in re_blank_lines x = false ->
  trim x = x ->
  filterContent x = x.
Proof.
  intros (H1 & H2 & H3 & H4) Hb Ht.
  destruct x as [|c x]; [reflexivity|].
  cbn [filterContent].
  rewrite (replace_no_match _ _ _ H1), (replace_no_match _ _ _ H2),
    (replace_no_match _ _ _ H3), (replace_no_match _ _ _ H4),
    (replace_no_match _ _ _ Hb).
  exact Ht.
Qed.

(** C4, as amended: [filterContent] leaves alone every string that has
    none of the four markers, no blank-line run for the collapse and no
    whitespace around it; and filtering twice is filtering once for every
    string whose filtered text has none of the four markers. *)
Theorem filterContent_fixpoint :
  (forall x, no_markers x ->
             matches_in re_blank_lines x = false ->
             trim x = x ->
             filterContent x = x)
  /\ (forall x, no_markers (filterContent x) ->
                filterContent (filterContent x) = filterContent x).
Proof.
  split.
  - exact filterContent_clean.
  - intros x H. destruct (filterContent_settled x) as [Hb Ht].
    now apply filterContent_clean.
Qed.

Lemma filterContent_fixpoint_witness :
  filterContent (js "Hello, world") = js "Hello, world"
  /\ filterContent (filterContent (js " a [File: x] b   c "))
     = filterContent (js " a [File: x] b   c ").
Proof.
  split.
  - apply (proj1 filterContent_fixpoint); [repeat split | |]; reflexivity.
  - apply (proj2 filterContent_fixpoint). repeat split; reflexivity.
Defined.

(** C4 as stated fails twice: removing one marker can complete another,
    which only a second pass removes; and text without any marker is
    still trimmed. *)
Lemma filterContent_not_idempotent_nor_noop :
  filterContent (filterContent (js "[Tool [File: a]Use: b]"))
    <> filterContent (js "[Tool [File: a]Use: b]")
  /\ (no_markers (js " a") /\ filterContent (js " a") <> js " a").
Proof.
  split; [|split].
  - intros H. vm_compute in H. discriminate.
  - repeat split; reflexivity.
  - intros H. vm_compute in H. discriminate.
Qed.

(* ================================================================== *)
(** * The session                                                       *)
(* ================================================================== *)

Lemma write_closed st f : closed st = true -> write st f = (false, st).
Proof. intros H. unfold write. now rewrite H. Qed.

Lemma on_close_closed st : closed st = true -> on_close st = st.
Proof. destruct st as [t md c sd]. cbn. now intros ->. Qed.

Lemma emit_closed m d fr :
  closed (stream m) = true -> stream (emit m d fr) = stream m.
Proof. intros H. cbn. unfold writeChunk. now rewrite write_closed. Qed.

Lemma iteration_closed P cb chunk ids m :
  closed (stream m) = true ->
  stream (fst (iteration P cb chunk ids m)) = stream m.
Proof.
  intros H. unfold iteration.
  change (isClosed (stream (count_chunk m))) with (closed (stream m)).
  now rewrite H.
Qed.

Lemma loop_closed P cb events :
  forall m, closed (stream m) = true ->
            stream (fst (loop P cb events m)) = stream m.
Proof.
  induction events as [|ev events IH]; intros m H; cbn [loop]; [reflexivity|].
  destruct ev as [chunk ids | e |].
  - pose proof (iteration_closed P cb chunk ids m H) as H1.
    destruct (iteration P cb chunk ids m) as [m1 [ | | e]]; cbn [fst] in *;
      [|exact H1 | exact H1].
    rewrite IH; [exact H1 | now rewrite H1].
  - reflexivity.
  - rewrite IH; cbn [stream with_stream]; rewrite on_close_closed; auto.
Qed.

Lemma finish_closed cb m :
  closed (stream m) = true -> stream (fst (finish cb m)) = stream m.
Proof.
  intros H. unfold finish. destruct (chunkCount m); [reflexivity|].
  cbn [fst].
  set (m1 := if roleSent m && negb (contentSent m) then _ else _).
  assert (H1 : stream m1 = stream m).
  { subst m1. destruct (roleSent m && negb (contentSent m)).
    - destruct cb; cbn; unfold writeChunk; now rewrite write_closed.
    - destruct (negb (roleSent m)); [|reflexivity].
      cbn. unfold writeChunk. now rewrite write_closed. }
  destruct (roleSent m1); [|exact H1].
  rewrite emit_closed; [exact H1 | now rewrite H1].
Qed.

Lemma rescue_closed P m e :
  closed (stream m) = true -> fst (rescue P m e) = m.
Proof. unfold rescue, isClosed. now intros ->. Qed.

Lemma run_closed P cb events st :
  closed st = true ->
  stream (fst (processClaudeStream P cb events st)) = st.
Proof.
  intros H. unfold processClaudeStream.
  pose proof (loop_closed P cb events (start st) H) as Hl.
  destruct (loop P cb events (start st)) as [ml c]. cbn [fst stream start] in Hl.
  assert (Hc : closed (stream ml) = true) by now rewrite Hl.
  pose proof (finish_closed cb ml Hc) as Hf.
  destruct c as [ | | e].
  - destruct (finish cb ml) as [m' [t|e]]; cbn [fst] in *; [congruence|].
    rewrite rescue_closed; congruence.
  - destruct (finish cb ml) as [m' [t|e]]; cbn [fst] in *; [congruence|].
    rewrite rescue_closed; congruence.
  - rewrite rescue_closed; congruence.
Qed.

(** C9: on a closed session [write], [writeChunk] and [writeError]
    return [false] and leave the session and its transport as they are,
    [end()] does nothing, once or twice, a further [close] event changes
    nothing, and a whole run of [processClaudeStream] leaves the session
    as it found it: closed. *)
Theorem closed_session_is_inert P st :
  closed st = true ->
  (forall f, write st f = (false, st))
  /\ (forall d finishReason, writeChunk st d finishReason = (false, st))
  /\ (forall error, writeError P st error = (false, st))
  /\ end_ st = st
  /\ end_ (end_ st) = st
  /\ on_close st = st
  /\ (forall cb events,
         stream (fst (processClaudeStream P cb events st)) = st).
Proof.
  intros H.
  assert (He : end_ st = st) by (unfold end_; now rewrite H).
  repeat split.
  - intros f. now apply write_closed.
  - intros d fr. now apply write_closed.
  - intros e. now apply write_closed.
  - exact He.
  - now rewrite He.
  - now apply on_close_closed.
  - intros cb events. now apply run_closed.
Qed.

Lemma closed_session_is_inert_witness :
  closed (end_ (fresh [] (js "any"))) = true
  /\ write (end_ (fresh [] (js "any"))) FDone
     = (false, end_ (fresh [] (js "any")))
  /\ end_ (end_ (end_ (fresh [] (js "any")))) = end_ (fresh [] (js "any")).
Proof.
  split; [reflexivity|].
  destruct (closed_session_is_inert engine (end_ (fresh [] (js "any"))) eq_refl)
    as (Hw & _ & _ & _ & He & _).
  split; [apply Hw | exact He].
Defined.

(* ================================================================== *)
(** * The translation state machine                                     *)
(* ================================================================== *)

(** ** One round of the loop *)

Lemma iteration_cases P cb chunk ids m m' c :
  iteration P cb chunk ids m = (m', c) ->
  m' = count_chunk m
  \/ m' = ensure_role (count_chunk m)
  \/ (exists s, m' = content_move cb (filterContent s)
                          (ensure_role (count_chunk m)) /\ c = Next)
  \/ (exists tc, m' = tool_move tc (ensure_role (count_chunk m)) /\ c = Next).
Proof.
  unfold iteration.
  destruct (isClosed (stream (count_chunk m))).
  { intros [= <- <-]. now left. }
  destruct (parseClaudeChunk P ids chunk) as [d|content|tc| |d|e];
    try (intros [= <- <-]; now left).
  - destruct (truthy content); [|intros [= <- <-]; right; now left].
    destruct content as [|b|r|s|l|f];
      try (intros [= <- <-]; right; now left).
    destruct (trim s); [intros [= <- <-]; right; now left|].
    destruct (filterContent s) eqn:Ef; [intros [= <- <-]; right; now left|].
    intros [= <- <-]. right; right; left. exists s. rewrite Ef.
    split; reflexivity.
  - destruct (truthy tc); intros [= <- <-].
    + right; right; right. eexists. split; reflexivity.
    + right; now left.
Qed.

Lemma synced_emit w0 model st h d fr :
  synced w0 model st h ->
  synced w0 model (snd (writeChunk st d fr)) (h ++ [(d, fr)]).
Proof.
  intros [Hm (k & Hk & Hw & Hc)].
  unfold writeChunk, write.
  destruct (closed st) eqn:Ec.
  - split; [exact Hm|]. exists k. cbn [snd].
    rewrite length_app, firstn_app.
    replace (k - List.length h) with 0 by lia.
    cbn [firstn]. rewrite app_nil_r. cbn [List.length].
    repeat split; [lia | exact Hw | congruence].
  - specialize (Hc eq_refl). subst k.
    rewrite firstn_all in Hw.
    unfold res_write.
    destruct (faults (res st)) as [|[|] rest]; cbn [snd res request_model closed wire fst].
    + split; [exact Hm|]. exists (List.length (h ++ [(d, fr)])).
      rewrite firstn_all, map_app, Hw, <- app_assoc, Hm. cbn.
      repeat split; lia.
    + split; [exact Hm|]. exists (List.length h).
      rewrite length_app, firstn_app, firstn_all, Nat.sub_diag.
      cbn [firstn]. rewrite app_nil_r.
      repeat split; [lia | exact Hw | discriminate].
    + split; [exact Hm|]. exists (List.length (h ++ [(d, fr)])).
      rewrite firstn_all, map_app, Hw, <- app_assoc, Hm. cbn.
      repeat split; lia.
Qed.

Lemma synced_close w0 model st h :
  synced w0 model st h -> synced w0 model (on_close st) h.
Proof.
  intros [Hm (k & Hk & Hw & Hc)]. split; [exact Hm|].
  exists k. cbn. repeat split; [exact Hk | exact Hw | discriminate].
Qed.

Lemma Inv_start st :
  Inv (wire (res st)) (request_model st) (start st).
Proof.
  split.
  - cbn. auto.
  - split; [reflexivity|]. exists 0. cbn. rewrite app_nil_r. auto.
Qed.

Lemma Inv_count w0 model m : Inv w0 model m -> Inv w0 model (count_chunk m).
Proof.
  intros [Hs Hy]. split; [|exact Hy].
  unfold shaped in *. cbn [issued count_chunk roleSent contentSent assistantContent chunkCount].
  destruct (issued m); [exact Hs|].
  destruct Hs as (H1 & H2 & H3 & H4). repeat split; try tauto. lia.
Qed.

Lemma Inv_ensure_role w0 model m :
  chunkCount m <> 0 ->
  Inv w0 model m ->
  Inv w0 model (ensure_role m) /\ roleSent (ensure_role m) = true.
Proof.
  intros Hc [Hs Hy]. unfold ensure_role.
  destruct (roleSent m) eqn:Er; [split; [split|]; assumption|].
  split; [|reflexivity]. split.
  - unfold shaped in *. cbn.
    destruct (issued m); [|destruct Hs as (_ & Hs & _); congruence].
    cbn. destruct Hs as (_ & H2 & H3). repeat split; auto.
  - cbn. now apply synced_emit.
Qed.

Lemma contents_app a b : contents (a ++ b) = contents a ++ contents b.
Proof.
  induction a as [|[d fr] a IH]; [reflexivity|].
  cbn. destruct d; cbn; rewrite IH; try reflexivity. now rewrite app_assoc.
Qed.

Lemma Inv_content w0 model cb text m :
  roleSent m = true ->
  Inv w0 model m -> Inv w0 model (content_move cb text m).
Proof.
  intros Hr [Hs Hy]. split.
  - unfold shaped in *. cbn.
    destruct (issued m) as [|c body]; [destruct Hs; congruence|].
    cbn. destruct Hs as (H1 & H2 & H3 & H4 & H5 & H6).
    split; [exact H1|]. split; [exact H2|]. split; [exact H3|].
    split; [|split].
    + apply Forall_app. split; [exact H4|].
      constructor; [|constructor]. split; [now left | reflexivity].
    + split; [discriminate | intros E; now destruct body].
    + rewrite contents_app, H6. cbn. now rewrite app_nil_r.
  - destruct cb; cbn; now apply synced_emit.
Qed.

Lemma Inv_tool w0 model tc m :
  roleSent m = true ->
  Inv w0 model m -> Inv w0 model (tool_move tc m).
Proof.
  intros Hr [Hs Hy]. split.
  - unfold shaped in *. cbn.
    destruct (issued m) as [|c body]; [destruct Hs; congruence|].
    cbn. destruct Hs as (H1 & H2 & H3 & H4 & H5 & H6).
    split; [exact H1|]. split; [exact H2|]. split; [exact H3|].
    split; [|split].
    + apply Forall_app. split; [exact H4|].
      constructor; [|constructor]. split; [now right | reflexivity].
    + split; [discriminate | intros E; now destruct body].
    + rewrite contents_app, H6. cbn. now rewrite app_nil_r.
  - cbn. now apply synced_emit.
Qed.

Lemma Inv_iteration w0 model P cb chunk ids m m' c :
  Inv w0 model m ->
  iteration P cb chunk ids m = (m', c) ->
  Inv w0 model m'.
Proof.
  intros HI H.
  assert (Hc : chunkCount (count_chunk m) <> 0) by (cbn; lia).
  apply Inv_count in HI.
  destruct (Inv_ensure_role _ _ _ Hc HI) as [HI' Hr].
  destruct (iteration_cases _ _ _ _ _ _ _ H) as [-> | [-> | [(t & -> & _) | (t & -> & _)]]].
  - exact HI.
  - exact HI'.
  - now apply Inv_content.
  - now apply Inv_tool.
Qed.

Lemma Inv_loop w0 model P cb events :
  forall m m' c,
    Inv w0 model m ->
    loop P cb events m = (m', c) ->
    Inv w0 model m'.
Proof.
  induction events as [|ev events IH]; intros m m' c HI; cbn [loop].
  - now intros [= <- <-].
  - destruct ev as [chunk ids | e | ].
    + destruct (iteration P cb chunk ids m) as [m1 c1] eqn:Hit.
      assert (HI1 : Inv w0 model m1) by (eapply Inv_iteration; eassumption).
      destruct c1.
      * now apply IH.
      * now intros [= <- <-].
      * now intros [= <- <-].
    + now intros [= <- <-].
    + apply IH. destruct HI as [Hs Hy]. split; [exact Hs|].
      cbn. now apply synced_close.
Qed.

(** ** The accumulated text only grows *)

Lemma ensure_role_text m : assistantContent (ensure_role m) = assistantContent m.
Proof. unfold ensure_role. now destruct (roleSent m). Qed.

Lemma iteration_grows P cb chunk ids m m' c :
  iteration P cb chunk ids m = (m', c) ->
  exists suffix, assistantContent m' = assistantContent m ++ suffix.
Proof.
  intros H.
  destruct (iteration_cases _ _ _ _ _ _ _ H) as [-> | [-> | [(t & -> & _) | (t & -> & _)]]].
  - exists []. cbn. now rewrite app_nil_r.
  - exists []. rewrite ensure_role_text. cbn. now rewrite app_nil_r.
  - exists (filterContent t). destruct cb; cbn; now rewrite ensure_role_text.
  - exists []. cbn. rewrite ensure_role_text. cbn. now rewrite app_nil_r.
Qed.

Lemma loop_grows P cb events :
  forall m m' c,
    loop P cb events m = (m', c) ->
    exists suffix, assistantContent m' = assistantContent m ++ suffix.
Proof.
  induction events as [|ev events IH]; intros m m' c; cbn [loop].
  - intros [= <- <-]. exists []. now rewrite app_nil_r.
  - destruct ev as [chunk ids | e | ].
    + destruct (iteration P cb chunk ids m) as [m1 c1] eqn:Hit.
      destruct (iteration_grows _ _ _ _ _ _ _ Hit) as [s1 H1].
      destruct c1.
      * intros H. destruct (IH _ _ _ H) as [s2 H2].
        exists (s1 ++ s2). now rewrite H2, H1, app_assoc.
      * intros [= <- <-]. now exists s1.
      * intros [= <- <-]. now exists s1.
    + intros [= <- <-]. exists []. now rewrite app_nil_r.
    + intros H. destruct (IH _ _ _ H) as [s2 H2]. now exists s2.
Qed.

Lemma loop_app P cb e1 e2 :
  forall m m1,
    loop P cb e1 m = (m1, Next) ->
    loop P cb (e1 ++ e2) m = loop P cb e2 m1.
Proof.
  induction e1 as [|ev e1 IH]; intros m m1; cbn [loop app].
  - now intros [= <-].
  - destruct ev as [chunk ids | e | ].
    + destruct (iteration P cb chunk ids m) as [m' c'].
      destruct c'; [apply IH | discriminate | discriminate].
    + discriminate.
    + apply IH.
Qed.

(** ** After the loop *)

Lemma synced_emit2 w0 model st d1 f1 d2 f2 h :
  synced w0 model st h ->
  synced w0 model
    (snd (writeChunk (snd (writeChunk st d1 f1)) d2 f2))
    (h ++ [(d1, f1); (d2, f2)]).
Proof.
  intros H.
  change (h ++ [(d1, f1); (d2, f2)]) with (h ++ [(d1, f1)] ++ [(d2, f2)]).
  rewrite app_assoc. now apply synced_emit, synced_emit.
Qed.

Lemma payload_content text : payload (DContent text, None).
Proof. split; [now left | reflexivity]. Qed.

Lemma finish_spec w0 model cb m m' r :
  Inv w0 model m ->
  finish cb m = (m', r) ->
  (chunkCount m = 0 /\ m' = m /\ r = Throw (Error no_response))
  \/ (chunkCount m <> 0 /\ r = Ok (assistantContent m')
      /\ synced w0 model (stream m') (issued m')
      /\ exists body,
          issued m' = (role_delta, None) :: body ++ [(DEmpty, stop)]
          /\ Forall payload body
          /\ assistantContent m' = contents body
          /\ (exists suffix, assistantContent m' = assistantContent m ++ suffix)
          /\ match issued m with
             | [] => body = []
             | [_] => body = [(DContent fallbackMessage, None)]
             | _ :: b => body = b
             end).
Proof.
  intros [Hs Hy] H. unfold finish in H.
  destruct (chunkCount m) as [|n] eqn:Hn.
  { injection H as <- <-. left. auto. }
  right. split; [discriminate|].
  unfold shaped in Hs.
  destruct (issued m) as [|c body] eqn:Hi.
  - destruct Hs as (Hr & Hc & Ha). rewrite Hr, Hc in H. cbn in H.
    injection H as <- <-. cbn. rewrite Hi.
    split; [reflexivity|]. split.
    + apply (synced_emit2 _ _ _ role_delta None DEmpty stop _ Hy).
    + exists []. cbn. repeat split; auto.
      exists []. now rewrite Ha.
  - destruct Hs as (-> & Hr & _ & HF & Hcs & Ha).
    rewrite Hr in H. cbn [andb negb] in H.
    destruct (contentSent m) eqn:Hc.
    + cbn in H. rewrite Hr in H. injection H as <- <-. cbn. rewrite Hi.
      split; [reflexivity|]. split.
      * apply (synced_emit _ _ _ _ DEmpty stop Hy).
      * exists body. repeat split; auto.
        -- exists []. now rewrite app_nil_r.
        -- destruct body; [|reflexivity]. destruct Hcs as [_ Hcs].
           now specialize (Hcs eq_refl).
    + assert (body = []) as -> by now apply Hcs.
      cbn in Ha. cbn in H. rewrite Hr in H.
      assert (Hy2 := synced_emit2 _ _ _ (DContent fallbackMessage) None DEmpty stop _ Hy).
      assert (HF1 : Forall payload [(DContent fallbackMessage, @None jstring)])
        by (constructor; [apply payload_content | constructor]).
      destruct cb; injection H as <- <-; cbn; rewrite Hi.
      * split; [reflexivity|]. split; [exact Hy2|].
        exists [(DContent fallbackMessage, None)].
        split; [reflexivity|]. split; [exact HF1|].
        split; [reflexivity|].
        split; [exists fallbackMessage; now rewrite Ha | reflexivity].
      * split; [reflexivity|]. split; [exact Hy2|].
        exists [(DContent fallbackMessage, None)].
        split; [reflexivity|]. split; [exact HF1|].
        split; [reflexivity|].
        split; [exists fallbackMessage; now rewrite Ha | reflexivity].
Qed.

(** ** Histories *)

Lemma payload_not_role call : payload call -> is_role call = false.
Proof.
  destruct call as [d fr]. intros [[H | H] _]; destruct d; cbn in *; congruence.
Qed.

Lemma payload_not_terminal call : payload call -> is_terminal call = false.
Proof. destruct call as [d fr]. intros [_ H]. cbn in *. now subst. Qed.

Lemma shaped_wf m : shaped m -> wf_history (issued m).
Proof.
  unfold shaped, wf_history. destruct (issued m) as [|c body]; [trivial|].
  intros (H1 & _ & _ & HF & _). split; [exact H1|].
  eapply Forall_impl; [|exact HF]. apply payload_not_role.
Qed.

Lemma Forall_take {A} (Q : A -> Prop) k l : Forall Q l -> Forall Q (firstn k l).
Proof.
  intros H. rewrite <- (firstn_skipn k l) in H.
  now apply Forall_app in H.
Qed.

Lemma wf_firstn k h : wf_history h -> wf_history (firstn k h).
Proof.
  destruct h as [|c rest]; [now rewrite firstn_nil|].
  destruct k as [|k]; [intros _; exact I|].
  cbn [firstn wf_history]. intros [H1 H2].
  split; [exact H1 | now apply Forall_take].
Qed.

Lemma wf_role_first h : wf_history h -> role_first h.
Proof.
  intros Hw before call after E Hp.
  destruct before as [|b before].
  - cbn in E. subst h. destruct Hw as [-> _].
    destruct Hp as [Hp | Hp]; discriminate.
  - cbn in E. subst h. destruct Hw as [-> _]. now left.
Qed.

Lemma filter_none {A} (f : A -> bool) l :
  Forall (fun x => f x = false) l -> filter f l = [].
Proof.
  induction 1 as [|x l Hx _ IH]; [reflexivity|]. cbn. now rewrite Hx.
Qed.

Lemma wf_one_role h : wf_history h -> List.length (filter is_role h) <= 1.
Proof.
  destruct h as [|c rest]; [cbn; lia|].
  intros [-> HF]. cbn. now rewrite (filter_none _ _ HF).
Qed.

Lemma deltas_of_frames model h : deltas_of (map (frame_of model) h) = h.
Proof.
  induction h as [|[d fr] h IH]; [reflexivity|]. cbn. now rewrite IH.
Qed.

Lemma deltas_of_app a b : deltas_of (a ++ b) = deltas_of a ++ deltas_of b.
Proof.
  induction a as [|f a IH]; [reflexivity|].
  destruct f; cbn; now rewrite IH.
Qed.

(** ** The catch block *)

Lemma rescue_spec w0 model P m e m' r :
  synced w0 model (stream m) (issued m) ->
  rescue P m e = (m', r) ->
  r = Throw e /\ issued m' = issued m
  /\ assistantContent m' = assistantContent m
  /\ exists k, k <= List.length (issued m)
               /\ deltas_of (wire (res (stream m')))
                  = deltas_of w0 ++ firstn k (issued m).
Proof.
  intros (Hm & k & Hk & Hw & _). unfold rescue. intros [= <- <-].
  split; [reflexivity|].
  destruct (isClosed (stream m)) eqn:Ec.
  - repeat split. exists k. split; [exact Hk|].
    now rewrite Hw, deltas_of_app, deltas_of_frames.
  - cbn. repeat split. exists k. split; [exact Hk|].
    unfold writeError, write. unfold isClosed in Ec. rewrite Ec.
    unfold res_write.
    destruct (faults (res (stream m))) as [|[|] rest]; cbn;
      rewrite Hw, ?deltas_of_app, ?deltas_of_frames; cbn;
      now rewrite ?app_nil_r.
Qed.

(** ** Every run *)

Lemma Inv_fresh faults model : Inv [] model (start (fresh faults model)).
Proof. exact (Inv_start (fresh faults model)). Qed.

Lemma run_history P cb events faults model m r :
  processClaudeStream P cb events (fresh faults model) = (m, r) ->
  wf_history (issued m)
  /\ exists k, k <= List.length (issued m)
               /\ deltas_of (wire (res (stream m))) = firstn k (issued m)
               /\ (closed (stream m) = false ->
                   forall text, r = Ok text -> k = List.length (issued m)).
Proof.
  unfold processClaudeStream.
  destruct (loop P cb events (start (fresh faults model))) as [ml c] eqn:Hl.
  assert (HI : Inv [] model ml) by (eapply Inv_loop; [apply Inv_fresh | exact Hl]).
  assert (Hres : forall e, rescue P ml e = (m, r) ->
            wf_history (issued m)
            /\ exists k, k <= List.length (issued m)
               /\ deltas_of (wire (res (stream m))) = firstn k (issued m)
               /\ (closed (stream m) = false ->
                   forall text, r = Ok text -> k = List.length (issued m))).
  { intros e He. destruct HI as [Hs Hy].
    destruct (rescue_spec _ _ _ _ _ _ _ Hy He) as (-> & Hi & _ & k & Hk & Hw).
    rewrite Hi. split; [now apply shaped_wf|].
    exists k. repeat split; auto. discriminate. }
  assert (Hfin : (let (m', r0) := finish cb ml in
                  match r0 with Throw e => rescue P m' e | Ok _ => (m', r0) end)
                 = (m, r) ->
            wf_history (issued m)
            /\ exists k, k <= List.length (issued m)
               /\ deltas_of (wire (res (stream m))) = firstn k (issued m)
               /\ (closed (stream m) = false ->
                   forall text, r = Ok text -> k = List.length (issued m))).
  { destruct (finish cb ml) as [m' r0] eqn:Hf.
    destruct (finish_spec _ _ _ _ _ _ HI Hf) as [(_ & -> & ->) | (_ & -> & Hy & body & Hi & HF & _)].
    - apply Hres.
    - intros [= <- <-]. split.
      + rewrite Hi. split; [reflexivity|].
        apply Forall_app. split.
        * eapply Forall_impl; [|exact HF]. apply payload_not_role.
        * now repeat constructor.
      + destruct Hy as (_ & k & Hk & Hw & Hc).
        exists k. split; [exact Hk|]. split.
        * rewrite Hw. cbn. apply deltas_of_frames.
        * intros Ho _ _. now apply Hc. }
  destruct c; [| | apply Hres].
  - destruct (finish cb ml) as [m' [t|e]]; exact Hfin.
  - destruct (finish cb ml) as [m' [t|e]]; exact Hfin.
Qed.

(** C1: on the wire of a session and among the [writeChunk] calls of a
    run alike, whatever the subprocess, the client and the transport do,
    the role announcement [{role: 'assistant', content: ''}] comes before
    every content or tool-call delta, and there is at most one. *)
Theorem role_announcement_first P cb events faults model :
  let m := fst (processClaudeStream P cb events (fresh faults model)) in
  (role_first (issued m) /\ List.length (filter is_role (issued m)) <= 1)
  /\ (role_first (deltas_of (wire (res (stream m))))
      /\ List.length (filter is_role (deltas_of (wire (res (stream m))))) <= 1).
Proof.
  destruct (processClaudeStream P cb events (fresh faults model)) as [m r] eqn:E.
  cbn [fst].
  destruct (run_history _ _ _ _ _ _ _ E) as (Hw & k & _ & Hd & _).
  split.
  - split; [now apply wf_role_first | now apply wf_one_role].
  - rewrite Hd. pose proof (wf_firstn k _ Hw).
    split; [now apply wf_role_first | now apply wf_one_role].
Qed.

(** ** An undisturbed session *)

Lemma quiet_write st f : quiet st -> quiet (snd (write st f)).
Proof.
  intros [Hc Hf]. unfold write, res_write. rewrite Hc, Hf. now split.
Qed.

Lemma quiet_emit m d fr : quiet (stream m) -> quiet (stream (emit m d fr)).
Proof. intros H. cbn. unfold writeChunk. now apply quiet_write. Qed.

Lemma quiet_ensure_role m :
  quiet (stream m) -> quiet (stream (ensure_role m)).
Proof.
  unfold ensure_role. destruct (roleSent m); [trivial|].
  intros H. exact (quiet_emit m role_delta None H).
Qed.

Lemma quiet_iteration P cb chunk ids m :
  quiet (stream m) -> quiet (stream (fst (iteration P cb chunk ids m))).
Proof.
  intros H.
  destruct (iteration P cb chunk ids m) as [m' c] eqn:E. cbn [fst].
  assert (H1 : quiet (stream (ensure_role (count_chunk m))))
    by now apply quiet_ensure_role.
  destruct (iteration_cases _ _ _ _ _ _ _ E)
    as [-> | [-> | [(t & -> & _) | (t & -> & _)]]].
  - exact H.
  - exact H1.
  - destruct cb; exact (quiet_emit _ (DContent (filterContent t)) None H1).
  - exact (quiet_emit _ (DToolCalls t) None H1).
Qed.

Lemma quiet_loop P cb events :
  ~ In ClientGone events ->
  forall m, quiet (stream m) -> quiet (stream (fst (loop P cb events m))).
Proof.
  induction events as [|ev events IH]; intros Hn m H; cbn [loop]; [exact H|].
  assert (Hn' : ~ In ClientGone events) by (intros Hin; apply Hn; now right).
  destruct ev as [chunk ids | e |].
  - pose proof (quiet_iteration P cb chunk ids m H) as H1.
    destruct (iteration P cb chunk ids m) as [m1 [ | | e]]; cbn [fst] in *;
      [now apply IH | exact H1 | exact H1].
  - exact H.
  - exfalso. apply Hn. now left.
Qed.

Lemma quiet_finish cb m :
  quiet (stream m) -> quiet (stream (fst (finish cb m))).
Proof.
  intros H. unfold finish. destruct (chunkCount m); [exact H|].
  cbn [fst].
  set (m1 := if roleSent m && negb (contentSent m) then _ else _).
  assert (H1 : quiet (stream m1)).
  { subst m1. destruct (roleSent m && negb (contentSent m)).
    - destruct cb; exact (quiet_emit m (DContent fallbackMessage) None H).
    - destruct (negb (roleSent m)); [|exact H].
      exact (quiet_emit m role_delta None H). }
  destruct (roleSent m1); [|exact H1].
  now apply quiet_emit.
Qed.

Lemma quiet_rescue P m e :
  quiet (stream m) -> quiet (stream (fst (rescue P m e))).
Proof.
  intros H. unfold rescue. cbn [fst].
  destruct (isClosed (stream m)); [exact H|].
  cbn. unfold writeError. now apply quiet_write.
Qed.

(** With no fault of the transport to come and no disconnect among the
    events, the session is still open when the run is over. *)
Lemma quiet_run P cb events model :
  ~ In ClientGone events ->
  closed (stream (fst (processClaudeStream P cb events (fresh [] model))))
  = false.
Proof.
  intros Hn. unfold processClaudeStream.
  assert (H0 : quiet (stream (start (fresh [] model)))) by now split.
  pose proof (quiet_loop P cb events Hn _ H0) as Hl.
  destruct (loop P cb events (start (fresh [] model))) as [ml c].
  cbn [fst] in Hl.
  pose proof (quiet_finish cb ml Hl) as Hf.
  destruct c as [ | | e].
  - destruct (finish cb ml) as [m' [t|e]]; cbn [fst] in *;
      [apply Hf | now apply quiet_rescue].
  - destruct (finish cb ml) as [m' [t|e]]; cbn [fst] in *;
      [apply Hf | now apply quiet_rescue].
  - now apply quiet_rescue.
Qed.

(** ** What the content deltas carry *)

Lemma filtered_emit m d fr :
  filtered (d, fr) ->
  Forall filtered (issued m) -> Forall filtered (issued (emit m d fr)).
Proof.
  intros Hd H. cbn. apply Forall_app. split; [exact H | now constructor].
Qed.

Lemma filtered_ensure_role m :
  Forall filtered (issued m) -> Forall filtered (issued (ensure_role m)).
Proof.
  unfold ensure_role. destruct (roleSent m); [trivial|].
  intros H. exact (filtered_emit m role_delta None I H).
Qed.

Lemma filtered_iteration P cb chunk ids m :
  Forall filtered (issued m) ->
  Forall filtered (issued (fst (iteration P cb chunk ids m))).
Proof.
  intros H.
  destruct (iteration P cb chunk ids m) as [m' c] eqn:E. cbn [fst].
  assert (H1 : Forall filtered (issued (ensure_role (count_chunk m))))
    by now apply filtered_ensure_role.
  destruct (iteration_cases _ _ _ _ _ _ _ E)
    as [-> | [-> | [(s & -> & _) | (tc & -> & _)]]].
  - exact H.
  - exact H1.
  - assert (Hs : filtered (DContent (filterContent s), None))
      by (left; now exists s).
    destruct cb;
      exact (filtered_emit _ (DContent (filterContent s)) None Hs H1).
  - exact (filtered_emit _ (DToolCalls tc) None I H1).
Qed.

Lemma filtered_loop P cb events :
  forall m, Forall filtered (issued m) ->
            Forall filtered (issued (fst (loop P cb events m))).
Proof.
  induction events as [|ev events IH]; intros m H; cbn [loop]; [exact H|].
  destruct ev as [chunk ids | e |].
  - pose proof (filtered_iteration P cb chunk ids m H) as H1.
    destruct (iteration P cb chunk ids m) as [m1 [ | | e]]; cbn [fst] in *;
      [now apply IH | exact H1 | exact H1].
  - exact H.
  - now apply IH.
Qed.

Lemma filtered_finish cb m :
  Forall filtered (issued m) -> Forall filtered (issued (fst (finish cb m))).
Proof.
  intros H. unfold finish. destruct (chunkCount m); [exact H|].
  cbn [fst].
  set (m1 := if roleSent m && negb (contentSent m) then _ else _).
  assert (H1 : Forall filtered (issued m1)).
  { subst m1. destruct (roleSent m && negb (contentSent m)).
    - assert (Hs : filtered (DContent fallbackMessage, None)) by now right.
      destruct cb;
        exact (filtered_emit m (DContent fallbackMessage) None Hs H).
    - destruct (negb (roleSent m)); [|exact H].
      exact (filtered_emit m role_delta None I H). }
  destruct (roleSent m1); [|exact H1].
  exact (filtered_emit m1 DEmpty stop I H1).
Qed.

Lemma run_ok P cb events faults model m text :
  processClaudeStream P cb events (fresh faults model) = (m, Ok text) ->
  exists ml c,
    loop P cb events (start (fresh faults model)) = (ml, c)
    /\ Inv [] model ml
    /\ finish cb ml = (m, Ok text).
Proof.
  unfold processClaudeStream.
  destruct (loop P cb events (start (fresh faults model))) as [ml c] eqn:Hl.
  assert (HI : Inv [] model ml) by (eapply Inv_loop; [apply Inv_fresh | exact Hl]).
  intros H. exists ml, c. split; [reflexivity|]. split; [exact HI|].
  destruct c; try (unfold rescue in H; discriminate);
    destruct (finish cb ml) as [m' [t|e]];
    solve [ exact H | unfold rescue in H; discriminate ].
Qed.

Lemma end_wire st :
  wire (res (end_ st)) = wire (res st)
  \/ (closed st = false /\ wire (res (end_ st)) = wire (res st) ++ [FDone]).
Proof.
  unfold end_. destruct (closed st); [now left|].
  unfold res_write, res_end.
  destruct (faults (res st)) as [|[|] [|[|] rest]]; cbn; auto.
Qed.

Lemma no_done_in_frames model h : ~ In FDone (map (frame_of model) h).
Proof.
  induction h as [|c h IH]; cbn; [tauto|].
  intros [H | H]; [discriminate | auto].
Qed.

(** C2: a run that returns normally has called [writeChunk({}, 'stop')]
    exactly once, as its last call, and no other call set a
    [finish_reason]; on a session still open the wire carries exactly the
    calls, and whenever [end()] then sends [data: [DONE]], the terminal
    delta is the frame right before it.  The session is still open when
    no transport fault and no disconnect came in between. *)
Theorem one_terminal_delta_last P cb events faults model m text :
  processClaudeStream P cb events (fresh faults model) = (m, Ok text) ->
  (exists before,
      issued m = before ++ [(DEmpty, stop)]
      /\ Forall (fun call => is_terminal call = false) before)
  /\ (closed (stream m) = false ->
      wire (res (stream m)) = map (frame_of model) (issued m))
  /\ (In FDone (wire (res (end_ (stream m)))) ->
      wire (res (end_ (stream m)))
      = map (frame_of model) (issued m) ++ [FDone])
  /\ (faults = [] -> ~ In ClientGone events -> closed (stream m) = false).
Proof.
  intros H. destruct (run_ok _ _ _ _ _ _ _ H) as (ml & c & _ & HI & Hf).
  destruct (finish_spec _ _ _ _ _ _ HI Hf)
    as [(_ & _ & E) | (_ & _ & Hy & body & Hi & HF & _)]; [discriminate|].
  destruct Hy as (_ & k & Hk & Hw & Hc). cbn [app] in Hw.
  split; [|split; [|split]]; cycle 3.
  { intros -> Hn. pose proof (quiet_run P cb events model Hn) as Hq.
    now rewrite H in Hq. }
  - exists ((role_delta, None) :: body). split; [exact Hi|].
    constructor; [reflexivity|].
    eapply Forall_impl; [|exact HF]. apply payload_not_terminal.
  - intros Ho. rewrite Hw, (Hc Ho). now rewrite firstn_all.
  - intros Hd. destruct (end_wire (stream m)) as [E | [Ho E]].
    + rewrite E, Hw in Hd. now apply no_done_in_frames in Hd.
    + rewrite E, Hw, (Hc Ho). now rewrite firstn_all.
Qed.

Lemma one_terminal_delta_last_witness :
  wire (res (end_ (stream (fst greeting_run))))
  = map (frame_of (js "any")) (issued (fst greeting_run)) ++ [FDone].
Proof.
  assert (H : processClaudeStream engine true [Chunk greeting no_entropy]
                (fresh [] (js "any"))
              = (fst greeting_run, Ok (js "Hi")))
    by (vm_compute; reflexivity).
  destruct (one_terminal_delta_last _ _ _ _ _ _ _ H) as (_ & _ & Hd & _).
  apply Hd. vm_compute. do 3 right. now left.
Defined.


(** C3: the text a run returns is the concatenation, in call order, of
    the strings of its content deltas, each the filtered content of a
    chunk (or the fallback message, when that is the only one), and of
    those on the wire while the session is open;
    between any two points of the loop, and from any point of the loop to
    the return, the accumulated text is only extended.  The session is
    open when no transport fault and no disconnect came in between. *)
Theorem returned_text_is_concatenation P cb events faults model m text :
  processClaudeStream P cb events (fresh faults model) = (m, Ok text) ->
  text = contents (issued m)
  /\ (closed (stream m) = false ->
      text = contents (deltas_of (wire (res (stream m)))))
  /\ (forall e1 e2 m1 m2 c,
         loop P cb e1 (start (fresh faults model)) = (m1, Next) ->
         loop P cb (e1 ++ e2) (start (fresh faults model)) = (m2, c) ->
         exists suffix, assistantContent m2 = assistantContent m1 ++ suffix)
  /\ (forall e1 e2 m1,
         events = e1 ++ e2 ->
         loop P cb e1 (start (fresh faults model)) = (m1, Next) ->
         exists suffix, text = assistantContent m1 ++ suffix)
  /\ Forall filtered (issued m)
  /\ (faults = [] -> ~ In ClientGone events -> closed (stream m) = false).
Proof.
  intros H. destruct (run_ok _ _ _ _ _ _ _ H) as (ml & c & Hl & HI & Hf).
  destruct (finish_spec _ _ _ _ _ _ HI Hf)
    as [(_ & _ & E) | (_ & Et & Hy & body & Hi & HF & Ha & [s Hs] & _)];
    [discriminate|].
  injection Et as ->.
  assert (Hc : contents (issued m) = contents body).
  { rewrite Hi. cbn. rewrite contents_app. cbn. now rewrite app_nil_r. }
  split; [|split; [|split; [|split; [|split]]]]; cycle 4.
  { pose proof (filtered_loop P cb events (start (fresh faults model))
                  (Forall_nil _)) as Hfl.
    rewrite Hl in Hfl. cbn [fst] in Hfl.
    apply (filtered_finish cb) in Hfl. now rewrite Hf in Hfl. }
  { intros -> Hn. pose proof (quiet_run P cb events model Hn) as Hq.
    now rewrite H in Hq. }
  - now rewrite Hc.
  - intros Ho. destruct Hy as (_ & k & Hk & Hw & Hk').
    rewrite Hw, (Hk' Ho), firstn_all. cbn [app].
    now rewrite deltas_of_frames, Hc.
  - intros e1 e2 m1 m2 c' H1 H2.
    rewrite (loop_app _ _ _ _ _ _ H1) in H2.
    exact (loop_grows _ _ _ _ _ _ H2).
  - intros e1 e2 m1 -> H1.
    rewrite (loop_app _ _ _ _ _ _ H1) in Hl.
    destruct (loop_grows _ _ _ _ _ _ Hl) as [s1 Hs1].
    exists (s1 ++ s). now rewrite Hs, Hs1, app_assoc.
Qed.

Lemma returned_text_is_concatenation_witness :
  js "Hi" = contents (issued (fst greeting_run)).
Proof.
  assert (H : processClaudeStream engine true [Chunk greeting no_entropy]
                (fresh [] (js "any"))
              = (fst greeting_run, Ok (js "Hi")))
    by (vm_compute; reflexivity).
  exact (proj1 (returned_text_is_concatenation _ _ _ _ _ _ _ H)).
Defined.


(** C5: when the loop ends without an exception, having announced the
    role and issued neither a content nor a tool-call delta, the run
    issues one content delta with the fallback message and then the
    terminal delta, that content delta is the only one of the run, and
    the fallback message is the text returned.  On a session still open
    (as it is when no transport fault and no disconnect came in between)
    these calls are the deltas on the wire. *)
Theorem fallback_when_nothing_was_said P cb events faults model ml c :
  loop P cb events (start (fresh faults model)) = (ml, c) ->
  (forall e, c <> Raise e) ->
  In (role_delta, None) (issued ml) ->
  (forall call, In call (issued ml) ->
                is_content call = false /\ is_tool_calls call = false) ->
  exists m,
    processClaudeStream P cb events (fresh faults model)
    = (m, Ok fallbackMessage)
    /\ issued m
       = issued ml ++ [(DContent fallbackMessage, None); (DEmpty, stop)]
    /\ filter is_content (issued m) = [(DContent fallbackMessage, None)]
    /\ (closed (stream m) = false ->
        deltas_of (wire (res (stream m))) = issued m)
    /\ (faults = [] -> ~ In ClientGone events -> closed (stream m) = false).
Proof.
  intros Hl Hc Hrole Hnone.
  assert (HI : Inv [] model ml) by (eapply Inv_loop; [apply Inv_fresh | exact Hl]).
  assert (Hi : issued ml = [(role_delta, None)]).
  { destruct HI as [Hs _]. unfold shaped in Hs.
    destruct (issued ml) as [|call body]; [contradiction|].
    destruct Hs as (-> & _ & _ & HF & _).
    destruct body as [|b body]; [reflexivity|].
    exfalso. inversion HF as [|? ? [Hb _] _]; subst.
    destruct (Hnone b (or_intror (or_introl eq_refl))) as [H1 H2].
    destruct Hb; congruence. }
  destruct (finish cb ml) as [m r] eqn:Hf.
  destruct (finish_spec _ _ _ _ _ _ HI Hf)
    as [(Hz & _ & _) | (_ & -> & Hy & body & Hb & _ & Ha & _ & Hm)].
  { exfalso. destruct HI as [Hs _]. unfold shaped in Hs. rewrite Hi in Hs.
    tauto. }
  rewrite Hi in Hm. subst body. cbn in Ha, Hb.
  assert (Hrun : processClaudeStream P cb events (fresh faults model)
                 = (m, Ok fallbackMessage)).
  { unfold processClaudeStream. rewrite Hl.
    destruct c; [| | now destruct (Hc e)]; rewrite Hf; now rewrite Ha. }
  exists m. split; [|split; [|split; [|split]]]; cycle 4.
  { intros -> Hn. pose proof (quiet_run P cb events model Hn) as Hq.
    now rewrite Hrun in Hq. }
  - exact Hrun.
  - now rewrite Hb, Hi.
  - now rewrite Hb.
  - intros Ho. destruct Hy as (_ & k & Hk & Hw & Hk').
    rewrite Hw, (Hk' Ho), firstn_all. apply deltas_of_frames.
Qed.

Lemma fallback_when_nothing_was_said_witness :
  snd (processClaudeStream engine true [Chunk blank no_entropy]
         (fresh [] (js "any")))
  = Ok fallbackMessage.
Proof.
  assert (Hl : loop engine true [Chunk blank no_entropy]
                 (start (fresh [] (js "any")))
               = (fst blank_loop, Next))
    by (vm_compute; reflexivity).
  assert (Hc : forall e, Next <> Raise e) by discriminate.
  assert (Hr : In (role_delta, None) (issued (fst blank_loop)))
    by (vm_compute; now left).
  assert (Hn : forall call, In call (issued (fst blank_loop)) ->
                 is_content call = false /\ is_tool_calls call = false)
    by (vm_compute; intros call [<- | []]; split; reflexivity).
  destruct (fallback_when_nothing_was_said _ _ _ _ _ _ _ Hl Hc Hr Hn)
    as (m & Hrun & _).
  now rewrite Hrun.
Defined.


(** ** A stream without chunks *)

Lemma loop_without_chunks P cb events :
  (forall chunk ids, ~ In (Chunk chunk ids) events) ->
  forall m,
    issued (fst (loop P cb events m)) = issued m
    /\ chunkCount (fst (loop P cb events m)) = chunkCount m
    /\ snd (loop P cb events m)
       = match first_failure (source_of events) with
         | Some e => Raise e
         | None => Next
         end.
Proof.
  induction events as [|ev events IH]; intros Hn m; cbn [loop].
  - now cbn.
  - destruct ev as [chunk ids | e |].
    + exfalso. apply (Hn chunk ids). now left.
    + now cbn.
    + cbn [source_of].
      exact (IH (fun chunk ids H => Hn chunk ids (or_intror H))
                (with_stream m (on_close (stream m)))).
Qed.

Lemma rescue_result P m e :
  issued (fst (rescue P m e)) = issued m /\ snd (rescue P m e) = Throw e.
Proof.
  unfold rescue. cbn [fst snd]. split; [|reflexivity].
  now destruct (isClosed (stream m)).
Qed.

Lemma run_without_chunks P cb events st :
  (forall chunk ids, ~ In (Chunk chunk ids) events) ->
  issued (fst (processClaudeStream P cb events st)) = []
  /\ snd (processClaudeStream P cb events st)
     = Throw (match first_failure (source_of events) with
              | Some e => e
              | None => Error no_response
              end).
Proof.
  intros Hn. unfold processClaudeStream.
  destruct (loop_without_chunks P cb events Hn (start st)) as (Hi & Hc & Hx).
  destruct (loop P cb events (start st)) as [ml c]. cbn [fst snd] in *.
  cbn [issued chunkCount start] in Hi, Hc.
  assert (Hf : finish cb ml = (ml, Throw (Error no_response)))
    by (unfold finish; now rewrite Hc).
  destruct (first_failure (source_of events)) as [e|]; subst c.
  - destruct (rescue_result P ml e) as [H1 H2]. now rewrite H1, H2.
  - rewrite Hf. destruct (rescue_result P ml (Error no_response)) as [H1 H2].
    now rewrite H1, H2.
Qed.

Lemma executeStreaming_silent P sub :
  stdout sub = [] -> stdout_error sub = None -> exit sub = Exited 0 ->
  executeStreaming P sub = [Fail (streaming_error (stderr sub) no_output)].
Proof.
  intros H1 H2 H3. unfold executeStreaming. now rewrite H1, H2, H3.
Qed.

Lemma executeStreaming_crashed P sub code :
  stdout sub = [] -> stdout_error sub = None -> exit sub = Exited code ->
  code <> 0%Z ->
  executeStreaming P sub
  = [Fail (streaming_error (stderr sub)
             (js "Process exited with code " ++ decimal code))].
Proof.
  intros H1 H2 H3 Hc. unfold executeStreaming. rewrite H1, H2, H3.
  destruct code; [contradiction | reflexivity | reflexivity].
Qed.


(** C6, as amended: when the Claude stream hands over no chunk, the
    request fails rather than completes, no delta at all is issued and
    none reaches the wire; the failure is the no-response error when the
    stream just ends, the generator's no-output error when the child
    printed nothing and exited with code 0, and the exit error when it
    printed nothing and exited with another code. *)
Theorem silent_subprocess_fails P cb events faults model :
  (forall chunk ids, ~ In (Chunk chunk ids) events) ->
  (exists e, snd (processClaudeStream P cb events (fresh faults model))
             = Throw e)
  /\ issued (fst (processClaudeStream P cb events (fresh faults model))) = []
  /\ deltas_of (wire (res (stream (fst (processClaudeStream P cb events
                                          (fresh faults model)))))) = []
  /\ (source_of events = [] ->
      snd (processClaudeStream P cb events (fresh faults model))
      = Throw (Error no_response))
  /\ (forall sub,
         stdout sub = [] -> stdout_error sub = None -> exit sub = Exited 0 ->
         source_of events = executeStreaming P sub ->
         snd (processClaudeStream P cb events (fresh faults model))
         = Throw (streaming_error (stderr sub) no_output))
  /\ (forall sub code,
         stdout sub = [] -> stdout_error sub = None ->
         exit sub = Exited code -> code <> 0%Z ->
         source_of events = executeStreaming P sub ->
         snd (processClaudeStream P cb events (fresh faults model))
         = Throw (streaming_error (stderr sub)
                    (js "Process exited with code " ++ decimal code))).
Proof.
  intros Hn.
  destruct (run_without_chunks P cb events (fresh faults model) Hn)
    as [Hi Hr].
  destruct (processClaudeStream P cb events (fresh faults model))
    as [m r] eqn:E.
  cbn [fst snd] in *.
  split; [eexists; exact Hr|]. split; [exact Hi|]. split; [|split; [|split]];
    cycle 3.
  { intros sub code H1 H2 H3 Hc Hs.
    rewrite Hr, Hs, (executeStreaming_crashed P sub code H1 H2 H3 Hc).
    reflexivity. }
  - destruct (run_history _ _ _ _ _ _ _ E) as (_ & k & _ & Hd & _).
    rewrite Hd, Hi. apply firstn_nil.
  - intros Hs. rewrite Hr, Hs. reflexivity.
  - intros sub H1 H2 H3 Hs.
    rewrite Hr, Hs, (executeStreaming_silent P sub H1 H2 H3). reflexivity.
Qed.

Lemma silent_subprocess_fails_witness :
  snd (processClaudeStream engine true [ClientGone] (fresh [] (js "any")))
  = Throw (Error no_response).
Proof.
  assert (Hn : forall chunk ids, ~ In (Chunk chunk ids) [ClientGone])
    by (intros chunk ids [H | []]; discriminate).
  destruct (silent_subprocess_fails engine true [ClientGone] [] (js "any") Hn)
    as (_ & _ & _ & Hs & _).
  apply Hs. reflexivity.
Defined.

(** C6 as stated fails: a child that prints nothing and exits with
    code 1 makes the request fail with the exit error, which is neither
    of the two no-output errors. *)
Lemma crashed_silent_subprocess :
  stdout crashed = []
  /\ source_of crash_events = executeStreaming engine crashed
  /\ snd (processClaudeStream engine true crash_events (fresh [] (js "any")))
     = Throw (Error (js "Claude CLI streaming error: Process exited with code 1"))
  /\ Error (js "Claude CLI streaming error: Process exited with code 1")
     <> Error no_response
  /\ Error (js "Claude CLI streaming error: Process exited with code 1")
     <> streaming_error (stderr crashed) no_output.
Proof.
  repeat split; try reflexivity; intros H; vm_compute in H; discriminate.
Qed.

(* ================================================================== *)
(** * Content extraction                                                *)
(* ================================================================== *)

Lemma extract_block_piece block acc :
  extract_block block acc = (p <- piece block ;; Ok (acc ++ p)).
Proof.
  unfold piece, selected, extract_block.
  destruct block as [| b | r | s | items | fields];
    try (cbn; now rewrite ?app_nil_r).
  cbn [get bind].
  destruct (assoc (js "text") fields) as [t|]; cbn [truthy_opt].
  - destruct (truthy t).
    + unfold ToString, bind. now destruct (to_string t).
    + rewrite andb_false_r.
      destruct (assoc (js "content") fields) as [c|]; cbn [truthy_opt];
        [|cbn; now rewrite app_nil_r].
      destruct (truthy c); [|cbn; now rewrite app_nil_r].
      unfold ToString, bind. now destruct (to_string c).
  - rewrite andb_false_r.
    destruct (assoc (js "content") fields) as [c|]; cbn [truthy_opt];
      [|cbn; now rewrite app_nil_r].
    destruct (truthy c); [|cbn; now rewrite app_nil_r].
    unfold ToString, bind. now destruct (to_string c).
Qed.

Lemma extract_loop_pieces blocks :
  forall acc,
    extract_loop blocks acc
    = (ps <- pieces blocks ;; Ok (acc ++ List.concat ps)).
Proof.
  induction blocks as [|block blocks IH]; intros acc; cbn [extract_loop pieces].
  - cbn. now rewrite app_nil_r.
  - rewrite extract_block_piece.
    destruct (piece block) as [p|e]; cbn [bind]; [|reflexivity].
    rewrite IH. destruct (pieces blocks) as [ps|e]; cbn; [|reflexivity].
    now rewrite app_assoc.
Qed.

(** What the extractor computes as it is written: the in-order
    concatenation over the blocks of: a bare string verbatim; for an
    object, its [text] when truthy, else its [content] when truthy,
    converted to a string as [+=] converts it; nothing for any other
    block.  It throws where a conversion throws. *)
Lemma extractContent_concatenates blocks :
  extractContent (JArr blocks)
  = (ps <- pieces blocks ;; Ok (List.concat ps)).
Proof.
  cbn [extractContent]. now rewrite extract_loop_pieces.
Qed.

(** C7 fails on the code, by a slip of the code: at
    [[{content: ['a', 'b']}]] the streaming extractor appends
    [block.content] itself, which [+=] joins with a comma, and returns
    [a,b]; the extraction that the claim describes, and that the twin
    of this function in [MessageAdapter] performs by calling itself on
    [block.content], gives [ab]. *)
Lemma extractContent_does_not_recurse :
  extractContent (JArr nested) = Ok (js "a,b")
  /\ spec_extractContent nested = Ok (js "ab")
  /\ extractContent (JArr nested) <> spec_extractContent nested.
Proof.
  split; [reflexivity|]. split; [reflexivity|].
  intros H. vm_compute in H. discriminate.
Qed.

(* ================================================================== *)
(** * Tool calls                                                        *)
(* ================================================================== *)

Lemma filter_tool_use_ok blocks :
  Forall (fun b => b <> JNull) blocks ->
  filter_tool_use blocks = Ok (filter is_tool_use blocks).
Proof.
  induction 1 as [|b blocks Hb _ IH]; [reflexivity|].
  cbn [filter_tool_use filter]. rewrite IH.
  destruct b; try contradiction; reflexivity.
Qed.

Lemma filter_is_tool_use blocks :
  Forall (fun b => is_tool_use b = true) (filter is_tool_use blocks).
Proof.
  induction blocks as [|b blocks IH]; cbn; [constructor|].
  destruct (is_tool_use b) eqn:E; [constructor|]; assumption.
Qed.

Lemma convert_blocks_ok ids blocks :
  Forall (fun b => is_tool_use b = true) blocks ->
  forall n, convert_blocks ids n blocks = Ok (openai_calls ids n blocks).
Proof.
  induction 1 as [|b blocks Hb _ IH]; intros n; [reflexivity|].
  cbn [convert_blocks openai_calls]. rewrite IH.
  destruct b; try discriminate. reflexivity.
Qed.

(** A round of the loop on a tool-call chunk leaves the accumulated
    text and the content deltas as they were. *)
Lemma tool_calls_round_adds_no_content P cb chunk ids tc m :
  parseClaudeChunk P ids chunk = PToolCalls tc ->
  assistantContent (fst (iteration P cb chunk ids m)) = assistantContent m
  /\ filter is_content (issued (fst (iteration P cb chunk ids m)))
     = filter is_content (issued m).
Proof.
  intros Hp. unfold iteration.
  destruct (isClosed (stream (count_chunk m))); [split; reflexivity|].
  rewrite Hp. unfold ensure_role.
  destruct (truthy tc); destruct (roleSent (count_chunk m)); cbn;
    rewrite ?filter_app; cbn; rewrite ?app_nil_r; split; reflexivity.
Qed.

(** C8: an assistant envelope whose message content is a list of blocks
    (every entry a value with properties to read: anything but [null])
    with at least one tool-use block normalises to a tool-calls chunk
    that holds every tool-use block of the list, in order, in its OpenAI
    form; the envelope yields no assistant text: the round of the loop
    that meets it issues no content delta. *)
Theorem tool_use_envelope_becomes_tool_calls
        P ids fields message_fields blocks :
  assoc (js "type") fields = Some (str "assistant") ->
  assoc (js "message") fields = Some (JObj message_fields) ->
  assoc (js "content") message_fields = Some (JArr blocks) ->
  Forall (fun block => block <> JNull) blocks ->
  existsb is_tool_use blocks = true ->
  normalizeClaudeChunk P ids (JObj fields)
  = Ok (PToolCalls (JArr (openai_calls ids 0 (filter is_tool_use blocks))))
  /\ parseClaudeChunk P ids (JObj fields)
     = PToolCalls (JArr (openai_calls ids 0 (filter is_tool_use blocks)))
  /\ filter is_tool_use blocks <> []
  /\ (forall cb m,
         assistantContent (fst (iteration P cb (JObj fields) ids m))
         = assistantContent m
         /\ filter is_content
              (issued (fst (iteration P cb (JObj fields) ids m)))
            = filter is_content (issued m)).
Proof.
  intros Ht Hm Hc Hn He.
  assert (Hne : filter is_tool_use blocks <> []).
  { intros E. apply existsb_exists in He. destruct He as (b & Hin & Hb).
    assert (In b (filter is_tool_use blocks)) by now apply filter_In.
    rewrite E in *. contradiction. }
  assert (Hnorm : normalizeClaudeChunk P ids (JObj fields)
          = Ok (PToolCalls (JArr (openai_calls ids 0 (filter is_tool_use blocks))))).
  { unfold normalizeClaudeChunk. cbn [get bind]. rewrite Ht, Hm.
    cbn [get bind]. rewrite Hc.
    change (is_str (Some (str "assistant")) "system") with false.
    change (is_str (Some (str "assistant")) "result") with false.
    change (is_str (Some (str "assistant")) "user") with false.
    change (is_str (Some (str "assistant")) "assistant") with true.
    cbn [orb andb truthy_opt truthy].
    rewrite (filter_tool_use_ok _ Hn). cbn [bind].
    destruct (filter is_tool_use blocks) as [|b kept] eqn:Ef; [contradiction|].
    unfold parseToolCalls. cbn [get bind assoc].
    change (jstring_eqb (js "tool_calls") (js "content")) with false.
    change (jstring_eqb (js "content") (js "content")) with true.
    cbn [truthy_opt bind].
    rewrite (filter_tool_use_ok _ Hn), Ef. cbn [bind].
    rewrite (convert_blocks_ok ids (b :: kept))
      by (rewrite <- Ef; apply filter_is_tool_use).
    reflexivity. }
  assert (Hparse : parseClaudeChunk P ids (JObj fields)
          = PToolCalls (JArr (openai_calls ids 0 (filter is_tool_use blocks))))
    by (unfold parseClaudeChunk; now rewrite Hnorm).
  split; [exact Hnorm|]. split; [exact Hparse|]. split; [exact Hne|].
  intros cb m. now apply tool_calls_round_adds_no_content with (tc := JArr (openai_calls ids 0 (filter is_tool_use blocks))).
Qed.

Lemma tool_use_envelope_becomes_tool_calls_witness :
  parseClaudeChunk engine no_entropy (JObj weather_fields)
  = PToolCalls
      (JArr [JObj [member "id" (str "t1");
                   member "type" (str "function");
                   member "function"
                     (JObj [member "name" (str "get_weather");
                            member "arguments"
                              (JStr (stringify
                                       (JObj [member "city" (str "Paris")])))])]]).
Proof.
  refine (proj1 (proj2 (tool_use_envelope_becomes_tool_calls
                          engine no_entropy weather_fields
                          weather_message weather_blocks _ _ _ _ _)));
    try reflexivity.
  repeat constructor; discriminate.
Defined.

(** A [null] entry in the list is no block: [block.type] throws on it
    and the envelope becomes an error chunk. *)
Remark null_entry_is_an_error :
  normalizeClaudeChunk engine no_entropy null_entry
  = Throw (TypeError (NullProperty (js "type")))
  /\ parseClaudeChunk engine no_entropy null_entry
     = PError (js "Cannot read properties of null (reading 'type')").
Proof. split; reflexivity. Qed.

(* ================================================================== *)
(** * The tool gate of the chat handler                                 *)
(* ================================================================== *)

Lemma tools_requested_true P rq :
  (tools rq = None \/ exists items, tools rq = Some (JArr items)) ->
  ((exists t ts, tools rq = Some (JArr (t :: ts)))
   \/ (exists f fs, functions rq = Some (JArr (f :: fs)))) ->
  tools_requested P rq = Ok true.
Proof.
  intros Ht Hne. unfold tools_requested, given.
  destruct Hne as [(t & ts & E) | (f & fs & E)].
  - now rewrite E.
  - rewrite E. destruct Ht as [-> | [[|t ts] ->]]; reflexivity.
Qed.

(** C10: a validated request whose [tools] is a non-empty array, or
    whose [functions] is one while [tools] is absent or an array, is
    answered in both modes with status 400 and the message
    'Tool/function calling is not supported', and no Claude CLI process
    is spawned for it. *)
Theorem tool_requests_are_refused P rq events completion reply x :
  (tools rq = None \/ exists items, tools rq = Some (JArr items)) ->
  ((exists t ts, tools rq = Some (JArr (t :: ts)))
   \/ (exists f fs, functions rq = Some (JArr (f :: fs)))) ->
  let refusal := sendError x 400 not_supported "invalid_request_error" in
  handleStreamingRequest P rq events x = (refusal, Ok tt)
  /\ handleNonStreamingRequest P rq completion reply x = (refusal, Ok tt)
  /\ handle P rq events completion reply x = refusal
  /\ head (response refusal) = Some (400%Z, js "application/json")
  /\ body (response refusal)
     = Some (createErrorResponse "Tool/function calling is not supported"
                                 "invalid_request_error")
  /\ spawns refusal = spawns x.
Proof.
  intros Ht Hne refusal.
  pose proof (tools_requested_true P rq Ht Hne) as Hg.
  assert (Hs : handleStreamingRequest P rq events x = (refusal, Ok tt))
    by (unfold handleStreamingRequest; now rewrite Hg).
  assert (Hn : handleNonStreamingRequest P rq completion reply x = (refusal, Ok tt))
    by (unfold handleNonStreamingRequest; now rewrite Hg).
  repeat split; auto.
  unfold handle. destruct (stream_flag rq); [now rewrite Hs | now rewrite Hn].
Qed.

Lemma tool_requests_are_refused_witness :
  handle engine with_functions [] (Throw (Error [])) (fun _ _ => Throw (Error []))
         untouched
  = sendError untouched 400 not_supported "invalid_request_error".
Proof.
  refine (proj1 (proj2 (proj2 (tool_requests_are_refused
                                 engine with_functions [] (Throw (Error []))
                                 (fun _ _ => Throw (Error [])) untouched _ _)))).
  - now left.
  - right. do 2 eexists. reflexivity.
Defined.

(** Every other request that passes the gate spawns the process. *)
Lemma other_requests_spawn P rq events completion reply x :
  tools_requested P rq = Ok false ->
  spawns (handle P rq events completion reply x) = S (spawns x).
Proof.
  intros Hg. unfold handle, handleStreamingRequest, handleNonStreamingRequest.
  rewrite Hg. destruct (stream_flag rq).
  - now destruct (processClaudeStream P true events _) as [m [t|e]].
  - destruct completion as [out|e]; cbn [bind]; [|reflexivity].
    now destruct (reply (model rq) out).
Qed.

(* ================================================================== *)
(** * Further properties of the pipeline                                *)
(* ================================================================== *)

Lemma iteration_bookkeeping P cb chunk ids m :
  bookkeeping P (Chunk chunk ids) ->
  fst (iteration P cb chunk ids m) = count_chunk m
  /\ (forall e, snd (iteration P cb chunk ids m) <> Raise e).
Proof.
  cbn [bookkeeping]. unfold iteration.
  destruct (isClosed (stream (count_chunk m))); [intros _; now split|].
  destruct (parseClaudeChunk P ids chunk); intros H; try contradiction;
    now split.
Qed.

Lemma loop_bookkeeping P cb events :
  Forall (bookkeeping P) events ->
  forall m,
    mute m ->
    mute (fst (loop P cb events m))
    /\ (forall e, snd (loop P cb events m) <> Raise e)
    /\ chunkCount m <= chunkCount (fst (loop P cb events m))
    /\ ((exists chunk ids, In (Chunk chunk ids) events) ->
        chunkCount (fst (loop P cb events m)) <> 0).
Proof.
  induction 1 as [|ev events Hev _ IH]; intros m Hm; cbn [loop].
  - cbn [fst snd]. split; [exact Hm|]. split; [discriminate|].
    split; [lia|]. intros (chunk & ids & []).
  - destruct ev as [chunk ids | e |].
    + destruct (iteration_bookkeeping P cb chunk ids m Hev) as [E Hc].
      destruct (iteration P cb chunk ids m) as [m1 c]. cbn [fst snd] in *.
      subst m1.
      assert (Hm1 : mute (count_chunk m)) by exact Hm.
      destruct c as [ | | e].
      * destruct (IH _ Hm1) as (H1 & H2 & H3 & _).
        cbn [chunkCount count_chunk] in H3.
        split; [exact H1|]. split; [exact H2|]. split; [lia|].
        intros _. lia.
      * cbn [fst snd]. split; [exact Hm1|]. split; [discriminate|].
        cbn [chunkCount count_chunk]. split; [lia|]. intros _. lia.
      * now destruct (Hc e).
    + contradiction.
    + assert (Hm1 : mute (with_stream m (on_close (stream m)))) by exact Hm.
      destruct (IH _ Hm1) as (H1 & H2 & H3 & H4).
      split; [exact H1|]. split; [exact H2|]. split; [exact H3|].
      intros (chunk & ids & [Hd | Hin]); [discriminate|].
      apply H4. now exists chunk, ids.
Qed.

(** When every chunk is bookkeeping (system, empty, unknown) and there
    is at least one, the run announces the role, sends the terminal delta
    right after it and returns the empty text: no fallback message. *)
Theorem bookkeeping_only_ends_with_role_then_stop P cb events faults model :
  Forall (bookkeeping P) events ->
  (exists chunk ids, In (Chunk chunk ids) events) ->
  snd (processClaudeStream P cb events (fresh faults model)) = Ok []
  /\ issued (fst (processClaudeStream P cb events (fresh faults model)))
     = [(role_delta, None); (DEmpty, stop)].
Proof.
  intros Hb Hc. unfold processClaudeStream.
  assert (H0 : mute (start (fresh faults model))) by (repeat split).
  destruct (loop_bookkeeping P cb events Hb _ H0) as ((Hr & Hs & Ha & Hi) & Hx & _ & Hn).
  specialize (Hn Hc).
  destruct (loop P cb events (start (fresh faults model))) as [ml c].
  cbn [fst snd] in *.
  assert (Hf : snd (finish cb ml) = Ok []
               /\ issued (fst (finish cb ml))
                  = [(role_delta, None); (DEmpty, stop)]).
  { unfold finish. destruct (chunkCount ml); [contradiction|].
    rewrite Hr, Hs. cbn. now rewrite Ha, Hi. }
  destruct c as [ | | e]; [| | now destruct (Hx e)];
    destruct (finish cb ml) as [m' [t|e]]; cbn [fst snd] in *;
    destruct Hf as [Hf1 Hf2]; try discriminate; now split.
Qed.

Lemma bookkeeping_only_ends_with_role_then_stop_witness :
  issued (fst (processClaudeStream engine true
                 [Chunk (JObj [member "type" (str "system")]) no_entropy]
                 (fresh [] (js "any"))))
  = [(role_delta, None); (DEmpty, stop)].
Proof.
  refine (proj2 (bookkeeping_only_ends_with_role_then_stop
                   engine true _ [] (js "any") _ _)).
  - constructor; [exact I | constructor].
  - do 2 eexists. now left.
Defined.

(** A line that is no JSON text reaches the client as it is: the
    generator wraps it as a text chunk, the normaliser unwraps it. *)
Theorem raw_line_is_assistant_text P ids line :
  JSON_parse P line = None ->
  line <> [] ->
  parseClaudeOutput P line
  = JObj [member "type" (str "text"); member "content" (JStr line)]
  /\ parseClaudeChunk P ids (parseClaudeOutput P line) = PAssistant (JStr line).
Proof.
  intros Hp Hne. unfold parseClaudeOutput. rewrite Hp.
  split; [reflexivity|].
  destruct line as [|c line]; [contradiction|]. reflexivity.
Qed.

Lemma raw_line_is_assistant_text_witness :
  parseClaudeChunk engine no_entropy (parseClaudeOutput engine (js "not json at all"))
  = PAssistant (str "not json at all").
Proof.
  refine (proj2 (raw_line_is_assistant_text engine no_entropy
                   (js "not json at all") _ _)).
  - reflexivity.
  - discriminate.
Defined.

(** Whatever goes in, what [filterContent] returns has no whitespace
    around it and no run of blank lines in it. *)
Theorem filterContent_output_is_tidy x :
  trim (filterContent x) = filterContent x
  /\ matches_in re_blank_lines (filterContent x) = false.
Proof.
  destruct (filterContent_settled x) as [H1 H2]. now split.
Qed.

(** An error chunk met on an open session ends the run with its message
    (or the stock message when it has none), after the chunks before it
    and without a look at what follows. *)
Theorem error_chunk_aborts P cb before chunk ids after st m1 message :
  loop P cb before (start st) = (m1, Next) ->
  isClosed (stream m1) = false ->
  parseClaudeChunk P ids chunk = PError message ->
  snd (processClaudeStream P cb (before ++ Chunk chunk ids :: after) st)
  = Throw (Error (match message with
                  | [] => js "Claude stream error"
                  | _ => message
                  end)).
Proof.
  intros Hl Ho Hp. unfold processClaudeStream.
  rewrite (loop_app _ _ _ _ _ _ Hl). cbn [loop].
  unfold iteration.
  change (isClosed (stream (count_chunk m1))) with (isClosed (stream m1)).
  rewrite Ho, Hp. reflexivity.
Qed.

Lemma error_chunk_aborts_witness :
  snd (processClaudeStream engine true [Chunk JNull no_entropy; Chunk greeting no_entropy]
         (fresh [] (js "any")))
  = Throw (Error (js "Cannot read properties of null (reading 'type')")).
Proof.
  exact (error_chunk_aborts engine true [] JNull no_entropy
           [Chunk greeting no_entropy] (fresh [] (js "any"))
           (start (fresh [] (js "any")))
           (js "Cannot read properties of null (reading 'type')")
           eq_refl eq_refl eq_refl).
Defined.

(* ================================================================== *)
(** * Request validation                                                *)
(* ================================================================== *)

Section Validation.

Import Models Wording.

Variable P : Platform.

Lemma includes_In l x : includes l x = true -> In x l.
Proof.
  unfold includes. rewrite existsb_exists. intros (y & Hy & E).
  unfold jstring_eqb in E. destruct (list_eq_dec N.eq_dec x y); [now subst | discriminate].
Qed.

Lemma jstring_eqb_refl x : jstring_eqb x x = true.
Proof. unfold jstring_eqb. now destruct (list_eq_dec N.eq_dec x x). Qed.

Lemma In_includes l x : In x l -> includes l x = true.
Proof.
  intros H. unfold includes. rewrite existsb_exists. exists x.
  split; [exact H | apply jstring_eqb_refl].
Qed.

Lemma validateMessage_sound item m :
  validateMessage item = inr m -> sound_message m.
Proof.
  unfold validateMessage, invalid.
  destruct (negb (truthy item) || negb (is_object item)); [discriminate|].
  destruct (negb (truthy_opt (prop item "role"))
            || negb (is_string (prop item "role"))); [discriminate|].
  destruct (includes validRoles (string_of (prop item "role"))) eqn:Hr;
    [|discriminate].
  cbn [negb].
  destruct (prop item "content") as [[ | b | r | s | items | fields]|] eqn:Hc;
    cbn [truthy_opt truthy negb]; try discriminate.
  - destruct b; discriminate.
  - destruct (negb _); discriminate.
  - destruct s as [|c s]; [discriminate|]. cbn [negb].
    intros [= <-]. split; [now apply includes_In | discriminate].
  - destruct (textContent items) as [[|c text]|e]; try discriminate.
    intros [= <-]. split; [now apply includes_In | discriminate].
Qed.

Lemma validateMessages_sound items :
  forall index ms, validateMessages P index items = inr ms ->
                   Forall sound_message ms /\ List.length ms = List.length items.
Proof.
  induction items as [|item rest IH]; intros index ms; cbn [validateMessages].
  - intros [= <-]. split; [constructor | reflexivity].
  - destruct (validateMessage item) as [e|m] eqn:Hm; [discriminate|].
    destruct (validateMessages P (S index) rest) as [e|others] eqn:Hr;
      [discriminate|].
    intros [= <-]. destruct (IH _ _ Hr) as [Hs Hl]. split.
    + constructor; [now apply validateMessage_sound with item | exact Hs].
    + cbn. now rewrite Hl.
Qed.

Lemma checked_inr x bad text where_ y :
  checked x bad text where_ = inr y ->
  option_map JNum y = x /\ whenever y (fun repr => bad repr = false).
Proof.
  unfold checked. destruct x as [[ | | repr | | | ]|]; try discriminate.
  - destruct (bad repr) eqn:Hb; [discriminate|]. intros [= <-].
    split; [reflexivity|]. now intros w' [= <-].
  - intros [= <-]. split; [reflexivity|]. now intros w'.
Qed.

Lemma outside_within lo hi repr : outside lo hi repr = false -> within lo hi repr.
Proof. intros H. apply orb_false_iff in H. exact H. Qed.

Lemma positive_integer_from repr :
  not_positive_integer repr = false -> integer_from 1 repr.
Proof.
  intros H. apply orb_false_iff in H. destruct H as [H1 H2].
  apply negb_false_iff in H1. now split.
Qed.

Lemma one_from repr :
  not_one repr = false -> integer_from 1 repr /\ within 1 1 repr.
Proof.
  intros H. apply orb_false_iff in H. destruct H as [H H3].
  apply orb_false_iff in H. destruct H as [H1 H2].
  apply negb_false_iff in H1. repeat split; assumption.
Qed.

Lemma checked_stop_inr x y :
  checked_stop x = inr y ->
  (forall items, y = Some items -> List.length items <= 4)
  /\ option_map JArr y
     = match x with Some (JStr s) => Some (JArr [JStr s]) | _ => x end.
Proof.
  unfold checked_stop.
  destruct x as [[ | b | r | s | items | fields]|]; try discriminate.
  - intros [= <-]. split; [|reflexivity]. intros items [= <-]. cbn. lia.
  - destruct (Nat.ltb 4 (List.length items)) eqn:Hl; [discriminate|].
    intros [= <-]. split; [|reflexivity].
    intros items' [= <-]. apply Nat.ltb_ge in Hl. exact Hl.
  - intros [= <-]. split; [|reflexivity]. discriminate.
Qed.

Lemma passed_truthy x : whenever (passed x) (fun w => truthy w = true).
Proof.
  unfold passed, whenever. destruct x as [w|]; cbn; [|discriminate].
  destruct (truthy w) eqn:Hw; [|discriminate]. now intros w' [= <-].
Qed.

Lemma whenever_impl {A} (x : option A) (Q R : A -> Prop) :
  (forall w, Q w -> R w) -> whenever x Q -> whenever x R.
Proof. intros H Hq w Hw. apply H, Hq, Hw. Qed.

(** What [validateChatCompletionRequest] looked at when it accepts. *)
Lemma validate_inversion body v :
  validateChatCompletionRequest P body = inr v ->
  exists items,
    truthy body = true /\ is_object body = true
    /\ truthy_opt (prop body "model") = true
    /\ is_string (prop body "model") = true
    /\ prop body "messages" = Some (JArr items) /\ items <> []
    /\ validateMessages P 0 items = inr (messages v)
    /\ model v = string_of (prop body "model")
    /\ stream v = truthy_opt (prop body "stream")
    /\ enable_tools v = truthy_opt (prop body "enable_tools")
    /\ tools v = passed (prop body "tools")
    /\ functions v = passed (prop body "functions")
    /\ checked (prop body "temperature") (outside 0 2)
         "Temperature must be a number between 0 and 2" "temperature"
       = inr (temperature v)
    /\ checked (prop body "max_tokens") not_positive_integer
         "max_tokens must be a positive integer" "max_tokens"
       = inr (max_tokens v)
    /\ checked (prop body "top_p") (outside 0 1)
         "top_p must be a number between 0 and 1" "top_p"
       = inr (top_p v)
    /\ checked (prop body "n") not_one
         "n must be 1 (multiple responses not supported)" "n"
       = inr (n v)
    /\ checked_stop (prop body "stop") = inr (stop v).
Proof.
  unfold validateChatCompletionRequest, fail.
  destruct (truthy body) eqn:Hb; [|discriminate].
  destruct (is_object body) eqn:Ho; [|discriminate]. cbn [negb orb].
  destruct (truthy_opt (prop body "model")) eqn:Hm; [|discriminate].
  destruct (is_string (prop body "model")) eqn:Hs; [|discriminate].
  cbn [negb orb].
  destruct (prop body "messages")
    as [[ | b | r | s | [|item items] | fields]|] eqn:Hmsgs; try discriminate.
  destruct (validateMessages P 0 (item :: items)) as [e|ms] eqn:Hv;
    [discriminate|].
  destruct (checked (prop body "temperature") _ _ _) as [e|t] eqn:Ht;
    [discriminate|].
  destruct (checked (prop body "max_tokens") _ _ _) as [e|mt] eqn:Hmt;
    [discriminate|].
  destruct (checked (prop body "top_p") _ _ _) as [e|tp] eqn:Htp;
    [discriminate|].
  destruct (checked (prop body "n") _ _ _) as [e|k] eqn:Hn; [discriminate|].
  destruct (checked_stop (prop body "stop")) as [e|st] eqn:Hst;
    [discriminate|].
  intros [= <-]. exists (item :: items). cbn.
  repeat (split; [first [reflexivity | assumption | discriminate]|]).
  reflexivity.
Qed.

Lemma accepted_sound body v :
  validateChatCompletionRequest P body = inr v -> sound v.
Proof.
  intros H. destruct (validate_inversion body v H)
    as (items & _ & _ & Hm & Hs & _ & Hne & Hv & Hmd & _ & _ & Htl & Hfn & Ht
        & Hmt & Htp & Hn & Hst).
  destruct (validateMessages_sound items 0 _ Hv) as [Hall Hlen].
  apply checked_inr in Ht, Hmt, Htp, Hn. apply checked_stop_inr in Hst.
  destruct Ht as [_ Ht], Hmt as [_ Hmt], Htp as [_ Htp], Hn as [_ Hn].
  unfold sound. rewrite Hmd, Htl, Hfn.
  split; [|split; [|split; [|split; [|split; [|split; [|split; [|split;
    [|split]]]]]]]].
  - destruct (prop body "model") as [[ | | | [|c s] | | ]|]; cbn in *;
      discriminate.
  - intros E. rewrite E in Hlen. destruct items; [now apply Hne | discriminate].
  - exact Hall.
  - apply passed_truthy.
  - apply passed_truthy.
  - exact (whenever_impl _ _ _ (outside_within 0 2) Ht).
  - exact (whenever_impl _ _ _ positive_integer_from Hmt).
  - exact (whenever_impl _ _ _ (outside_within 0 1) Htp).
  - exact (whenever_impl _ _ _ one_from Hn).
  - exact (proj1 Hst).
Qed.

(** Every request that [validateChatCompletionRequest] accepts has a
    non-empty model name and at least one message, each message with one
    of the three roles and a non-empty text; [tools] and [functions], when
    kept, are truthy; a temperature lies in [0, 2], [top_p] in [0, 1],
    [max_tokens] is an integer from 1 on, [n] is the integer 1, and a stop
    list has at most four entries. *)
Theorem accepted_request_is_sound body v :
  validateChatCompletionRequest P body = inr v -> sound v.
Proof. apply accepted_sound. Qed.

Lemma message_object_props m :
  prop (message_object m) "role" = Some (JStr (role m))
  /\ prop (message_object m) "content" = Some (JStr (content m)).
Proof. split; reflexivity. Qed.

Lemma validateMessage_object m :
  sound_message m -> validateMessage (message_object m) = inr m.
Proof.
  intros [Hr Hc]. unfold validateMessage.
  destruct (message_object_props m) as [-> ->].
  change (truthy (message_object m)) with true.
  change (is_object (message_object m)) with true.
  cbn [negb orb string_of is_string truthy_opt truthy].
  rewrite (In_includes _ _ Hr).
  destruct m as [r c]. cbn [role content] in *.
  assert (Hne : r <> []).
  { intros ->. cbn in Hr. intuition discriminate. }
  destruct r as [|a r]; [now elim Hne|].
  destruct c as [|b c]; [now elim Hc|]. reflexivity.
Qed.

Lemma validateMessages_objects ms :
  Forall sound_message ms ->
  forall index, validateMessages P index (map message_object ms) = inr ms.
Proof.
  induction 1 as [|m ms Hm _ IH]; intros index; [reflexivity|].
  cbn [map validateMessages]. rewrite (validateMessage_object m Hm).
  now rewrite IH.
Qed.

Lemma request_object_props v :
  prop (request_object v) "model" = Some (JStr (model v))
  /\ prop (request_object v) "messages"
     = Some (JArr (map message_object (messages v)))
  /\ prop (request_object v) "stream" = Some (JBool (stream v))
  /\ prop (request_object v) "enable_tools" = Some (JBool (enable_tools v))
  /\ prop (request_object v) "tools" = tools v
  /\ prop (request_object v) "functions" = functions v
  /\ prop (request_object v) "temperature" = option_map JNum (temperature v)
  /\ prop (request_object v) "max_tokens" = option_map JNum (max_tokens v)
  /\ prop (request_object v) "top_p" = option_map JNum (top_p v)
  /\ prop (request_object v) "n" = option_map JNum (n v)
  /\ prop (request_object v) "stop" = option_map JArr (stop v).
Proof.
  destruct v as [md ms st et t f tm mt tp k sp].
  unfold request_object, prop, numeric, optional.
  cbn [model messages stream enable_tools tools functions temperature
       max_tokens top_p n stop].
  destruct t, f, tm, mt, tp, k, sp; repeat split; reflexivity.
Qed.

Lemma checked_again x bad text where_ :
  whenever x (fun repr => bad repr = false) ->
  checked (option_map JNum x) bad text where_ = inr x.
Proof.
  unfold checked. destruct x as [repr|]; [|reflexivity].
  intros H. cbn. now rewrite (H repr eq_refl).
Qed.

Lemma within_outside lo hi repr : within lo hi repr -> outside lo hi repr = false.
Proof. intros [H1 H2]. unfold outside. now rewrite H1, H2. Qed.

Lemma integer_from_positive repr :
  integer_from 1 repr -> not_positive_integer repr = false.
Proof. intros [H1 H2]. unfold not_positive_integer. now rewrite H1, H2. Qed.

Lemma one_again repr :
  integer_from 1 repr /\ within 1 1 repr -> not_one repr = false.
Proof.
  intros [[H1 H2] [_ H3]]. unfold not_one. now rewrite H1, H2, H3.
Qed.

Lemma passed_again x :
  whenever x (fun w => truthy w = true) -> passed x = x.
Proof.
  unfold passed. destruct x as [w|]; [|reflexivity].
  intros H. cbn. now rewrite (H w eq_refl).
Qed.

Lemma checked_stop_again x :
  (forall items, x = Some items -> List.length items <= 4) ->
  checked_stop (option_map JArr x) = inr x.
Proof.
  destruct x as [items|]; [|reflexivity]. intros H.
  specialize (H items eq_refl). unfold checked_stop, option_map.
  destruct (Nat.ltb 4 (List.length items)) eqn:Hl; [|reflexivity].
  apply Nat.ltb_lt in Hl. lia.
Qed.

(** Validation is a projection: the request it returns, given back to
    it as a body, is accepted and returned unchanged. *)
Theorem validation_is_idempotent body v :
  validateChatCompletionRequest P body = inr v ->
  validateChatCompletionRequest P (request_object v) = inr v.
Proof.
  intros H. apply accepted_sound in H.
  destruct H as (Hmd & Hms & Hall & Htl & Hfn & Ht & Hmt & Htp & Hn & Hst).
  destruct (request_object_props v)
    as (E1 & E2 & E3 & E4 & E5 & E6 & E7 & E8 & E9 & E10 & E11).
  unfold validateChatCompletionRequest.
  rewrite E1, E2, E3, E4, E5, E6, E7, E8, E9, E10, E11.
  change (truthy (request_object v)) with true.
  change (is_object (request_object v)) with true.
  cbn [negb orb is_string truthy_opt truthy string_of].
  destruct (model v) as [|c md] eqn:Emd; [now elim Hmd|]. cbn [negb].
  destruct (messages v) as [|m ms] eqn:Ems; [now elim Hms|].
  cbn [map]. change (message_object m :: map message_object ms)
    with (map message_object (m :: ms)).
  rewrite (validateMessages_objects (m :: ms) Hall 0).
  rewrite (checked_again _ _ _ _ (whenever_impl _ _ _ (within_outside 0 2) Ht)).
  rewrite (checked_again _ _ _ _ (whenever_impl _ _ _ integer_from_positive Hmt)).
  rewrite (checked_again _ _ _ _ (whenever_impl _ _ _ (within_outside 0 1) Htp)).
  rewrite (checked_again _ _ _ _ (whenever_impl _ _ _ one_again Hn)).
  rewrite (passed_again _ Htl), (passed_again _ Hfn).
  rewrite (checked_stop_again _ Hst).
  destruct v; cbn in *. now subst.
Qed.

End Validation.

Lemma accepted_request_is_sound_witness : Wording.sound Samples.hello_request.
Proof.
  exact (accepted_request_is_sound engine Samples.hello Samples.hello_request
           eq_refl).
Defined.

Lemma validation_is_idempotent_witness :
  Models.validateChatCompletionRequest engine
    (Wording.request_object Samples.hello_request)
  = inr Samples.hello_request.
Proof.
  exact (validation_is_idempotent engine Samples.hello Samples.hello_request
           eq_refl).
Defined.


(* ================================================================== *)
(** * The chat handler, end to end                                      *)
(* ================================================================== *)

Section Handler.

Import Models Adapter Process ChatHandler Wording.

Variable P : Platform.

Lemma validateMessages_first_failure good bad rest error :
  Forall acceptable good ->
  validateMessage bad = inl error ->
  forall index,
    validateMessages P index (good ++ bad :: rest)
    = fail (js "Invalid message at index "
            ++ decimal (Z.of_nat (index + List.length good))
            ++ js ": " ++ thrown_message P error)
           (Some (js "messages["
                  ++ decimal (Z.of_nat (index + List.length good)) ++ js "]")).
Proof.
  intros Hg Hb. induction Hg as [|item good [m Hm] _ IH]; intros index.
  - cbn [app validateMessages List.length]. rewrite Hb, Nat.add_0_r.
    reflexivity.
  - cbn [app validateMessages List.length]. rewrite Hm, IH.
    unfold fail. now rewrite Nat.add_succ_r.
Qed.

(** When the messages before position [i] are acceptable and the one at
    [i] is not, the request is rejected with
    [Invalid message at index i: <what validateMessage said>] and field
    [messages[i]], whatever comes after it in the list or in the body. *)
Theorem first_invalid_message_is_reported
        fields c name good bad rest error :
  assoc (js "model") fields = Some (JStr (c :: name)) ->
  assoc (js "messages") fields = Some (JArr (good ++ bad :: rest)) ->
  Forall acceptable good ->
  validateMessage bad = inl error ->
  validateChatCompletionRequest P (JObj fields)
  = inl {| message := js "Invalid message at index "
                      ++ decimal (Z.of_nat (List.length good))
                      ++ js ": " ++ thrown_message P error;
           field := Some (js "messages["
                          ++ decimal (Z.of_nat (List.length good))
                          ++ js "]") |}.
Proof.
  intros Hm Hs Hg Hb. unfold validateChatCompletionRequest, prop.
  rewrite Hm, Hs. cbn [truthy is_object truthy_opt is_string negb orb].
  rewrite (validateMessages_first_failure good bad rest error Hg Hb 0).
  destruct (good ++ bad :: rest) eqn:E; [now destruct good|].
  reflexivity.
Qed.

(** ** The tool gate on a validated request *)

Lemma gate_false_given v :
  tools_requested P (gate_view v) = Ok false ->
  given P (tools v) = Ok false /\ given P (functions v) = Ok false.
Proof.
  unfold tools_requested, gate_view, bind. cbn [Chat.tools Chat.functions].
  destruct (given P (tools v)) as [[|]|e]; try discriminate.
  intros H. now split.
Qed.

Lemma gate_false_options v :
  tools_requested P (gate_view v) = Ok false ->
  exists o, openAIStreamToClaudeOptions P v = Ok o.
Proof.
  intros H. apply gate_false_given in H. destruct H as [H _].
  unfold openAIStreamToClaudeOptions, bind. rewrite H. eexists. reflexivity.
Qed.

Lemma sendError_spawns x status text type :
  spawns (ChatHandler.sendError x status text type) = spawns x.
Proof. reflexivity. Qed.

Lemma caught_spawns x r : spawns (caught x r) = spawns x.
Proof. now destruct r. Qed.

(** The handler starts at most one child, and starts one only for a body
    that passes validation and brings neither tools nor functions. *)
Theorem child_only_for_valid_tool_free_requests w body x :
  spawns (handle P w body x) = spawns x
  \/ (spawns (handle P w body x) = S (spawns x)
      /\ exists b v,
           body = Some b
           /\ validateChatCompletionRequest P b = inr v
           /\ tools_requested P (gate_view v) = Ok false).
Proof.
  unfold handle.
  destruct body as [b|]; [|now left].
  destruct (validateChatCompletionRequest P b) as [e|v] eqn:Hv; [now left|].
  assert (Hgoal : forall x' : exchange,
             (spawns x' = spawns x
              \/ (spawns x' = S (spawns x)
                  /\ tools_requested P (gate_view v) = Ok false)) ->
             spawns x' = spawns x
             \/ (spawns x' = S (spawns x)
                 /\ exists b0 v0,
                      Some b = Some b0
                      /\ validateChatCompletionRequest P b0 = inr v0
                      /\ tools_requested P (gate_view v0) = Ok false)).
  { intros x' [H|[H G]]; [now left|].
    right. split; [exact H|]. now exists b, v. }
  destruct (Models.stream v).
  - assert (Hs : spawns (fst (handleStreamingRequest P w v x)) = spawns x
                 \/ (spawns (fst (handleStreamingRequest P w v x))
                     = S (spawns x)
                     /\ tools_requested P (gate_view v) = Ok false)).
    { unfold handleStreamingRequest.
      destruct (tools_requested P (gate_view v)) as [[|]|e] eqn:Hg;
        [now left | | now left].
      destruct (openAIStreamToClaudeOptions P v) as [o|e]; [|now left].
      destruct (buildClaudeArgs P (files w) _) as [a|e].
      - destruct (starts w); [|right; now split].
        destruct (processClaudeStream P true (loop_events w) _) as [m r].
        right. now split.
      - destruct (processClaudeStream P true [SourceError e] _) as [m r].
        now left. }
    destruct (handleStreamingRequest P w v x) as [x' [r|]]; cbn [fst] in Hs;
      apply Hgoal; [|exact Hs].
    now rewrite caught_spawns.
  - assert (Hs : spawns (fst (handleNonStreamingRequest P w v x)) = spawns x
                 \/ (spawns (fst (handleNonStreamingRequest P w v x))
                     = S (spawns x)
                     /\ tools_requested P (gate_view v) = Ok false)).
    { unfold handleNonStreamingRequest.
      destruct (tools_requested P (gate_view v)) as [[|]|e] eqn:Hg;
        [now left | | now left].
      destruct (openAIStreamToClaudeOptions P v) as [o|e]; [|now left].
      unfold completion.
      destruct (buildClaudeArgs P (files w) _) as [[a f]|e]; [|now left].
      destruct (execute (child_stdout w) (child_exit w)) as [output|e];
        cbn [bind]; right; now split. }
    destruct (handleNonStreamingRequest P w v x) as [x' r]; cbn [fst] in Hs.
    apply Hgoal. now rewrite caught_spawns.
Qed.

Lemma sendError_answered x status text type :
  answered (ChatHandler.sendError x status (js text) (js type)) status
    (error_body text type).
Proof. repeat split. Qed.

(** A body that passes validation and brings a non-empty [tools] list,
    or no [tools] and a non-empty [functions] list, is answered 400 with
    [Tool/function calling is not supported], streaming or not; no child
    is started and nothing is written to the response stream. *)
Theorem request_with_tools_is_refused w b v x t ts :
  validateChatCompletionRequest P b = inr v ->
  prop b "tools" = Some (JArr (t :: ts))
  \/ (prop b "tools" = None /\ prop b "functions" = Some (JArr (t :: ts))) ->
  answered (handle P w (Some b) x) 400
    (error_body not_supported "invalid_request_error")
  /\ spawns (handle P w (Some b) x) = spawns x
  /\ wire (response (handle P w (Some b) x)) = wire (response x).
Proof.
  intros Hv Ht. unfold handle. rewrite Hv.
  destruct (validate_inversion P b v Hv)
    as (_ & _ & _ & _ & _ & _ & _ & _ & _ & _ & _ & Htl & Hfn & _).
  assert (Hg : tools_requested P (gate_view v) = Ok true).
  { unfold tools_requested, gate_view, bind. cbn [Chat.tools Chat.functions].
    rewrite Htl, Hfn.
    destruct Ht as [-> | [-> ->]]; reflexivity. }
  unfold handleStreamingRequest, handleNonStreamingRequest. rewrite Hg.
  destruct (Models.stream v); repeat split.
Qed.

Lemma execute_failure out ending :
  ending <> Exited 0 -> exists e, execute out ending = Throw e.
Proof.
  intros H. destruct ending as [[|p|p] | | text]; cbn;
    try (eexists; reflexivity). now elim H.
Qed.

(** When the child of a non-streaming request does not end with exit
    code 0, the answer is 500 with the fixed message
    [Internal server error]: neither the exit code nor the output of the
    child is disclosed. *)
Theorem failed_completion_is_an_internal_error w b v x :
  validateChatCompletionRequest P b = inr v ->
  Models.stream v = false ->
  tools_requested P (gate_view v) = Ok false ->
  child_exit w <> Exited 0 ->
  answered (handle P w (Some b) x) 500
    (error_body "Internal server error" "internal_error").
Proof.
  intros Hv Hs Hg He. unfold handle. rewrite Hv, Hs.
  unfold handleNonStreamingRequest. rewrite Hg.
  destruct (gate_false_options v Hg) as [o ->].
  unfold completion.
  destruct (buildClaudeArgs P (files w) _) as [[a f]|e];
    [|apply sendError_answered].
  destruct (execute_failure (child_stdout w) _ He) as [e ->].
  apply sendError_answered.
Qed.

Lemma buildClaudeArgs_written fs o :
  writeFileSync fs = None -> exists r, buildClaudeArgs P fs o = Ok r.
Proof.
  intros H. unfold buildClaudeArgs, createSystemPromptFile, bind. rewrite H.
  destruct (truthy_string (systemPrompt_ o)); eexists; reflexivity.
Qed.

Lemma or_empty text :
  (if truthy (JStr text) then JStr text else JStr []) = JStr text.
Proof. now destruct text. Qed.

(** When the temporary file can be written and the child of a
    non-streaming request ends with exit code 0, the answer is 200 with
    one choice whose content is the cleaned output of the child (all of
    its standard output, through [filterAndCleanContent]), with
    [finish_reason] ['stop'] and without tool calls; the usage counts are
    the estimates for the prompt and for that content.  A child that
    prints nothing is answered the same way, with an empty content. *)
Theorem completion_is_cleaned_and_wrapped w b v x :
  validateChatCompletionRequest P b = inr v ->
  Models.stream v = false ->
  tools_requested P (gate_view v) = Ok false ->
  writeFileSync (files w) = None ->
  child_exit w = Exited 0 ->
  let text := filterAndCleanContent (List.concat (child_stdout w)) in
  answered (handle P w (Some b) x) 200
    (chat_completion (js "chatcmpl-" ++ randomBytes w) (seconds w)
       (Models.model v) text
       (estimateTokens
          (JStr (prompt (messagesToClaudePrompt (messages v)))))
       (estimateTokens (JStr text)))
  /\ spawns (handle P w (Some b) x) = S (spawns x).
Proof.
  intros Hv Hs Hg Hw He text. unfold handle. rewrite Hv, Hs.
  unfold handleNonStreamingRequest. rewrite Hg.
  destruct (gate_false_options v Hg) as [o ->].
  unfold completion.
  destruct (buildClaudeArgs_written (files w)
              (prepared o (systemPrompt (messagesToClaudePrompt (messages v)))
                 false) Hw) as [[a f] ->].
  rewrite He. cbn [execute bind].
  unfold claudeResponseToOpenAI.
  cbn [answer tool_calls].
  assert (Ep : parseClaudeOutput (List.concat (child_stdout w)) = text).
  { unfold parseClaudeOutput, text.
    now destruct (List.concat (child_stdout w)). }
  rewrite Ep, or_empty. repeat split.
Qed.

End Handler.

Lemma first_invalid_message_is_reported_witness :
  Models.validateChatCompletionRequest engine (JObj Samples.second_is_null)
  = inl {| Models.message :=
             js "Invalid message at index 1: Message must be an object";
           Models.field := Some (js "messages[1]") |}.
Proof.
  refine (first_invalid_message_is_reported engine Samples.second_is_null
            _ _ [Samples.hi] JNull [] _ eq_refl eq_refl _ eq_refl).
  constructor; [|constructor]. eexists. reflexivity.
Defined.

Lemma request_with_tools_is_refused_witness :
  Wording.answered
    (ChatHandler.handle engine Samples.fine (Some Samples.hello_tools) untouched)
    400 (Wording.error_body not_supported "invalid_request_error").
Proof.
  refine (proj1 (request_with_tools_is_refused engine Samples.fine
                   Samples.hello_tools _ untouched _ [] _ _)).
  - reflexivity.
  - left. reflexivity.
Defined.

Lemma failed_completion_is_an_internal_error_witness :
  Wording.answered
    (ChatHandler.handle engine Samples.failing (Some Samples.hello) untouched)
    500 (Wording.error_body "Internal server error" "internal_error").
Proof.
  refine (failed_completion_is_an_internal_error engine Samples.failing
            Samples.hello Samples.hello_request untouched eq_refl eq_refl
            eq_refl _).
  discriminate.
Defined.

Lemma completion_is_cleaned_and_wrapped_witness :
  Wording.answered
    (ChatHandler.handle engine Samples.fine (Some Samples.hello) untouched)
    200
    (Wording.chat_completion
       (js "chatcmpl-00112233445566778899aabbccddeeff") 1700000000
       (js "any") (js "Hello there") 3 3).
Proof.
  exact (proj1 (completion_is_cleaned_and_wrapped engine Samples.fine
                  Samples.hello Samples.hello_request untouched
                  eq_refl eq_refl eq_refl eq_refl eq_refl)).
Defined.

(* ================================================================== *)
(** * Prompts and command lines                                         *)
(* ================================================================== *)

Section Prompts.

Import Models Adapter Process Wording.

Lemma collect_spec ms :
  forall system conversation,
    collect ms system conversation
    = (system ++ List.concat (map system_line (filter is_system ms)),
       conversation
       ++ List.concat (map turn (filter (fun m => negb (is_system m)) ms))).
Proof.
  induction ms as [|m ms IH]; intros system conversation.
  - cbn. now rewrite !app_nil_r.
  - cbn [collect filter].
    change (jstring_eqb (role m) (js "system")) with (is_system m).
    destruct (is_system m) eqn:Es.
    + rewrite IH. cbn [negb map List.concat]. unfold system_line at 2.
      now rewrite <- !app_assoc.
    + cbn [negb map List.concat].
      assert (Et : turn m
                   = if jstring_eqb (role m) (js "user") then
                       js "Human: " ++ content m ++ [10%N; 10%N]
                     else if jstring_eqb (role m) (js "assistant") then
                       js "Assistant: " ++ content m ++ [10%N; 10%N]
                     else []) by reflexivity.
      rewrite Et.
      destruct (jstring_eqb (role m) (js "user")) eqn:Eu.
      * rewrite IH. now rewrite <- !app_assoc.
      * destruct (jstring_eqb (role m) (js "assistant")) eqn:Ea.
        -- rewrite IH. now rewrite <- !app_assoc.
        -- rewrite IH. reflexivity.
Qed.

Lemma gather_collect ms :
  forall system conversation,
    gather ms system conversation = collect ms system conversation.
Proof.
  induction ms as [|m ms IH]; intros system conversation; [reflexivity|].
  cbn [gather collect].
  destruct (jstring_eqb (role m) (js "system")); [apply IH|].
  destruct (jstring_eqb (role m) (js "user")); [apply IH|].
  destruct (jstring_eqb (role m) (js "assistant")); apply IH.
Qed.

(** A system message has the same effect wherever it stands: two
    conversations with the same system messages in the same order, the
    same other messages in the same order, and last messages that are
    both from the user or both not, give the same system prompt and the
    same prompt. *)
Theorem system_messages_are_hoisted ms ms' :
  filter is_system ms = filter is_system ms' ->
  filter (fun m => negb (is_system m)) ms
  = filter (fun m => negb (is_system m)) ms' ->
  not_user (lastMessage ms) = not_user (lastMessage ms') ->
  messagesToClaudePrompt ms = messagesToClaudePrompt ms'.
Proof.
  intros Hs Hc Hl. unfold messagesToClaudePrompt.
  rewrite !collect_spec, Hs, Hc. unfold closing. now rewrite Hl.
Qed.

(** [ClaudeCLI.messagesToPrompt], which no handler calls, builds for
    every conversation the system prompt and the prompt that
    [MessageAdapter.messagesToClaudePrompt] builds without tools. *)
Theorem prompt_builders_agree ms :
  messagesToPrompt ms = messagesToClaudePrompt ms.
Proof.
  unfold messagesToPrompt, messagesToClaudePrompt. now rewrite gather_collect.
Qed.

(** The text of one user message can stand for a whole conversation: a
    blank line followed by [Assistant: ] or [Human: ] inside it reads as
    the start of a turn. *)
Theorem turns_can_be_forged a b c :
  messagesToClaudePrompt
    [user (a ++ [10%N; 10%N] ++ js "Assistant: " ++ b
           ++ [10%N; 10%N] ++ js "Human: " ++ c)]
  = messagesToClaudePrompt [user a; assistant b; user c].
Proof.
  unfold messagesToClaudePrompt.
  set (forged := a ++ [10%N; 10%N] ++ js "Assistant: " ++ b
                 ++ [10%N; 10%N] ++ js "Human: " ++ c).
  assert (E1 : collect [user forged] [] []
               = ([], js "Human: " ++ forged ++ [10%N; 10%N]))
    by reflexivity.
  assert (E2 : collect [user a; assistant b; user c] [] []
               = ([], ((js "Human: " ++ a ++ [10%N; 10%N])
                       ++ js "Assistant: " ++ b ++ [10%N; 10%N])
                      ++ js "Human: " ++ c ++ [10%N; 10%N]))
    by reflexivity.
  rewrite E1, E2. unfold closing.
  change (not_user (lastMessage [user forged])) with false.
  change (not_user (lastMessage [user a; assistant b; user c])) with false.
  cbv iota. f_equal. f_equal. subst forged.
  rewrite <- !app_assoc. reflexivity.
Qed.

(** ** The prompt is never empty *)

Lemma turn_clean m : starts_clean (turn m).
Proof.
  unfold turn. destruct (jstring_eqb _ _); [reflexivity|].
  destruct (jstring_eqb _ _); reflexivity.
Qed.

Lemma starts_clean_app a b :
  starts_clean a -> starts_clean b -> starts_clean (a ++ b).
Proof. destruct a; cbn; auto. Qed.

Lemma concat_clean (l : list jstring) :
  Forall starts_clean l -> starts_clean (List.concat l).
Proof.
  induction 1 as [|a l Ha _ IH]; [exact I|].
  cbn [List.concat]. now apply starts_clean_app.
Qed.

Lemma conversation_clean (ms : list Message) :
  starts_clean (List.concat (map turn ms)).
Proof.
  apply concat_clean, Forall_forall. intros t Ht.
  apply in_map_iff in Ht. destruct Ht as (m & <- & _). apply turn_clean.
Qed.

Lemma trimStart_rev_nonempty s c :
  is_space c = false -> trimStart (s ++ [c]) <> [].
Proof.
  intros Hc. induction s as [|d s IH]; cbn.
  - rewrite Hc. discriminate.
  - destruct (is_space d); [exact IH | discriminate].
Qed.

Lemma trim_nonempty c s : is_space c = false -> trim (c :: s) <> [].
Proof.
  intros Hc. unfold trim. cbn [trimStart]. rewrite Hc.
  unfold trimEnd. cbn [rev]. intros E.
  apply (f_equal (@rev N)) in E. rewrite rev_involutive in E. cbn in E.
  now apply (trimStart_rev_nonempty (rev s) c Hc).
Qed.

Lemma clean_trim_nonempty s : s <> [] -> starts_clean s -> trim s <> [].
Proof.
  destruct s as [|c s]; [now intros H|]. intros _ Hc. now apply trim_nonempty.
Qed.

Lemma lastMessage_app (ms : list Message) m : lastMessage (ms ++ [m]) = Some m.
Proof.
  unfold lastMessage. rewrite length_app. cbn [List.length].
  replace (List.length ms + 1 - 1) with (List.length ms) by lia.
  rewrite nth_error_app2 by lia. now rewrite Nat.sub_diag.
Qed.

(** For every conversation with at least one message, whatever its
    roles, the prompt is not empty and starts with no white space: the
    prompt is always written to the standard input of the child. *)
Theorem prompt_is_never_empty ms :
  ms <> [] ->
  prompt (messagesToClaudePrompt ms) <> []
  /\ starts_clean (prompt (messagesToClaudePrompt ms))
  /\ written (prompt (messagesToClaudePrompt ms))
     = Some (prompt (messagesToClaudePrompt ms)).
Proof.
  intros Hne.
  assert (H : prompt (messagesToClaudePrompt ms) <> []
              /\ starts_clean (prompt (messagesToClaudePrompt ms))).
  { unfold messagesToClaudePrompt. rewrite collect_spec.
    unfold closing. cbn [prompt app].
    set (conv := List.concat (map turn (filter _ ms))).
    assert (Hc : starts_clean conv) by apply conversation_clean.
    destruct (not_user (lastMessage ms)) eqn:Hl.
    - assert (Hs : starts_clean
                     (conv ++ js "Human: Please continue." ++ [10%N; 10%N]))
        by (apply starts_clean_app; [exact Hc | reflexivity]).
      split.
      + apply clean_trim_nonempty; [|exact Hs]. now destruct conv.
      + unfold trim. rewrite (trimStart_id _ Hs). now apply trimEnd_clean.
    - assert (Hn : conv <> []).
      { destruct (exists_last Hne) as (front & m & ->).
        rewrite lastMessage_app in Hl. cbn [not_user] in Hl.
        apply negb_false_iff in Hl. subst conv.
        rewrite filter_app, map_app, concat_app. cbn [filter].
        assert (Er : role m = js "user").
        { unfold jstring_eqb in Hl.
          now destruct (list_eq_dec N.eq_dec (role m) (js "user")). }
        assert (Ei : is_system m = false) by (unfold is_system; now rewrite Er).
        rewrite Ei.
        cbn [negb map List.concat]. unfold turn. rewrite Er.
        change (jstring_eqb (js "user") (js "user")) with true.
        intros E. apply app_eq_nil in E. destruct E as [_ E]. discriminate. }
      split.
      + now apply clean_trim_nonempty.
      + unfold trim. rewrite (trimStart_id _ Hc). now apply trimEnd_clean. }
  destruct H as [H1 H2]. repeat split; [exact H1 | exact H2 |].
  unfold written. now destruct (prompt (messagesToClaudePrompt ms)).
Qed.

(** ** The command line *)

Variable P : Platform.

(** The command line of the child depends on the request only through
    its system messages: it is [--print], preceded by
    [--system-prompt-file <file>] when there is a system prompt and
    followed by [--output-format stream-json --verbose] when streaming.
    Neither the model nor [max_tokens], [temperature], [top_p] or [stop]
    of the request reaches it. *)
Theorem sampling_parameters_never_reach_the_cli fs v o system streaming :
  openAIStreamToClaudeOptions P v = Ok o ->
  buildClaudeArgs P fs (prepared o system streaming)
  = match truthy_string system with
    | Some _ =>
        file <- createSystemPromptFile P fs ;;
        Ok ([js "--system-prompt-file"; file; js "--print"]
            ++ (if streaming
                then [js "--output-format"; js "stream-json"; js "--verbose"]
                else []),
            Some file)
    | None =>
        Ok ([js "--print"]
            ++ (if streaming
                then [js "--output-format"; js "stream-json"; js "--verbose"]
                else []),
            None)
    end.
Proof.
  unfold openAIStreamToClaudeOptions, bind.
  destruct (given P (tools v)) as [[|]|e]; try discriminate.
  - destruct (tools v) as [[ | | | | items | ]|]; try discriminate.
    destruct (toolNames items); [|discriminate].
    intros [= <-]. unfold buildClaudeArgs, prepared, bind.
    cbn [systemPrompt_ Adapter.model maxTurns Adapter.stream allowedTools
         disallowedTools permissionMode mapModelName truthy_string text_if
         nonempty].
    destruct (truthy_string system); [|now rewrite app_nil_r].
    destruct (createSystemPromptFile P fs); [|reflexivity].
    cbn [text_if app]. now rewrite app_nil_r.
  - intros [= <-]. unfold buildClaudeArgs, prepared, bind.
    cbn [systemPrompt_ Adapter.model maxTurns Adapter.stream allowedTools
         disallowedTools permissionMode mapModelName truthy_string text_if
         nonempty].
    destruct (truthy_string system); [|now rewrite app_nil_r].
    destruct (createSystemPromptFile P fs); [|reflexivity].
    cbn [text_if app]. now rewrite app_nil_r.
Qed.

End Prompts.

Lemma system_messages_are_hoisted_witness :
  Adapter.messagesToClaudePrompt
    [Wording.user (js "Hi");
     {| Models.role := js "system"; Models.content := js "Be brief." |};
     Wording.user (js "Why?")]
  = Adapter.messagesToClaudePrompt
      [{| Models.role := js "system"; Models.content := js "Be brief." |};
       Wording.user (js "Hi");
       Wording.user (js "Why?")].
Proof.
  exact (system_messages_are_hoisted _ _ eq_refl eq_refl eq_refl).
Defined.

Lemma prompt_is_never_empty_witness :
  Process.written
    (Adapter.prompt
       (Adapter.messagesToClaudePrompt
          [{| Models.role := js "system"; Models.content := js "Be brief." |}]))
  = Some (js "Human: Please continue.").
Proof.
  refine (proj2 (proj2 (prompt_is_never_empty
                          [{| Models.role := js "system";
                              Models.content := js "Be brief." |}] _))).
  discriminate.
Defined.

Lemma sampling_parameters_never_reach_the_cli_witness :
  Process.buildClaudeArgs engine (ChatHandler.files Samples.fine)
    (Adapter.prepared Samples.hello_options None true)
  = Ok ([js "--print"; js "--output-format"; js "stream-json"; js "--verbose"],
        None).
Proof.
  exact (sampling_parameters_never_reach_the_cli engine
           (ChatHandler.files Samples.fine) Samples.hello_request
           Samples.hello_options None true eq_refl).
Defined.

(* ================================================================== *)
(** * Routing, configuration and logging                                *)
(* ================================================================== *)

Section ServerProofs.

Import Models ChatHandler Server Wording.

Lemma jstring_eqb_eq a b : jstring_eqb a b = true <-> a = b.
Proof.
  unfold jstring_eqb. destruct (list_eq_dec N.eq_dec a b); split;
    intros H; try reflexivity; try assumption; try discriminate.
  now elim n.
Qed.

Lemma rmatch_literal l :
  forall s n, rmatch (map (fun c => One (Lit c)) l) s = Some n ->
              n = List.length l /\ exists t, s = l ++ t.
Proof.
  induction l as [|c l IH]; intros s n; cbn [map rmatch].
  - intros [= <-]. split; [reflexivity | now exists s].
  - destruct s as [|d s]; [discriminate|]. cbn [cmatch].
    destruct (N.eqb d c) eqn:E; [|discriminate].
    apply N.eqb_eq in E. subst d.
    destruct (rmatch (map (fun c => One (Lit c)) l) s) as [k|] eqn:Hk;
      [|discriminate].
    intros [= <-]. destruct (IH s k Hk) as [-> [t ->]].
    split; [reflexivity | now exists t].
Qed.

Lemma rmatch_literal_self l :
  rmatch (map (fun c => One (Lit c)) l) l = Some (List.length l).
Proof.
  induction l as [|c l IH]; [reflexivity|].
  cbn [map rmatch cmatch]. now rewrite N.eqb_refl, IH.
Qed.

Lemma matched_path path pathname :
  matched (pathToPattern path) pathname = true <-> pathname = js path.
Proof.
  unfold matched, pathToPattern, chars. split.
  - destruct (rmatch _ pathname) as [n|] eqn:H; [|discriminate].
    destruct (rmatch_literal _ _ _ H) as [-> [t ->]].
    intros E. apply Nat.eqb_eq in E. rewrite length_app in E.
    destruct t; [now rewrite app_nil_r | cbn in E; lia].
  - intros ->. rewrite rmatch_literal_self. apply Nat.eqb_refl.
Qed.

(** The router serves exactly three method and path pairs: a path must
    equal the registered one, code unit for code unit, and the method
    must be the one it was registered for. *)
Theorem routes_are_exact method pathname e :
  route method pathname = Some e
  <-> (method = js "POST" /\ pathname = js "/v1/chat/completions"
       /\ e = ChatCompletions)
      \/ (method = js "GET" /\ pathname = js "/v1/models" /\ e = ModelsList)
      \/ (method = js "GET" /\ pathname = js "/health" /\ e = Health).
Proof.
  unfold route, routes. cbn [table_of]. split.
  - destruct (jstring_eqb method (js "GET")) eqn:Eg.
    + apply jstring_eqb_eq in Eg. cbn [first_match].
      destruct (matched (pathToPattern "/v1/models") pathname) eqn:E1.
      * apply matched_path in E1. intros [= <-]. right. now left.
      * destruct (matched (pathToPattern "/health") pathname) eqn:E2;
          [|discriminate].
        apply matched_path in E2. intros [= <-]. right. now right.
    + destruct (jstring_eqb method (js "POST")) eqn:Ep.
      * apply jstring_eqb_eq in Ep. cbn [first_match].
        destruct (matched (pathToPattern "/v1/chat/completions") pathname)
          eqn:E1; [|discriminate].
        apply matched_path in E1. intros [= <-]. now left.
      * destruct (jstring_eqb method (js "PUT")); [discriminate|].
        destruct (jstring_eqb method (js "DELETE")); [discriminate|].
        destruct (jstring_eqb method (js "PATCH")); discriminate.
  - intros [(-> & -> & ->) | [(-> & -> & ->) | (-> & -> & ->)]]; reflexivity.
Qed.

Variable P : Platform.

(** A request whose method is not [OPTIONS], whose body (when the method
    brings one) is empty or parses, and whose method and path are not
    one of the three routes, is answered 404 with code ["404"]. *)
Theorem unrouted_request_is_not_found w method pathname text x :
  method <> js "OPTIONS" ->
  route method pathname = None ->
  includes [js "POST"; js "PUT"; js "PATCH"] method = false
  \/ text = [] \/ JSON_parse P text <> None ->
  answered (handleRequest P w method pathname text x) 404
    (server_error_body 404 "Not Found" "not_found")
  /\ spawns (handleRequest P w method pathname text x) = spawns x.
Proof.
  intros Hm Hr Hb. unfold handleRequest.
  destruct (jstring_eqb method (js "OPTIONS")) eqn:Eo;
    [now apply jstring_eqb_eq in Eo|].
  rewrite Hr.
  destruct (includes [js "POST"; js "PUT"; js "PATCH"] method) eqn:Ei.
  - destruct Hb as [Hb | [-> | Hb]]; [discriminate | now repeat split |].
    unfold parseRequestBody, bind. destruct text as [|c text];
      [now repeat split|].
    destruct (JSON_parse P (c :: text)); [now repeat split | now elim Hb].
  - now repeat split.
Qed.

(** A [POST], [PUT] or [PATCH] request whose body is not empty and is
    not JSON text is answered 500 with [Internal Server Error], whatever
    its path: the body is parsed before the request is routed. *)
Theorem malformed_body_is_a_server_error w method pathname text x :
  includes [js "POST"; js "PUT"; js "PATCH"] method = true ->
  text <> [] ->
  JSON_parse P text = None ->
  answered (handleRequest P w method pathname text x) 500
    (server_error_body 500 "Internal Server Error" "internal_error")
  /\ spawns (handleRequest P w method pathname text x) = spawns x.
Proof.
  intros Hi Hne Hp. unfold handleRequest.
  destruct (jstring_eqb method (js "OPTIONS")) eqn:Eo.
  { apply jstring_eqb_eq in Eo. subst. discriminate. }
  rewrite Hi. unfold parseRequestBody, bind.
  destruct text as [|c text]; [now elim Hne|]. rewrite Hp. now repeat split.
Qed.

End ServerProofs.

Section ConfigProofs.

Import Config Wording.

Lemma split_before_equals s :
  exists rest, split 61 s = before_equals s :: rest.
Proof.
  induction s as [|c s [rest IH]]; cbn [split before_equals].
  - now exists [].
  - destruct (N.eqb c 61); [now eexists|]. rewrite IH. now eexists.
Qed.

Lemma split_key k s :
  ~ In 61%N k -> split 61 (k ++ 61%N :: s) = k :: split 61 s.
Proof.
  induction k as [|c k IH]; intros Hk; cbn [app split].
  - reflexivity.
  - destruct (N.eqb c 61) eqn:E.
    + apply N.eqb_eq in E. elim Hk. now left.
    + rewrite IH; [reflexivity|]. intros Hin. apply Hk. now right.
Qed.

(** A line of the [.env] file that reads [key=value] once trimmed, with
    a key that is not empty, has no [=] and does not start with [#],
    assigns the trimmed key the trimmed text between the first [=] and
    the second, if there is a second: the rest of the value is dropped. *)
Theorem env_value_ends_at_the_second_equals line k v :
  trim line = k ++ 61%N :: v ->
  k <> [] ->
  ~ In 61%N k ->
  is_comment k = false ->
  assignment line = Some (trim k, trim (before_equals v)).
Proof.
  intros Ht Hne Hk Hc. unfold assignment. rewrite Ht.
  destruct k as [|c k]; [now elim Hne|].
  cbn [app]. cbn [is_comment] in *. rewrite Hc.
  change (c :: k ++ 61%N :: v) with ((c :: k) ++ 61%N :: v).
  rewrite (split_key _ _ Hk).
  destruct (split_before_equals v) as [rest ->]. reflexivity.
Qed.

Lemma getenv_fold name lines :
  forall env,
    getenv name
      (fold_left (fun env line =>
                    match assignment line with
                    | Some binding => binding :: env
                    | None => env
                    end) lines env)
    = match assigned name lines with
      | Some value => Some value
      | None => getenv name env
      end.
Proof.
  induction lines as [|line lines IH]; intros env; [reflexivity|].
  cbn [fold_left assigned]. rewrite IH.
  destruct (assigned name lines); [reflexivity|].
  destruct (assignment line) as [[k value]|]; [|reflexivity].
  cbn [getenv]. now destruct (jstring_eqb name k).
Qed.

(** A variable read after [loadEnv] has the value that the last line
    of the [.env] file assigning it gives, and only when no line
    assigns it the value inherited from the environment: the file
    overrides the environment. *)
Theorem dotenv_overrides_the_environment name text env :
  getenv name (loadEnv (Some text) env)
  = match assigned name (split 10 text) with
    | Some value => Some value
    | None => getenv name env
    end.
Proof. unfold loadEnv. apply getenv_fold. Qed.

(** [loadConfig] accepts a port from 1 to 65535, and it also accepts a
    [PORT] in which [parseInt] finds no number: the comparisons of
    [validateConfig] are both false of [NaN]. *)
Theorem port_is_in_range_or_not_a_number env :
  (forall c p, loadConfig env = inr c -> port c = Some p ->
               (1 <= p <= 65535)%Z)
  /\ (forall text, getenv (js "PORT") env = Some text -> text <> [] ->
                   parseInt text = None ->
                   exists c, loadConfig env = inr c /\ port c = None).
Proof.
  split.
  - intros c p. unfold loadConfig, validateConfig. cbn [port].
    destruct (parseInt _) as [q|] eqn:Hq.
    + destruct ((q <? 1)%Z || (65535 <? q)%Z) eqn:Hb; [discriminate|].
      intros [= <-]. cbn [port]. intros [= <-].
      apply orb_false_iff in Hb. destruct Hb as [H1 H2].
      apply Z.ltb_ge in H1, H2. lia.
    + intros [= <-]. cbn [port]. discriminate.
  - intros text Hg Hne Hp. unfold loadConfig, validateConfig. cbn [port].
    rewrite Hg. destruct text as [|c text]; [now elim Hne|].
    rewrite Hp. eexists. split; reflexivity.
Qed.

End ConfigProofs.

Section LoggerProofs.

Import Logger.

(** [sanitizeHeaders] keeps every header name in place, leaves every
    header other than [authorization] and [cookie] as it is, and leaves
    no truthy [authorization] or [cookie] value other than
    [[REDACTED]]. *)
Theorem sanitizeHeaders_hides_credentials headers :
  map fst (sanitizeHeaders headers) = map fst headers
  /\ (forall name value,
        In (name, value) (sanitizeHeaders headers) ->
        name = js "authorization" \/ name = js "cookie" ->
        value = redacted \/ truthy value = false)
  /\ (forall name value,
        name <> js "authorization" -> name <> js "cookie" ->
        (In (name, value) (sanitizeHeaders headers)
         <-> In (name, value) headers)).
Proof.
  unfold sanitizeHeaders. split; [|split].
  - rewrite map_map. apply map_ext. intros [name value]. cbn [fst snd].
    now destruct ((_ || _) && truthy value).
  - intros name value Hin Hname. apply in_map_iff in Hin.
    destruct Hin as ([k w] & E & _). cbn [fst snd] in E.
    destruct ((jstring_eqb k (js "authorization")
               || jstring_eqb k (js "cookie")) && truthy w) eqn:Hc.
    + injection E as <- <-. now left.
    + injection E as <- <-. right.
      apply andb_false_iff in Hc. destruct Hc as [Hc|Hc]; [|exact Hc].
      apply orb_false_iff in Hc. destruct Hc as [H1 H2].
      destruct Hname as [-> | ->].
      * now rewrite jstring_eqb_refl in H1.
      * now rewrite jstring_eqb_refl in H2.
  - intros name value Ha Hc. rewrite in_map_iff. split.
    + intros ([k w] & E & Hin). cbn [fst snd] in E.
      destruct ((jstring_eqb k (js "authorization")
                 || jstring_eqb k (js "cookie")) && truthy w) eqn:Hcond.
      * injection E as <- <-.
        apply andb_true_iff in Hcond. destruct Hcond as [Hcond _].
        apply orb_true_iff in Hcond.
        destruct Hcond as [H|H]; apply jstring_eqb_eq in H; contradiction.
      * now injection E as <- <-.
    + intros Hin. exists (name, value). split; [|exact Hin]. cbn [fst snd].
      assert (E1 : jstring_eqb name (js "authorization") = false).
      { destruct (jstring_eqb name (js "authorization")) eqn:E;
          [apply jstring_eqb_eq in E; contradiction | reflexivity]. }
      assert (E2 : jstring_eqb name (js "cookie") = false).
      { destruct (jstring_eqb name (js "cookie")) eqn:E;
          [apply jstring_eqb_eq in E; contradiction | reflexivity]. }
      now rewrite E1, E2.
Qed.

End LoggerProofs.

Lemma unrouted_request_is_not_found_witness :
  Wording.answered
    (Server.handleRequest engine Samples.fine (js "GET")
       (js "/v1/chat/completions") [] untouched)
    404 (Wording.server_error_body 404 "Not Found" "not_found").
Proof.
  refine (proj1 (unrouted_request_is_not_found engine Samples.fine (js "GET")
                   (js "/v1/chat/completions") [] untouched _ eq_refl _)).
  - discriminate.
  - left. reflexivity.
Defined.

Lemma malformed_body_is_a_server_error_witness :
  Wording.answered
    (Server.handleRequest engine Samples.fine (js "POST")
       (js "/v1/chat/completions") (js "{") untouched)
    500 (Wording.server_error_body 500 "Internal Server Error" "internal_error").
Proof.
  refine (proj1 (malformed_body_is_a_server_error engine Samples.fine
                   (js "POST") (js "/v1/chat/completions") (js "{") untouched
                   eq_refl _ eq_refl)).
  discriminate.
Defined.

Lemma env_value_ends_at_the_second_equals_witness :
  Config.assignment (js " TOKEN = abc=def ") = Some (js "TOKEN", js "abc").
Proof.
  refine (env_value_ends_at_the_second_equals (js " TOKEN = abc=def ")
            (js "TOKEN ") (js " abc=def") eq_refl _ _ eq_refl).
  - discriminate.
  - cbn. intuition discriminate.
Defined.

(* ================================================================== *)
(** * Cleaning, counting and streaming                                  *)
(* ================================================================== *)

Section Cleaning.

Import Models Adapter Wording.

(** Whatever the child printed, the cleaned content has no white space
    around it and no run of blank lines in it. *)
Theorem cleaned_content_is_tidy text :
  trim (filterAndCleanContent text) = filterAndCleanContent text
  /\ matches_in re_blank_lines (filterAndCleanContent text) = false.
Proof.
  destruct text as [|c text]; [split; reflexivity|].
  cbn [filterAndCleanContent]. split.
  - apply trim_idempotent.
  - apply trim_keeps_settled.
    eapply proj1, (collapse_settles _ _ (le_n _)).
Qed.

Lemma quarter_bounds text :
  List.length text <= 4 * quarter text < List.length text + 4.
Proof.
  unfold quarter.
  pose proof (Nat.div_mod_eq (List.length text + 3) 4) as E.
  pose proof (Nat.mod_upper_bound (List.length text + 3) 4) as B.
  lia.
Qed.

(** The token estimate of a non-empty string is its length divided by
    four, rounded up, so at least 1; the empty string counts 0; and the
    total of a usage record is the sum of its two estimates. *)
Theorem usage_is_a_quarter_of_the_length p c :
  let usage := createUsageStats (JStr p) (JStr c) in
  total_tokens usage = prompt_tokens usage + completion_tokens usage
  /\ List.length p <= 4 * prompt_tokens usage < List.length p + 4
  /\ List.length c <= 4 * completion_tokens usage < List.length c + 4
  /\ (prompt_tokens usage = 0 <-> p = []).
Proof.
  assert (H : forall s, estimateTokens (JStr s) = quarter s).
  { intros [|a s]; [reflexivity|]. unfold estimateTokens.
    fold (quarter (a :: s)). pose proof (quarter_bounds (a :: s)) as B.
    cbn [List.length] in B. lia. }
  cbn zeta. unfold createUsageStats.
  cbn [total_tokens prompt_tokens completion_tokens]. rewrite !H.
  split; [reflexivity|]. split; [apply quarter_bounds|].
  split; [apply quarter_bounds|].
  pose proof (quarter_bounds p) as B. split.
  - intros E. destruct p; [reflexivity | cbn [List.length] in B; lia].
  - now intros ->.
Qed.

End Cleaning.

Section Streaming.

Import Models Adapter Process ChatHandler Wording Machine.

Variable P : Platform.

(** ** The status line of a stream *)

Lemma head_write st f : head (res (snd (write st f))) = head (res st).
Proof.
  unfold write. destruct (closed st); [reflexivity|].
  unfold res_write. now destruct (faults (res st)) as [|[|] rest].
Qed.

Lemma head_emit m d fr :
  head (res (stream (emit m d fr))) = head (res (stream m)).
Proof. cbn. unfold writeChunk. apply head_write. Qed.

Lemma head_ensure_role m :
  head (res (stream (ensure_role m))) = head (res (stream m)).
Proof.
  unfold ensure_role. destruct (roleSent m); [reflexivity|].
  exact (head_emit m role_delta None).
Qed.

Lemma head_iteration cb chunk ids m :
  head (res (stream (fst (iteration P cb chunk ids m))))
  = head (res (stream m)).
Proof.
  destruct (iteration P cb chunk ids m) as [m' c] eqn:E. cbn [fst].
  pose proof (head_ensure_role (count_chunk m)) as H1.
  change (stream (count_chunk m)) with (stream m) in H1.
  destruct (iteration_cases _ _ _ _ _ _ _ E)
    as [-> | [-> | [(s & -> & _) | (tc & -> & _)]]].
  - reflexivity.
  - exact H1.
  - rewrite <- H1.
    destruct cb; exact (head_emit _ (DContent (filterContent s)) None).
  - rewrite <- H1. exact (head_emit _ (DToolCalls tc) None).
Qed.

Lemma head_loop cb events :
  forall m, head (res (stream (fst (loop P cb events m))))
            = head (res (stream m)).
Proof.
  induction events as [|ev events IH]; intros m; cbn [loop]; [reflexivity|].
  destruct ev as [chunk ids | e |].
  - pose proof (head_iteration cb chunk ids m) as H1.
    destruct (iteration P cb chunk ids m) as [m1 [ | | e]]; cbn [fst] in *;
      [now rewrite IH | exact H1 | exact H1].
  - reflexivity.
  - now rewrite IH.
Qed.

Lemma head_finish cb m :
  head (res (stream (fst (finish cb m)))) = head (res (stream m)).
Proof.
  unfold finish. destruct (chunkCount m); [reflexivity|]. cbn [fst].
  set (m1 := if roleSent m && negb (contentSent m) then _ else _).
  assert (H1 : head (res (stream m1)) = head (res (stream m))).
  { subst m1. destruct (roleSent m && negb (contentSent m)).
    - destruct cb; exact (head_emit m (DContent fallbackMessage) None).
    - destruct (negb (roleSent m)); [|reflexivity].
      exact (head_emit m role_delta None). }
  destruct (roleSent m1); [|exact H1].
  rewrite <- H1. apply head_emit.
Qed.

Lemma head_rescue m e :
  head (res (stream (fst (rescue P m e)))) = head (res (stream m)).
Proof.
  unfold rescue. cbn [fst]. destruct (isClosed (stream m)); [reflexivity|].
  cbn. unfold writeError. apply head_write.
Qed.

Lemma head_process cb events st :
  head (res (stream (fst (processClaudeStream P cb events st))))
  = head (res st).
Proof.
  unfold processClaudeStream.
  pose proof (head_loop cb events (start st)) as Hl.
  destruct (loop P cb events (start st)) as [ml c]. cbn [fst] in Hl.
  change (stream (start st)) with st in Hl.
  pose proof (head_finish cb ml) as Hf.
  assert (Hr : forall m e, head (res (stream m)) = head (res st) ->
                           head (res (stream (fst (rescue P m e))))
                           = head (res st)).
  { intros m e H. now rewrite head_rescue. }
  destruct c as [ | | e].
  - destruct (finish cb ml) as [m' [t|e]]; cbn [fst] in *;
      [congruence | apply Hr; congruence].
  - destruct (finish cb ml) as [m' [t|e]]; cbn [fst] in *;
      [congruence | apply Hr; congruence].
  - now apply Hr.
Qed.

Lemma head_end st : head (res (end_ st)) = head (res st).
Proof.
  unfold end_. destruct (closed st); [reflexivity|].
  unfold res_write, res_end.
  now destruct (faults (res st)) as [|[|] [|[|] rest]].
Qed.

(** Once the tool gate is passed, the response of a streaming request
    has status 200 and content type [text/event-stream], whatever the
    child, the client and the transport do afterwards: no later failure
    changes the status line. *)
Theorem streaming_status_is_always_200 w v x :
  tools_requested P (gate_view v) = Ok false ->
  head (response (fst (handleStreamingRequest P w v x)))
  = Some (200%Z, js "text/event-stream").
Proof.
  intros Hg. unfold handleStreamingRequest. rewrite Hg.
  destruct (gate_false_options P v Hg) as [o ->].
  set (st := createStream (response x) (Models.model v)).
  assert (H0 : head (res st) = Some (200%Z, js "text/event-stream"))
    by reflexivity.
  assert (Hfin : forall (x' : exchange) (s : StreamingResponse)
                        (outcome : result jstring),
             head (res s) = Some (200%Z, js "text/event-stream") ->
             head (response
                     (fst (let stream :=
                             match outcome with
                             | Throw error =>
                                 if isClosed s then s
                                 else snd (writeError P s error)
                             | Ok _ => s
                             end in
                           let stream :=
                             if isClosed stream then stream
                             else end_ stream in
                           ({| response := res stream; spawns := spawns x' |},
                            Returned (Ok tt)))))
             = Some (200%Z, js "text/event-stream")).
  { intros x' s outcome Hs. cbn [fst response].
    set (s1 := match outcome with Throw _ => _ | Ok _ => s end).
    assert (H1 : head (res s1) = Some (200%Z, js "text/event-stream")).
    { subst s1. destruct outcome as [t|e]; [exact Hs|].
      destruct (isClosed s); [exact Hs|].
      unfold writeError. now rewrite head_write. }
    destruct (isClosed s1); [exact H1 | now rewrite head_end]. }
  destruct (buildClaudeArgs P (files w) _) as [a|e].
  - destruct (starts w); [|exact H0].
    pose proof (head_process true (loop_events w) st) as Hp.
    destruct (processClaudeStream P true (loop_events w) st) as [m r].
    cbn [fst] in Hp. apply Hfin. congruence.
  - pose proof (head_process true [SourceError e] st) as Hp.
    destruct (processClaudeStream P true [SourceError e] st) as [m r].
    cbn [fst] in Hp. apply Hfin. congruence.
Qed.

(** ** A failure is reported twice *)

Lemma write_quiet st f :
  quiet st ->
  wire (res (snd (write st f))) = wire (res st) ++ [f].
Proof.
  intros [Hc Hf]. unfold write, res_write. now rewrite Hc, Hf.
Qed.

Lemma end_quiet st :
  quiet st -> wire (res (end_ st)) = wire (res st) ++ [FDone].
Proof.
  intros [Hc Hf]. unfold end_, res_write, res_end. now rewrite Hc, Hf.
Qed.

Lemma rescue_quiet m e :
  quiet (stream m) ->
  quiet (stream (fst (rescue P m e)))
  /\ wire (res (stream (fst (rescue P m e))))
     = wire (res (stream m)) ++ [error_frame P e].
Proof.
  intros H. split; [now apply quiet_rescue|].
  unfold rescue. cbn [fst]. destruct H as [Hc Hf].
  unfold isClosed. rewrite Hc. cbn [with_stream stream].
  unfold writeError. now apply write_quiet.
Qed.

Lemma failed_run_ends_with_the_error cb events st m e :
  quiet st ->
  ~ In ClientGone events ->
  processClaudeStream P cb events st = (m, Throw e) ->
  quiet (stream m)
  /\ exists before, wire (res (stream m)) = before ++ [error_frame P e].
Proof.
  intros H0 Hn. unfold processClaudeStream.
  pose proof (quiet_loop P cb events Hn (start st) H0) as Hl.
  destruct (loop P cb events (start st)) as [ml c]. cbn [fst] in Hl.
  pose proof (quiet_finish cb ml Hl) as Hf.
  assert (Hr : forall m0 e0,
             quiet (stream m0) -> rescue P m0 e0 = (m, Throw e) ->
             quiet (stream m)
             /\ exists before,
                 wire (res (stream m)) = before ++ [error_frame P e]).
  { intros m0 e0 Hq E. destruct (rescue_quiet m0 e0 Hq) as [Q W].
    rewrite E in Q, W. cbn [fst] in Q, W.
    assert (e0 = e) by (unfold rescue in E; congruence). subst e0.
    split; [exact Q | eexists; exact W]. }
  destruct c as [ | | e0].
  - destruct (finish cb ml) as [m' [t|e0]]; cbn [fst] in *;
      [discriminate | now apply Hr].
  - destruct (finish cb ml) as [m' [t|e0]]; cbn [fst] in *;
      [discriminate | now apply Hr].
  - now apply Hr.
Qed.

(** When the child of a streaming request has started and its run
    fails on a connection that nothing disturbs, the client receives
    the error event twice, once from [processClaudeStream] and once
    from the handler that catches what it rethrows, and then
    [[DONE]]. *)
Theorem stream_failure_is_reported_twice w v x m e :
  tools_requested P (gate_view v) = Ok false ->
  writeFileSync (files w) = None ->
  starts w = true ->
  faults (response x) = [] ->
  ~ In ClientGone (loop_events w) ->
  processClaudeStream P true (loop_events w)
    (createStream (response x) (Models.model v)) = (m, Throw e) ->
  exists before,
    wire (response (fst (handleStreamingRequest P w v x)))
    = before ++ [error_frame P e; error_frame P e; FDone].
Proof.
  intros Hg Hw Hs Hf Hn Hp. unfold handleStreamingRequest. rewrite Hg.
  destruct (gate_false_options P v Hg) as [o ->].
  destruct (buildClaudeArgs_written P (files w)
              (prepared o (systemPrompt (messagesToClaudePrompt (messages v)))
                 true) Hw) as [r ->].
  rewrite Hs, Hp.
  assert (H0 : quiet (createStream (response x) (Models.model v)))
    by (split; [reflexivity | exact Hf]).
  destruct (failed_run_ends_with_the_error true _ _ m e H0 Hn Hp)
    as [Hq [before Hb]].
  exists before. cbn [fst response].
  destruct Hq as [Hc Hfl]. unfold isClosed. rewrite Hc.
  assert (Hq1 : quiet (snd (writeError P (stream m) e))).
  { unfold writeError. apply quiet_write. now split. }
  destruct Hq1 as [Hc1 Hf1]. rewrite Hc1.
  rewrite end_quiet by now split.
  unfold writeError. rewrite write_quiet by now split.
  rewrite Hb. rewrite <- !app_assoc. reflexivity.
Qed.

(** ** One assistant message *)

(** An assistant message of one text block whose text survives trimming
    and filtering, alone on an undisturbed session, puts exactly three
    frames on the wire: the role delta, the content delta with the
    filtered text, and the terminal delta; the run returns the filtered
    text. *)
Theorem single_text_message_is_relayed cb ids model s :
  trim s <> [] ->
  filterContent s <> [] ->
  wire (res (stream (fst (processClaudeStream P cb [Chunk (text_message s) ids]
                            (fresh [] model)))))
  = [FChunk model role_delta None;
     FChunk model (DContent (filterContent s)) None;
     FChunk model DEmpty stop]
  /\ snd (processClaudeStream P cb [Chunk (text_message s) ids]
            (fresh [] model))
     = Ok (filterContent s).
Proof.
  intros Ht Hf.
  destruct s as [|c s]; [now elim Ht|].
  assert (Hp : parseClaudeChunk P ids (text_message (c :: s))
               = PAssistant (JStr (c :: s))) by reflexivity.
  unfold processClaudeStream. cbn [loop]. unfold iteration.
  change (isClosed (stream (count_chunk (start (fresh [] model)))))
    with false.
  rewrite Hp. cbn [truthy].
  destruct (trim (c :: s)) as [|a t] eqn:Et; [now elim Ht|].
  destruct (filterContent (c :: s)) as [|b f] eqn:Ef; [now elim Hf|].
  destruct cb; split; reflexivity.
Qed.

End Streaming.

Lemma streaming_status_is_always_200_witness :
  head (response
          (fst (ChatHandler.handleStreamingRequest engine Samples.failing
                  Samples.hello_stream_request untouched)))
  = Some (200%Z, js "text/event-stream").
Proof.
  exact (streaming_status_is_always_200 engine Samples.failing
           Samples.hello_stream_request untouched eq_refl).
Defined.

Lemma stream_failure_is_reported_twice_witness :
  exists before,
    wire (response
            (fst (ChatHandler.handleStreamingRequest engine Samples.failing
                    Samples.hello_stream_request untouched)))
    = before ++ [Wording.error_frame engine Samples.broken;
                 Wording.error_frame engine Samples.broken; FDone].
Proof.
  refine (stream_failure_is_reported_twice engine Samples.failing
            Samples.hello_stream_request untouched _ Samples.broken
            eq_refl eq_refl eq_refl eq_refl _ eq_refl).
  cbn. intuition discriminate.
Defined.

Lemma single_text_message_is_relayed_witness :
  snd (processClaudeStream engine true
         [Chunk (Wording.text_message (js "Hi")) no_entropy]
         (fresh [] (js "any")))
  = Ok (js "Hi").
Proof.
  refine (proj2 (single_text_message_is_relayed engine true no_entropy
                   (js "any") (js "Hi") _ _)); discriminate.
Defined.

(* ================================================================== *)
(** * Multimodal content and decimal ports                              *)
(* ================================================================== *)

Section Multimodal.

Import Models Wording.

Lemma text_items_parts parts :
  Forall not_text parts ->
  text_items (map part_object parts)
  = Ok (map (fun text => part_object (TextPart text)) (text_parts parts)).
Proof.
  induction 1 as [|p parts Hp _ IH]; [reflexivity|].
  cbn [map text_items]. destruct p as [text|fields].
  - cbn [part_object get]. unfold bind at 1.
    change (assoc (js "type")
              [member "type" (str "text"); member "text" (JStr text)])
      with (Some (str "text")).
    change (is_str (Some (str "text")) "text") with true.
    rewrite IH. reflexivity.
  - cbn [part_object get]. unfold bind at 1. cbn [not_text] in Hp.
    rewrite Hp, IH. reflexivity.
Qed.

Lemma texts_parts (l : list jstring) :
  texts (map (fun text => part_object (TextPart text)) l)
  = Ok (map (fun text => Some (JStr text)) l).
Proof.
  induction l as [|text l IH]; [reflexivity|].
  cbn [map texts]. rewrite IH. reflexivity.
Qed.

Lemma join_elements_strings (l : list jstring) :
  join_elements (map (fun text => Some (JStr text)) l) = Ok l.
Proof.
  induction l as [|text l IH]; [reflexivity|].
  cbn [map join_elements]. rewrite IH. reflexivity.
Qed.

(** Of a multimodal content whose text blocks carry strings, validation
    keeps the texts of the text blocks, joined by line feeds, and
    nothing of the other parts: an image is dropped without notice, and
    a message with no text left is rejected. *)
Theorem multimodal_content_keeps_only_text parts c role_ :
  Forall not_text parts ->
  In (c :: role_) validRoles ->
  validateMessage
    (JObj [member "role" (JStr (c :: role_));
           member "content" (JArr (map part_object parts))])
  = match join [10%N] (text_parts parts) with
    | [] =>
        invalid (js "Message must contain at least one text content block")
                (js "message.content")
    | text => inr {| role := c :: role_; content := text |}
    end.
Proof.
  intros Hp Hr. unfold validateMessage.
  change (prop (JObj [member "role" (JStr (c :: role_));
                      member "content" (JArr (map part_object parts))]) "role")
    with (Some (JStr (c :: role_))).
  change (prop (JObj [member "role" (JStr (c :: role_));
                      member "content" (JArr (map part_object parts))])
            "content")
    with (Some (JArr (map part_object parts))).
  cbn [truthy is_object negb orb truthy_opt is_string string_of].
  rewrite (In_includes _ _ Hr). cbn [negb].
  unfold textContent, bind.
  rewrite (text_items_parts parts Hp), texts_parts, join_elements_strings.
  now destruct (join [10%N] (text_parts parts)).
Qed.

End Multimodal.

Lemma multimodal_content_keeps_only_text_witness :
  Models.validateMessage
    (JObj [member "role" (str "user");
           member "content"
             (JArr [JObj [member "type" (str "text"); member "text" (str "Look:")];
                    JObj [member "type" (str "image_url");
                          member "image_url"
                            (JObj [member "url" (str "data:image/png;base64,AAAA")])];
                    JObj [member "type" (str "text"); member "text" (str "what is it?")]])])
  = inr {| Models.role := js "user";
           Models.content := js "Look:" ++ [10%N] ++ js "what is it?" |}.
Proof.
  refine (multimodal_content_keeps_only_text
            [Wording.TextPart (js "Look:");
             Wording.OtherPart
               [member "type" (str "image_url");
                member "image_url"
                  (JObj [member "url" (str "data:image/png;base64,AAAA")])];
             Wording.TextPart (js "what is it?")]
            117%N (js "ser") _ _).
  - repeat constructor.
  - right. left. reflexivity.
Defined.

Section Decimal.

Import Config Wording.

Ltac read_one_digit IH :=
  match goal with
  | |- exists _, Number.read_digits ?acc (js (String ?a ?s))
                 = (digits_value _ ?v, _, _) /\ _ =>
      destruct (IH v) as [count [E _]]; exists (S count);
      split; [|discriminate];
      change (js (String a s)) with (N_of_ascii a :: js s);
      change (Number.read_digits acc (N_of_ascii a :: js s))
        with (if Number.is_digit (N_of_ascii a) then
                let '(w, n, rest) :=
                  Number.read_digits (10 * acc + (N_of_ascii a - 48)) (js s) in
                (w, S n, rest)
              else (acc, 0, N_of_ascii a :: js s));
      change (Number.is_digit (N_of_ascii a)) with true;
      let k := eval cbv in (N_of_ascii a - 48)%N in
      change (N_of_ascii a - 48)%N with k;
      cbv iota; rewrite E; reflexivity
  end.

Lemma read_uint d :
  forall acc,
    exists count,
      Number.read_digits acc (js (DecimalString.NilEmpty.string_of_uint d))
      = (digits_value d acc, count, [])
      /\ (d <> Decimal.Nil -> count <> 0).
Proof.
  induction d; intros acc;
    cbn [DecimalString.NilEmpty.string_of_uint digits_value];
    [exists 0; split; [reflexivity | now intros H] | ..];
    read_one_digit IHd.
Qed.

Lemma digits_value_acc d :
  forall acc, digits_value d (N.pos acc) = N.pos (Pos.of_uint_acc d acc).
Proof.
  induction d; intros acc; cbn [digits_value Pos.of_uint_acc];
    [reflexivity | ..];
    match goal with
    | |- digits_value _ ?v = N.pos (Pos.of_uint_acc _ ?p) =>
        replace v with (N.pos p) by lia; apply IHd
    end.
Qed.

Lemma digits_value_of_uint d : digits_value d 0 = Pos.of_uint d.
Proof.
  induction d; cbn [digits_value Pos.of_uint];
    [reflexivity | exact IHd | ..];
    match goal with
    | |- digits_value _ ?v = N.pos (Pos.of_uint_acc _ ?p) =>
        change v with (N.pos p); apply digits_value_acc
    end.
Qed.

Lemma decimal_positive p :
  exists c s,
    decimal (Z.pos p) = c :: s
    /\ Number.is_digit c = true
    /\ exists count,
         Number.read_digits 0 (c :: s) = (N.pos p, S count, []).
Proof.
  unfold decimal. cbn [Z.to_int DecimalString.NilZero.string_of_int].
  pose proof (DecimalPos.Unsigned.to_uint_nonnil p) as Hn.
  pose proof (DecimalPos.Unsigned.of_to p) as Hv.
  destruct (read_uint (Pos.to_uint p) 0) as [count [E Hc]].
  rewrite digits_value_of_uint, Hv in E.
  specialize (Hc Hn). destruct count as [|count]; [now elim Hc|].
  assert (Es : DecimalString.NilZero.string_of_uint (Pos.to_uint p)
               = DecimalString.NilEmpty.string_of_uint (Pos.to_uint p))
    by now destruct (Pos.to_uint p).
  rewrite Es.
  destruct (Pos.to_uint p) eqn:Ed; [now elim Hn | ..];
    cbn [DecimalString.NilEmpty.string_of_uint] in *;
    match goal with
    | |- exists _ _, js (String ?a ?s) = _ /\ _ =>
        exists (N_of_ascii a), (js s); split; [reflexivity|];
        split; [reflexivity|]; exists count; exact E
    end.
Qed.

Lemma digit_is_no_space c : Number.is_digit c = true -> is_space c = false.
Proof.
  unfold Number.is_digit. intros H. apply andb_true_iff in H.
  destruct H as [H1 H2]. apply N.leb_le in H1, H2.
  unfold is_space.
  repeat match goal with
         | |- context [N.eqb c ?k] =>
             replace (N.eqb c k) with false
               by (symmetry; apply N.eqb_neq; lia)
         end.
  replace (N.leb 8192 c) with false by (symmetry; apply N.leb_gt; lia).
  reflexivity.
Qed.

(** [parseInt] reads every integer back from its decimal text. *)
Lemma parseInt_decimal z : parseInt (decimal z) = Some z.
Proof.
  destruct z as [|p|p].
  - reflexivity.
  - destruct (decimal_positive p) as (c & s & -> & Hd & count & E).
    unfold parseInt. cbn [trimStart]. rewrite (digit_is_no_space c Hd).
    unfold Number.is_digit in Hd. apply andb_true_iff in Hd.
    destruct Hd as [H1 H2]. apply N.leb_le in H1, H2.
    assert (c <> 45%N /\ c <> 43%N) as [Hm Hp] by lia.
    destruct c as [|q]; [lia|].
    do 6 (destruct q as [q|q|]; try lia; try (rewrite E; reflexivity)).
  - destruct (decimal_positive p) as (c & s & Ep & Hd & count & E).
    assert (En : decimal (Z.neg p) = 45%N :: decimal (Z.pos p)) by reflexivity.
    rewrite En, Ep. unfold parseInt.
    change (trimStart (45%N :: c :: s)) with (45%N :: c :: s).
    cbv iota beta. rewrite E. reflexivity.
Qed.

(** A [PORT] that is the decimal text of a number from 1 to 65535 is
    the port of the configuration. *)
Theorem decimal_port_is_accepted env p :
  (1 <= p <= 65535)%Z ->
  getenv (js "PORT") env = Some (decimal p) ->
  exists c, loadConfig env = inr c /\ port c = Some p.
Proof.
  intros Hp Hg. unfold loadConfig, validateConfig. cbn [port]. rewrite Hg.
  pose proof (parseInt_decimal p) as E.
  destruct p as [|q|q]; try lia.
  destruct (decimal_positive q) as (c & s & Ed & _). rewrite Ed in *.
  rewrite E.
  replace ((Z.pos q <? 1)%Z || (65535 <? Z.pos q)%Z) with false.
  - eexists. split; reflexivity.
  - symmetry. apply orb_false_iff. split; apply Z.ltb_ge; lia.
Qed.

End Decimal.

Lemma decimal_port_is_accepted_witness :
  exists c,
    Config.loadConfig [(js "PORT", js "3000")] = inr c
    /\ Config.port c = Some 3000%Z.
Proof.
  refine (decimal_port_is_accepted [(js "PORT", js "3000")] 3000 _ eq_refl).
  lia.
Defined.

(** * Every chat request is answered; when a stream is closed *)

Section Answers.

Import Models Adapter Process ChatHandler Wording Machine.

Variable P : Platform.

Lemma sendError_answers x status text type :
  answered (ChatHandler.sendError x status text type) status
    (createErrorResponse text type None).
Proof. repeat split. Qed.

(** Whatever the body and whatever the child does, the chat handler
    answers with a JSON body and one of the statuses 200, 400, 422 and
    500, unless the request is a valid streaming request without tools,
    which gets an event stream. *)
Theorem chat_answers_have_four_statuses w body x :
  (exists status data,
      answered (handle P w body x) status data
      /\ In status [200; 400; 422; 500]%Z)
  \/ (exists b v,
        body = Some b
        /\ validateChatCompletionRequest P b = inr v
        /\ Models.stream v = true
        /\ tools_requested P (gate_view v) = Ok false).
Proof.
  assert (H422 : forall text type,
             exists status data,
               answered (ChatHandler.sendError x 422 text type) status data
               /\ In status [200; 400; 422; 500]%Z).
  { intros text type. do 2 eexists. split; [apply sendError_answers|].
    cbn. tauto. }
  assert (H500 : forall x' text type,
             exists status data,
               answered (ChatHandler.sendError x' 500 text type) status data
               /\ In status [200; 400; 422; 500]%Z).
  { intros x' text type. do 2 eexists. split; [apply sendError_answers|].
    cbn. tauto. }
  assert (H400 : forall text type,
             exists status data,
               answered (ChatHandler.sendError x 400 text type) status data
               /\ In status [200; 400; 422; 500]%Z).
  { intros text type. do 2 eexists. split; [apply sendError_answers|].
    cbn. tauto. }
  unfold handle. destruct body as [b|]; [|left; apply H422].
  destruct (validateChatCompletionRequest P b) as [e|v] eqn:Hv;
    [left; apply H422|].
  destruct (Models.stream v) eqn:Hs.
  - unfold handleStreamingRequest.
    destruct (tools_requested P (gate_view v)) as [[|]|e] eqn:Hg.
    + left. apply H400.
    + right. now exists b, v.
    + left. apply H500.
  - left. unfold handleNonStreamingRequest.
    destruct (tools_requested P (gate_view v)) as [[|]|e] eqn:Hg;
      [apply H400 | | apply H500].
    destruct (openAIStreamToClaudeOptions P v) as [o|e]; [|apply H500].
    unfold completion.
    destruct (buildClaudeArgs P (files w) _) as [[a f]|e]; [|apply H500].
    destruct (execute (child_stdout w) (child_exit w)) as [output|e];
      cbn [bind]; [|apply H500].
    do 2 eexists. split; [repeat split|]. cbn. tauto.
Qed.

Lemma quiet_process cb events st :
  quiet st ->
  ~ In ClientGone events ->
  quiet (stream (fst (processClaudeStream P cb events st))).
Proof.
  intros H0 Hn. unfold processClaudeStream.
  pose proof (quiet_loop P cb events Hn (start st) H0) as Hl.
  destruct (loop P cb events (start st)) as [ml c]. cbn [fst] in Hl.
  pose proof (quiet_finish cb ml Hl) as Hf.
  destruct c as [ | | e].
  - destruct (finish cb ml) as [m' [t|e]]; cbn [fst] in *;
      [exact Hf | now apply quiet_rescue].
  - destruct (finish cb ml) as [m' [t|e]]; cbn [fst] in *;
      [exact Hf | now apply quiet_rescue].
  - now apply quiet_rescue.
Qed.

Lemma end_quiet_ended st :
  quiet st ->
  wire (res (end_ st)) = wire (res st) ++ [FDone]
  /\ ended (res (end_ st)) = true.
Proof.
  intros [Hc Hf]. unfold end_, res_write, res_end. now rewrite Hc, Hf.
Qed.

(** A valid streaming request without tools on a connection that
    nothing disturbs.  When the child can be started, the handler
    returns with the stream closed, whether the run succeeded or
    failed: the last frame on the wire is [[DONE]] and the response is
    ended.  When the arguments are built and the child cannot be
    started, the Node process ends instead: one spawn has been tried,
    nothing has been written after the head, and the response is left
    open. *)
Theorem stream_is_closed_unless_the_child_cannot_start w v x :
  tools_requested P (gate_view v) = Ok false ->
  faults (response x) = [] ->
  ~ In ClientGone (loop_events w) ->
  (starts w = true ->
   snd (handleStreamingRequest P w v x) = Returned (Ok tt)
   /\ exists before,
        wire (response (fst (handleStreamingRequest P w v x)))
        = before ++ [FDone]
        /\ ended (response (fst (handleStreamingRequest P w v x))) = true)
  /\ (starts w = false ->
      writeFileSync (files w) = None ->
      snd (handleStreamingRequest P w v x) = ServerDown
      /\ wire (response (fst (handleStreamingRequest P w v x)))
         = wire (response x)
      /\ ended (response (fst (handleStreamingRequest P w v x)))
         = ended (response x)
      /\ spawns (fst (handleStreamingRequest P w v x)) = S (spawns x)).
Proof.
  intros Hg Hf Hn. unfold handleStreamingRequest. rewrite Hg.
  destruct (gate_false_options P v Hg) as [o ->].
  set (st := createStream (response x) (Models.model v)).
  assert (H0 : quiet st) by (split; [reflexivity | exact Hf]).
  assert (Hfin : forall (s : StreamingResponse) (outcome : result jstring),
             quiet s ->
             exists before,
               wire (res (let stream :=
                            match outcome with
                            | Throw error =>
                                if isClosed s then s
                                else snd (writeError P s error)
                            | Ok _ => s
                            end in
                          if isClosed stream then stream else end_ stream))
               = before ++ [FDone]
               /\ ended (res (let stream :=
                                match outcome with
                                | Throw error =>
                                    if isClosed s then s
                                    else snd (writeError P s error)
                                | Ok _ => s
                                end in
                              if isClosed stream then stream
                              else end_ stream))
                  = true).
  { intros s outcome Hs. cbv zeta.
    set (s1 := match outcome with Throw _ => _ | Ok _ => s end).
    assert (H1 : quiet s1).
    { subst s1. destruct outcome as [t|e]; [exact Hs|].
      destruct (isClosed s); [exact Hs|].
      unfold writeError. now apply quiet_write. }
    destruct (end_quiet_ended s1 H1) as [Hw He].
    destruct H1 as [Hc _]. unfold isClosed. rewrite Hc.
    exists (wire (res s1)). now split. }
  split.
  - intros Hs. rewrite Hs.
    destruct (buildClaudeArgs P (files w) _) as [a|e].
    + pose proof (quiet_process true (loop_events w) st H0 Hn) as Hq.
      destruct (processClaudeStream P true (loop_events w) st) as [m r].
      cbn [fst] in Hq. split; [reflexivity|]. exact (Hfin _ r Hq).
    + assert (Hn' : ~ In ClientGone [SourceError e])
        by (cbn; intuition discriminate).
      pose proof (quiet_process true [SourceError e] st H0 Hn') as Hq.
      destruct (processClaudeStream P true [SourceError e] st) as [m r].
      cbn [fst] in Hq. split; [reflexivity|]. exact (Hfin _ r Hq).
  - intros Hs Hw. rewrite Hs.
    destruct (buildClaudeArgs_written P (files w)
                (prepared o
                   (systemPrompt (messagesToClaudePrompt (messages v)))
                   true) Hw) as [r ->].
    repeat split.
Qed.

End Answers.

Lemma stream_is_closed_unless_the_child_cannot_start_witness :
  snd (ChatHandler.handleStreamingRequest engine Samples.absent
         Samples.hello_stream_request untouched)
  = ChatHandler.ServerDown
  /\ wire (response
             (fst (ChatHandler.handleStreamingRequest engine Samples.absent
                     Samples.hello_stream_request untouched)))
     = wire (response untouched)
  /\ ended (response
              (fst (ChatHandler.handleStreamingRequest engine Samples.absent
                      Samples.hello_stream_request untouched)))
     = ended (response untouched)
  /\ spawns (fst (ChatHandler.handleStreamingRequest engine Samples.absent
                    Samples.hello_stream_request untouched))
     = S (spawns untouched).
Proof.
  refine (proj2 (stream_is_closed_unless_the_child_cannot_start engine
                   Samples.absent Samples.hello_stream_request untouched
                   eq_refl eq_refl _) eq_refl eq_refl).
  cbn. intuition.
Defined.
